(** * Code Preserve Translator: a shallow embedding of the segmentation,
      chunking, caching and context-store logic, with the properties of
      its specification.

    Strings are JavaScript strings: finite sequences of UTF-16 code units,
    modelled as [list N].  Regular expressions are embedded as syntax trees
    run by a backtracking matcher that follows the ECMAScript matching
    rules for the constructs the sources use.  Numbers that count code
    units or milliseconds are integers ([nat], [Z]).  Asynchronous
    functions are functions of the state they read and write; every
    reading of [Date.now()] and every answer of the completion backend is
    an argument, so that the properties hold for all clocks and all
    backends.

    The file has three parts: the embedding, one module per source file;
    the definitions the properties are stated with; the properties. *)

From stdpp Require Import gmap strings list.
From Stdlib Require Import ZArith NArith Ascii String List Lia.
Import ListNotations.

Local Open Scope N_scope.

(** ** JavaScript strings and built-ins *)

Module Js.

(** A string is a list of 16-bit code units. *)
Abbreviation jsstring := (list N).

(** An ASCII literal as a JavaScript string. *)
Definition str (s : string) : jsstring :=
  map N_of_ascii (list_ascii_of_string s).

Definition LF : N := 10.

(** ECMAScript [LineTerminator]: LF, CR, LS, PS. *)
Definition isLineTerminator (c : N) : bool :=
  (c =? 10) || (c =? 13) || (c =? 8232) || (c =? 8233).

(** The class [\s] (and the characters removed by [trim]): WhiteSpace
    and LineTerminator code units. *)
Definition isWhiteSpace (c : N) : bool :=
  ((9 <=? c) && (c <=? 13)) || (c =? 32) || (c =? 160) || (c =? 5760)
  || ((8192 <=? c) && (c <=? 8202)) || (c =? 8232) || (c =? 8233)
  || (c =? 8239) || (c =? 8287) || (c =? 12288) || (c =? 65279).

Definition isUpper (c : N) : bool := (65 <=? c) && (c <=? 90).
Definition isLower (c : N) : bool := (97 <=? c) && (c <=? 122).
Definition isDigit (c : N) : bool := (48 <=? c) && (c <=? 57).

(** The class [\w]: [A-Za-z0-9_]. *)
Definition isWordChar (c : N) : bool :=
  isUpper c || isLower c || isDigit c || (c =? 95).

(** [s.trim().length === 0] *)
Definition isBlank (s : jsstring) : bool := forallb isWhiteSpace s.

(** Truthiness of a string: non-empty. *)
Definition truthy (s : jsstring) : bool :=
  match s with [] => false | _ => true end.

(** [s.substring(0, n)] and [s.substring(n)] for a number [n]; negative
    arguments are clamped to 0. *)
Definition substring_to (s : jsstring) (n : Z) : jsstring := take (Z.to_nat n) s.
Definition substring_from (s : jsstring) (n : Z) : jsstring := drop (Z.to_nat n) s.

(** [s.startsWith(p)] *)
Fixpoint startsWith (p s : jsstring) : bool :=
  match p, s with
  | [], _ => true
  | a :: p', b :: s' => (a =? b) && startsWith p' s'
  | _ :: _, [] => false
  end.

(** [s.includes(p)] *)
Fixpoint includes (p s : jsstring) : bool :=
  startsWith p s || match s with [] => false | _ :: s' => includes p s' end.

(** [parts.join(sep)] *)
Fixpoint join (sep : jsstring) (parts : list jsstring) : jsstring :=
  match parts with
  | [] => []
  | [p] => p
  | p :: rest => p ++ sep ++ join sep rest
  end.

(** [s.split(c)] for a one-character separator string. *)
Fixpoint split_on (c : N) (piece : jsstring) (s : jsstring) : list jsstring :=
  match s with
  | [] => [reverse piece]
  | d :: s' =>
      if d =? c then reverse piece :: split_on c [] s'
      else split_on c (d :: piece) s'
  end.
Definition split_char (c : N) (s : jsstring) : list jsstring := split_on c [] s.

(** *** Regular expressions *)

Inductive regex : Type :=
| Empty                          (* the empty pattern *)
| Class (p : N -> bool)          (* one code unit of a class *)
| Cat (r1 r2 : regex)            (* r1 r2 *)
| Alt (r1 r2 : regex)            (* r1|r2 *)
| Star (r : regex)               (* r*, greedy *)
| LineStart                      (* ^ under the m flag *)
| InputStart                     (* ^ without the m flag *)
| WordBoundary                   (* \b *)
| LookBehind (p : N -> bool).    (* (?<=[...]) over a one-unit class *)

Definition atLineStart (prev : option N) : bool :=
  match prev with None => true | Some c => isLineTerminator c end.

Definition atInputStart (prev : option N) : bool :=
  match prev with None => true | Some _ => false end.

Definition wordBefore (prev : option N) : bool :=
  match prev with None => false | Some c => isWordChar c end.

Definition wordAfter (s : jsstring) : bool :=
  match s with [] => false | c :: _ => isWordChar c end.

(** The matcher of a pattern: given the code unit before the position
    ([None] at the start of the input), the rest of the input and a
    continuation, the first result the continuation accepts. *)
Definition Matcher (A : Type) : Type :=
  option N -> jsstring -> (option N -> jsstring -> option A) -> option A.

(** The greedy repetition of [body], at most [fuel] times: one more turn
    of [body] is tried first, then the continuation.  A turn that consumes
    nothing is rejected, as in the language definition. *)
Fixpoint iterate {A : Type} (body : Matcher A)
    (k : option N -> jsstring -> option A) (fuel : nat) (prev : option N)
    (s : jsstring) : option A :=
  match fuel with
  | O => k prev s
  | S fuel' =>
      match body prev s
              (fun prev' s' =>
                 if (length s' <? length s)%nat
                 then iterate body k fuel' prev' s' else None) with
      | Some a => Some a
      | None => k prev s
      end
  end.

(** The backtracking matcher, in continuation-passing style: [exec r prev
    s k] tries the ways [r] can match a prefix of [s] in ECMAScript
    priority order and returns the first result the continuation accepts.
    A repetition never needs more turns than code units are left. *)
Fixpoint exec {A : Type} (r : regex) : Matcher A :=
  fun prev s k =>
    match r with
    | Empty => k prev s
    | Class p =>
        match s with
        | c :: s' => if p c then k (Some c) s' else None
        | [] => None
        end
    | Cat r1 r2 => exec r1 prev s (fun prev' s' => exec r2 prev' s' k)
    | Alt r1 r2 =>
        match exec r1 prev s k with
        | Some a => Some a
        | None => exec r2 prev s k
        end
    | Star r1 => iterate (exec r1) k (length s) prev s
    | LineStart => if atLineStart prev then k prev s else None
    | InputStart => if atInputStart prev then k prev s else None
    | WordBoundary =>
        if xorb (wordBefore prev) (wordAfter s) then k prev s else None
    | LookBehind p =>
        match prev with
        | Some c => if p c then k prev s else None
        | None => None
        end
    end.

(** A match attempt at the current position; the result is the number of
    code units the match consumed. *)
Definition matchAt (r : regex) (prev : option N) (s : jsstring) : option nat :=
  exec r prev s (fun _ rest => Some (length s - length rest)%nat).

(** Leftmost search from the current position onwards. *)
Fixpoint search (r : regex) (prev : option N) (s : jsstring) : bool :=
  match matchAt r prev s with
  | Some _ => true
  | None =>
      match s with
      | [] => false
      | c :: s' => search r (Some c) s'
      end
  end.

(** [r.test(s)] for a regular expression without the g or y flag. *)
Definition test (r : regex) (s : jsstring) : bool := search r None s.

(** [s.split(r)] for a regular expression [r] without capture groups and
    no limit.  [piece] holds, reversed, the code units since the end of
    the last separator; [skip] counts the code units of the separator
    just matched that are still to be passed over.  A match is tried at
    each position; an empty match directly after the previous separator
    is ignored. *)
Fixpoint split_loop (r : regex) (prev : option N) (piece : jsstring)
    (skip : nat) (s : jsstring) : list jsstring :=
  match s with
  | [] => [reverse piece]
  | c :: s' =>
      match skip with
      | S n => split_loop r (Some c) piece n s'
      | O =>
          match matchAt r prev s with
          | None => split_loop r (Some c) (c :: piece) O s'
          | Some O =>
              match piece with
              | [] => split_loop r (Some c) [c] O s'
              | _ :: _ => reverse piece :: split_loop r (Some c) [c] O s'
              end
          | Some (S m) => reverse piece :: split_loop r (Some c) [] m s'
          end
      end
  end.

Definition split (r : regex) (s : jsstring) : list jsstring :=
  match s with
  | [] => match matchAt r None [] with Some _ => [] | None => [[]] end
  | _ :: _ => split_loop r None [] O s
  end.

(** *** Pattern combinators *)

Definition chr (c : N) : regex := Class (N.eqb c).
Definition never : regex := Class (fun _ => false).
Definition seq (rs : list regex) : regex := foldr Cat Empty rs.
Definition alts (rs : list regex) : regex := foldr Alt never rs.
Definition lit (s : string) : regex := seq (map chr (str s)).
Definition oneof (ws : list string) : regex := alts (map lit ws).
Definition plus (r : regex) : regex := Cat r (Star r).
Definition times (n : nat) (r : regex) : regex := seq (replicate n r).

(** A literal under the i flag: ASCII letters match in either case. *)
Definition chr_i (c : N) : regex :=
  Class (fun d =>
           (d =? c)
           || (isUpper c && (d =? c + 32))
           || (isLower c && (d =? c - 32))).
Definition lit_i (s : string) : regex := seq (map chr_i (str s)).

Definition ws : regex := Class isWhiteSpace.          (* \s *)
Definition nonws : regex := Class (fun c => negb (isWhiteSpace c)). (* \S *)
Definition word : regex := Class isWordChar.          (* \w *)
Definition word_or (extra : string) : regex :=        (* [\w...] *)
  Class (fun c => isWordChar c || existsb (N.eqb c) (str extra)).
Definition any_of (cs : string) : regex :=            (* [...] *)
  Class (fun c => existsb (N.eqb c) (str cs)).
Definition none_of (cs : string) : regex :=           (* [^...] *)
  Class (fun c => negb (existsb (N.eqb c) (str cs))).

(** *** Trimming and tokens *)

(** [s.trim()]: the string without its leading and trailing WhiteSpace
    and LineTerminator code units. *)
Fixpoint trimStart (s : jsstring) : jsstring :=
  match s with
  | [] => []
  | c :: s' => if isWhiteSpace c then trimStart s' else s
  end.
Definition trimEnd (s : jsstring) : jsstring := reverse (trimStart (reverse s)).
Definition trim (s : jsstring) : jsstring := trimEnd (trimStart s).

(** ASCII whitespace, which separates the tokens of a [class]
    attribute: TAB, LF, FF, CR and SPACE. *)
Definition isAsciiWhitespace (c : N) : bool :=
  (c =? 9) || (c =? 10) || (c =? 12) || (c =? 13) || (c =? 32).

(** The tokens of an attribute value, in order.  [piece] holds, reversed,
    the code units of the token being read. *)
Fixpoint tokens_from (piece : jsstring) (s : jsstring) : list jsstring :=
  match s with
  | [] => match piece with [] => [] | _ :: _ => [reverse piece] end
  | c :: s' =>
      if isAsciiWhitespace c then
        match piece with
        | [] => tokens_from [] s'
        | _ :: _ => reverse piece :: tokens_from [] s'
        end
      else tokens_from (c :: piece) s'
  end.
Definition tokens (s : jsstring) : list jsstring := tokens_from [] s.

End Js.

Import Js.

(** ** utils/helpers.ts (src/src/utils/helpers.ts, first part): the code
       classifier, cache validity and the chunker *)

Module Helpers.

(** The eight signature patterns of [isCodeBlock], in source order. *)
Definition codePatterns : list regex :=
  [ (* /^(const|let|var|function|class|import|export)\s+\w+/m *)
    seq [LineStart;
         oneof ["const"; "let"; "var"; "function"; "class"; "import"; "export"];
         plus ws; plus word];
    (* /^(def|class|import|from|if __name__)/m *)
    seq [LineStart; oneof ["def"; "class"; "import"; "from"; "if __name__"]];
    (* /^(public|private|protected|class|interface|enum)/m *)
    seq [LineStart;
         oneof ["public"; "private"; "protected"; "class"; "interface"; "enum"]];
    (* /^(#include|int\s+main|void\s+main)/m *)
    seq [LineStart;
         alts [lit "#include";
               seq [lit "int"; plus ws; lit "main"];
               seq [lit "void"; plus ws; lit "main"]]];
    (* /^(<\?php|namespace|use\s+[\w\\]+;)/m *)
    seq [LineStart;
         alts [lit "<?php"; lit "namespace";
               seq [lit "use"; plus ws; plus (word_or "\"); lit ";"]]];
    (* /^(package\s+[\w.]+;|import\s+[\w.]+;)/m *)
    seq [LineStart;
         alts [seq [lit "package"; plus ws; plus (word_or "."); lit ";"];
               seq [lit "import"; plus ws; plus (word_or "."); lit ";"]]];
    (* /^(<!DOCTYPE|<html|<head|<body|<script|<style)/m *)
    seq [LineStart;
         oneof ["<!DOCTYPE"; "<html"; "<head"; "<body"; "<script"; "<style"]];
    (* /^(@media|body\s*{|\.[\w-]+\s*{|#[\w-]+\s*{)/m *)
    seq [LineStart;
         alts [lit "@media";
               seq [lit "body"; Star ws; lit "{"];
               seq [lit "."; plus (word_or "-"); Star ws; lit "{"];
               seq [lit "#"; plus (word_or "-"); Star ws; lit "{"]]] ].

(** /[{}[\]()<>:;=+\-*/%&|^!~]/ *)
Definition specialChar : regex := any_of "{}[]()<>:;=+-*/%&|^!~".

(** /^(\s+)\S/ : the length of capture group 1, when the line matches.
    The pattern has no m flag and is run on one line at a time. *)
Definition indentPattern : regex := seq [InputStart; plus ws].
Definition indentOf (line : jsstring) : nat :=
  match exec indentPattern None line
          (fun _ rest =>
             match rest with
             | c :: _ =>
                 if negb (isWhiteSpace c)
                 then Some (length line - length rest)%nat else None
             | [] => None
             end) with
  | Some n => n
  | None => O
  end.

(** [new Set(xs).size] *)
Definition distinct (xs : list nat) : nat := length (remove_dups xs).

(** [isCodeBlock(text)].  The two ratio tests compare quotients of
    integers with 0.3 and with a half; they are written here as the
    equivalent integer inequalities [10 * count > 3 * lines] and
    [2 * distinct < indents]. *)
Definition isCodeBlock (text : jsstring) : bool :=
  let hasCodePattern := existsb (fun pattern => test pattern text) codePatterns in
  let lines := split_char LF text in
  let special := length (List.filter (fun line => test specialChar line) lines) in
  let specialCharRatioHigh := (3 * length lines <? 10 * special)%nat in
  let indents := List.filter (fun indent => (0 <? indent)%nat) (map indentOf lines) in
  let hasConsistentIndent :=
    (0 <? length indents)%nat && (2 * distinct indents <? length indents)%nat in
  hasCodePattern || (specialCharRatioHigh && hasConsistentIndent).

(** [isCacheValid(result, expirationMinutes)], with [now] the reading of
    [Date.now()]; [timestamp] is [result.timestamp] when [result] is
    defined. *)
Definition isCacheValid (timestamp : option Z) (expirationMinutes : Z)
    (now : Z) : bool :=
  match timestamp with
  | None => false
  | Some ts =>
      let expirationMs := (expirationMinutes * 60 * 1000)%Z in
      (now - ts <? expirationMs)%Z
  end.

(** *** The chunker *)

(** /\n\s*\n/ *)
Definition paragraphBreak : regex := seq [chr LF; Star ws; chr LF].

(** /(?<=[.!?])\s+/ *)
Definition sentenceEnd (c : N) : bool := existsb (N.eqb c) (str ".!?").
Definition sentenceBreak : regex := seq [LookBehind sentenceEnd; plus ws].

Definition exceeds (n : nat) (maxChunkSize : Z) : bool :=
  (maxChunkSize <? Z.of_nat n)%Z.

(** The state of the loops: the chunks pushed so far, in order, and the
    running [currentChunk]. *)
Definition ChunkState : Type := list jsstring * jsstring.

(** The loop
    [while (remainingSentence.length > 0) { chunks.push(...); ... }].
    Each turn uses one unit of [fuel]; [None] stands for a loop that is
    still running when the fuel is spent. *)
Fixpoint hardCut (fuel : nat) (maxChunkSize : Z) (remainingSentence : jsstring)
    (chunks : list jsstring) : option (list jsstring) :=
  match remainingSentence with
  | [] => Some chunks
  | _ :: _ =>
      match fuel with
      | O => None
      | S fuel' =>
          let chunk := substring_to remainingSentence maxChunkSize in
          hardCut fuel' maxChunkSize
            (substring_from remainingSentence maxChunkSize) (chunks ++ [chunk])
      end
  end.

(** One turn of [for (const sentence of sentences)]. *)
Definition addSentence (maxChunkSize : Z) (st : ChunkState)
    (sentence : jsstring) : option ChunkState :=
  let '(chunks, currentChunk) := st in
  if exceeds (length sentence) maxChunkSize then
    match hardCut (length sentence) maxChunkSize sentence chunks with
    | Some chunks' => Some (chunks', currentChunk)
    | None => None
    end
  else if exceeds (length currentChunk + length sentence) maxChunkSize then
    Some (chunks ++ [currentChunk], sentence)
  else
    Some (chunks,
          currentChunk ++ (if truthy currentChunk then str " " else []) ++ sentence).

(** A [for ... of] loop whose body may fail to finish. *)
Fixpoint forEach {S A : Type} (body : S -> A -> option S) (xs : list A)
    (st : S) : option S :=
  match xs with
  | [] => Some st
  | x :: xs' =>
      match body st x with
      | Some st' => forEach body xs' st'
      | None => None
      end
  end.

(** One turn of [for (const paragraph of paragraphs)]. *)
Definition addParagraph (maxChunkSize : Z) (st : ChunkState)
    (paragraph : jsstring) : option ChunkState :=
  let '(chunks, currentChunk) := st in
  if exceeds (length paragraph) maxChunkSize then
    let sentences := split sentenceBreak paragraph in
    forEach (addSentence maxChunkSize) sentences st
  else if exceeds (length currentChunk + length paragraph) maxChunkSize then
    Some (chunks ++ [currentChunk], paragraph)
  else
    Some (chunks,
          currentChunk ++ (if truthy currentChunk then [LF; LF] else [])
            ++ paragraph).

Definition defaultMaxChunkSize : Z := 4000.

(** [splitTextIntoChunks(text, maxChunkSize)]; [None] when the call does
    not return. *)
Definition splitTextIntoChunks (text : jsstring) (maxChunkSize : Z)
    : option (list jsstring) :=
  if negb (exceeds (length text) maxChunkSize) then Some [text]
  else
    let paragraphs := split paragraphBreak text in
    match forEach (addParagraph maxChunkSize) paragraphs ([], []) with
    | Some (chunks, currentChunk) =>
        Some (if truthy currentChunk then chunks ++ [currentChunk] else chunks)
    | None => None
    end.

End Helpers.

(** ** utils/codeBlockDetector.ts (src/unnamed/part_007): language
       detection *)

Module CodeBlockDetector.

(** The signature families of [detectLanguage], in declaration order
    (the order in which [Object.entries] enumerates them). *)
Definition languagePatterns : list (string * list regex) :=
  [ ("javascript",
      [ (* /^(const|let|var|function|class|import|export)\s+\w+/m *)
        seq [LineStart;
             oneof ["const"; "let"; "var"; "function"; "class"; "import"; "export"];
             plus ws; plus word];
        (* /\b(document|window|console)\.\w+\(/m *)
        seq [WordBoundary; oneof ["document"; "window"; "console"];
             lit "."; plus word; lit "("];
        (* /\b(setTimeout|setInterval|Promise|async|await)\b/m *)
        seq [WordBoundary;
             oneof ["setTimeout"; "setInterval"; "Promise"; "async"; "await"];
             WordBoundary] ]);
    ("typescript",
      [ (* /^(interface|type|enum)\s+\w+/m *)
        seq [LineStart; oneof ["interface"; "type"; "enum"]; plus ws; plus word];
        (* /:\s*(string|number|boolean|any|void|never)\b/m *)
        seq [lit ":"; Star ws;
             oneof ["string"; "number"; "boolean"; "any"; "void"; "never"];
             WordBoundary];
        (* /<[A-Z]\w+>/m *)
        seq [lit "<"; Class isUpper; plus word; lit ">"] ]);
    ("python",
      [ (* /^(def|class|import|from|if __name__)/m *)
        seq [LineStart; oneof ["def"; "class"; "import"; "from"; "if __name__"]];
        (* /\b(self|None|True|False)\b/m *)
        seq [WordBoundary; oneof ["self"; "None"; "True"; "False"]; WordBoundary];
        (* /\s{4}def\s+\w+\(/m *)
        seq [times 4 ws; lit "def"; plus ws; plus word; lit "("] ]);
    ("java",
      [ (* /^(public|private|protected)\s+(class|interface|enum)/m *)
        seq [LineStart; oneof ["public"; "private"; "protected"]; plus ws;
             oneof ["class"; "interface"; "enum"]];
        (* /\b(extends|implements|@Override)\b/m *)
        seq [WordBoundary; oneof ["extends"; "implements"; "@Override"];
             WordBoundary];
        (* /System\.out\.println\(/m *)
        lit "System.out.println(" ]);
    ("csharp",
      [ (* /^(using\s+[\w.]+;|namespace\s+[\w.]+)/m *)
        seq [LineStart;
             alts [seq [lit "using"; plus ws; plus (word_or "."); lit ";"];
                   seq [lit "namespace"; plus ws; plus (word_or ".")]]];
        (* /\b(public|private|protected)\s+(class|interface|enum|struct)\b/m *)
        seq [WordBoundary; oneof ["public"; "private"; "protected"]; plus ws;
             oneof ["class"; "interface"; "enum"; "struct"]; WordBoundary];
        (* /Console\.WriteLine\(/m *)
        lit "Console.WriteLine(" ]);
    ("php",
      [ (* /^(<\?php|\?>)/m *)
        seq [LineStart; oneof ["<?php"; "?>"]];
        (* /\$(this|_GET|_POST|_SESSION|_COOKIE)/m *)
        seq [lit "$"; oneof ["this"; "_GET"; "_POST"; "_SESSION"; "_COOKIE"]];
        (* /\b(echo|print|require|include)\b/m *)
        seq [WordBoundary; oneof ["echo"; "print"; "require"; "include"];
             WordBoundary] ]);
    ("html",
      [ (* /^<!DOCTYPE\s+html>/i *)
        seq [InputStart; lit_i "<!DOCTYPE"; plus ws; lit_i "html>"];
        (* /<html[^>]*>/i *)
        seq [lit_i "<html"; Star (none_of ">"); lit ">"];
        (* /<(head|body|div|span|p|a|img|script|link|meta)[^>]*>/m *)
        seq [lit "<";
             oneof ["head"; "body"; "div"; "span"; "p"; "a"; "img"; "script";
                    "link"; "meta"];
             Star (none_of ">"); lit ">"] ]);
    ("css",
      [ (* /^(\.|#|\* )[^{]+\{/m -- the source has no blank after the asterisk *)
        seq [LineStart; oneof ["."; "#"; "*"]; plus (none_of "{"); lit "{"];
        (* /\b(margin|padding|border|color|background|font|display)\s*:/m *)
        seq [WordBoundary;
             oneof ["margin"; "padding"; "border"; "color"; "background";
                    "font"; "display"];
             Star ws; lit ":"];
        (* /@media\s+/m *)
        seq [lit "@media"; plus ws] ]);
    ("ruby",
      [ (* /^(def|class|module|require|include)\b/m *)
        seq [LineStart; oneof ["def"; "class"; "module"; "require"; "include"];
             WordBoundary];
        (* /\b(attr_accessor|attr_reader|attr_writer)\b/m *)
        seq [WordBoundary; oneof ["attr_accessor"; "attr_reader"; "attr_writer"];
             WordBoundary];
        (* /\bdo\s+\|\w+\|\s+/m *)
        seq [WordBoundary; lit "do"; plus ws; lit "|"; plus word; lit "|";
             plus ws] ]);
    ("go",
      [ (* /^(package|import|func|type|struct)\b/m *)
        seq [LineStart; oneof ["package"; "import"; "func"; "type"; "struct"];
             WordBoundary];
        (* /\b(fmt|go|chan|defer|goroutine)\b/m *)
        seq [WordBoundary; oneof ["fmt"; "go"; "chan"; "defer"; "goroutine"];
             WordBoundary];
        (* /\b(nil|make|new|map|slice)\b/m *)
        seq [WordBoundary; oneof ["nil"; "make"; "new"; "map"; "slice"];
             WordBoundary] ]);
    ("rust",
      [ (* /^(fn|struct|enum|impl|trait|let|mut|pub)\b/m *)
        seq [LineStart;
             oneof ["fn"; "struct"; "enum"; "impl"; "trait"; "let"; "mut"; "pub"];
             WordBoundary];
        (* /\b(Option|Result|Some|None|Ok|Err)\b/m *)
        seq [WordBoundary; oneof ["Option"; "Result"; "Some"; "None"; "Ok"; "Err"];
             WordBoundary];
        (* /\b(match|if let|while let)\b/m *)
        seq [WordBoundary; oneof ["match"; "if let"; "while let"]; WordBoundary] ]);
    ("swift",
      [ (* /^(import|class|struct|enum|protocol|extension)\b/m *)
        seq [LineStart;
             oneof ["import"; "class"; "struct"; "enum"; "protocol"; "extension"];
             WordBoundary];
        (* /\b(var|let|func|guard|if let|optional)\b/m *)
        seq [WordBoundary;
             oneof ["var"; "let"; "func"; "guard"; "if let"; "optional"];
             WordBoundary];
        (* /\b(UIViewController|UIView|SwiftUI)\b/m *)
        seq [WordBoundary; oneof ["UIViewController"; "UIView"; "SwiftUI"];
             WordBoundary] ]);
    ("kotlin",
      [ (* /^(fun|class|interface|object|val|var|package|import)\b/m *)
        seq [LineStart;
             oneof ["fun"; "class"; "interface"; "object"; "val"; "var";
                    "package"; "import"];
             WordBoundary];
        (* /\b(override|lateinit|companion|suspend)\b/m *)
        seq [WordBoundary; oneof ["override"; "lateinit"; "companion"; "suspend"];
             WordBoundary];
        (* /\b(null|Unit|Any|String|Int|Boolean)\b/m *)
        seq [WordBoundary; oneof ["null"; "Unit"; "Any"; "String"; "Int"; "Boolean"];
             WordBoundary] ]) ].

(** [scores[language] = patterns.filter(p => p.test(code)).length] *)
Definition score (code : jsstring) (patterns : list regex) : nat :=
  length (List.filter (fun pattern => test pattern code) patterns).

Definition scoresOf (code : jsstring) : list (string * nat) :=
  map (fun '(language, patterns) => (language, score code patterns))
      languagePatterns.

(** [Math.max(...Object.values(scores))] over counts. *)
Definition maxScore (scores : list (string * nat)) : nat :=
  foldr Nat.max O (map snd scores).

(** The selection that ends [detectLanguage]: nothing below two matches,
    otherwise the first family, in enumeration order, that reaches the
    maximum. *)
Definition pickLanguage (scores : list (string * nat)) : option string :=
  let m := maxScore scores in
  if (m <? 2)%nat then None
  else fst <$> List.find (fun '(_, s) => (s =? m)%nat) scores.

Definition detectLanguage (code : jsstring) : option string :=
  pickLanguage (scoresOf code).

End CodeBlockDetector.

(** ** types/index.ts (src/src/types/index.ts, first part): the records *)

Module TranslationSettings.
Inductive Tone : Type := casual | formal | technical.
Record t : Type := mk { apiKey : jsstring; tone : Tone; cacheExpiration : Z }.
End TranslationSettings.

Module TranslationResult.
Record t : Type :=
  mk { originalText : jsstring; translatedText : jsstring; timestamp : Z }.
End TranslationResult.

Module ChatMessage.
Inductive Role : Type := user | assistant.
Record t : Type := mk { role : Role; content : jsstring; timestamp : Z }.
End ChatMessage.

Module StructuredContentElement.
Record t : Type :=
  mk { type : jsstring;
       content : jsstring;
       tag : option jsstring;
       attributes : option (list (jsstring * jsstring)) }.
End StructuredContentElement.

Module CodeBlockInfo.
Record t : Type :=
  mk { id : jsstring;
       content : jsstring;
       language : option jsstring;
       parentSelector : jsstring;
       index : Z }.
End CodeBlockInfo.

Module PageContext.
Record t : Type :=
  mk { url : jsstring;
       title : jsstring;
       content : jsstring;
       htmlContent : option jsstring;
       structuredContent : option (list StructuredContentElement.t);
       translatedContent : option jsstring;
       translatedHtmlContent : option jsstring;
       translatedStructuredContent : option (list StructuredContentElement.t);
       codeBlocks : list CodeBlockInfo.t;
       translations : gmap jsstring TranslationResult.t;
       chatHistory : list ChatMessage.t;
       lastUpdated : Z }.

Definition with_content (x : jsstring) (c : t) : t :=
  mk (url c) (title c) x (htmlContent c) (structuredContent c)
     (translatedContent c) (translatedHtmlContent c)
     (translatedStructuredContent c) (codeBlocks c) (translations c)
     (chatHistory c) (lastUpdated c).

Definition with_htmlContent (x : jsstring) (c : t) : t :=
  mk (url c) (title c) (content c) (Some x) (structuredContent c)
     (translatedContent c) (translatedHtmlContent c)
     (translatedStructuredContent c) (codeBlocks c) (translations c)
     (chatHistory c) (lastUpdated c).

Definition with_translatedContent (x : jsstring) (c : t) : t :=
  mk (url c) (title c) (content c) (htmlContent c) (structuredContent c)
     (Some x) (translatedHtmlContent c)
     (translatedStructuredContent c) (codeBlocks c) (translations c)
     (chatHistory c) (lastUpdated c).

Definition with_translatedHtmlContent (x : jsstring) (c : t) : t :=
  mk (url c) (title c) (content c) (htmlContent c) (structuredContent c)
     (translatedContent c) (Some x)
     (translatedStructuredContent c) (codeBlocks c) (translations c)
     (chatHistory c) (lastUpdated c).

Definition with_structuredContent (x : list StructuredContentElement.t) (c : t) : t :=
  mk (url c) (title c) (content c) (htmlContent c) (Some x)
     (translatedContent c) (translatedHtmlContent c)
     (translatedStructuredContent c) (codeBlocks c) (translations c)
     (chatHistory c) (lastUpdated c).

Definition with_translatedStructuredContent
    (x : list StructuredContentElement.t) (c : t) : t :=
  mk (url c) (title c) (content c) (htmlContent c) (structuredContent c)
     (translatedContent c) (translatedHtmlContent c) (Some x) (codeBlocks c)
     (translations c) (chatHistory c) (lastUpdated c).

Definition with_translations (x : gmap jsstring TranslationResult.t) (c : t) : t :=
  mk (url c) (title c) (content c) (htmlContent c) (structuredContent c)
     (translatedContent c) (translatedHtmlContent c)
     (translatedStructuredContent c) (codeBlocks c) x (chatHistory c)
     (lastUpdated c).

Definition with_chatHistory (x : list ChatMessage.t) (c : t) : t :=
  mk (url c) (title c) (content c) (htmlContent c) (structuredContent c)
     (translatedContent c) (translatedHtmlContent c)
     (translatedStructuredContent c) (codeBlocks c) (translations c) x
     (lastUpdated c).

Definition with_lastUpdated (x : Z) (c : t) : t :=
  mk (url c) (title c) (content c) (htmlContent c) (structuredContent c)
     (translatedContent c) (translatedHtmlContent c)
     (translatedStructuredContent c) (codeBlocks c) (translations c)
     (chatHistory c) x.
End PageContext.

(** ** utils/storage.ts (src/src/utils/helpers.ts, second part): settings,
       page contexts and the translation cache over [browser.storage] *)

Module Storage.

(** What the extension keeps under a key of [browser.storage.local]. *)
Inductive Stored : Type :=
| StoredPage (context : PageContext.t)          (* page_<url> *)
| StoredRecent (urls : list jsstring)           (* recentPages *)
| StoredCache (entry : TranslationResult.t).    (* cache_<hash> *)

(** The two storage areas.  Settings live in [browser.storage.sync]. *)
Record t : Type :=
  mk { local : gmap jsstring Stored;
       sync : option TranslationSettings.t }.

Definition with_local (l : gmap jsstring Stored) (st : t) : t := mk l (sync st).

Definition DEFAULT_SETTINGS : TranslationSettings.t :=
  TranslationSettings.mk [] TranslationSettings.casual 5.

Definition saveSettings (settings : TranslationSettings.t) (st : t) : t :=
  mk (local st) (Some settings).

Definition getSettings (st : t) : TranslationSettings.t :=
  match sync st with Some s => s | None => DEFAULT_SETTINGS end.

Definition pageKey (url : jsstring) : jsstring := str "page_" ++ url.
Definition recentPagesKey : jsstring := str "recentPages".

Definition getRecentPages (st : t) : list jsstring :=
  match local st !! recentPagesKey with
  | Some (StoredRecent urls) => urls
  | _ => []
  end.

Definition neqb (a b : jsstring) : bool := negb (bool_decide (a = b)).

(** [savePageContext(context)] *)
Definition savePageContext (context : PageContext.t) (st : t) : t :=
  let key := pageKey (PageContext.url context) in
  let st1 := with_local (<[key := StoredPage context]> (local st)) st in
  let recentPages := getRecentPages st1 in
  let updatedPages :=
    take 10 (PageContext.url context
               :: List.filter (fun url => neqb url (PageContext.url context))
                    recentPages) in
  with_local (<[recentPagesKey := StoredRecent updatedPages]> (local st1)) st1.

Definition getPageContext (url : jsstring) (st : t) : option PageContext.t :=
  match local st !! pageKey url with
  | Some (StoredPage context) => Some context
  | _ => None
  end.

(** *** The cache key *)

(** [ToInt32] on an integer. *)
Definition toInt32 (z : Z) : Z := ((z + 2147483648) mod 4294967296 - 2147483648)%Z.

(** One turn of the loop of [hashString]:
    [hash = ((hash << 5) - hash) + char; hash = hash & hash]. *)
Definition hashStep (hash : Z) (char : N) : Z :=
  toInt32 (toInt32 (hash * 32) - hash + Z.of_N char)%Z.

Definition digit36 (d : N) : N := if d <? 10 then 48 + d else 87 + d.

Fixpoint digits36 (fuel : nat) (n : N) (acc : jsstring) : jsstring :=
  match fuel with
  | O => acc
  | S fuel' =>
      let acc' := digit36 (n mod 36) :: acc in
      if n / 36 =? 0 then acc' else digits36 fuel' (n / 36) acc'
  end.

(** [n.toString(36)] for an integer [n]. *)
Definition toString36 (z : Z) : jsstring :=
  let n := Z.to_N (Z.abs z) in
  (if (z <? 0)%Z then str "-" else []) ++ digits36 (S (N.size_nat n)) n [].

Definition hashString (s : jsstring) : jsstring :=
  toString36 (fold_left hashStep s 0%Z).

Definition cacheKey (originalText : jsstring) : jsstring :=
  str "cache_" ++ hashString originalText.

(** *** The translation cache *)

(** [value.timestamp], when the stored value has that field. *)
Definition timestampOf (value : Stored) : option Z :=
  match value with
  | StoredCache entry => Some (TranslationResult.timestamp entry)
  | _ => None
  end.

(** Truthiness of [value.timestamp]. *)
Definition hasTimestamp (value : Stored) : bool :=
  match timestampOf value with
  | Some ts => negb (ts =? 0)%Z
  | None => false
  end.

Definition expirationTime : Z := 7 * 24 * 60 * 60 * 1000.

(** The test of the loop body of [manageCache]. *)
Definition toRemove (now : Z) (key : jsstring) (value : Stored) : bool :=
  startsWith (str "cache_") key && hasTimestamp value
  && match timestampOf value with
     | Some ts => (expirationTime <? now - ts)%Z
     | None => false
     end.

(** [manageCache()], run when [Date.now()] reads [now]. *)
Definition manageCache (now : Z) (st : t) : t :=
  let allItems := map_to_list (local st) in
  let keysToRemove :=
    map fst (List.filter (fun '(key, value) => toRemove now key value) allItems) in
  match keysToRemove with
  | [] => st
  | _ :: _ => with_local (foldr delete (local st) keysToRemove) st
  end.

(** [saveTranslationCache(originalText, translatedText)]: [now] is the
    reading of the clock when the entry is built, [later] the reading
    inside [manageCache]. *)
Definition saveTranslationCache (originalText translatedText : jsstring)
    (now later : Z) (st : t) : t :=
  let cacheData := TranslationResult.mk originalText translatedText now in
  manageCache later
    (with_local (<[cacheKey originalText := StoredCache cacheData]> (local st)) st).

(** [getTranslationCache(originalText)] *)
Definition getTranslationCache (originalText : jsstring) (st : t)
    : option TranslationResult.t :=
  match local st !! cacheKey originalText with
  | Some (StoredCache entry) => Some entry
  | _ => None
  end.

(** *** Settings and the clearing of the storage *)

(** [getSettings] hands out the object [DEFAULT_SETTINGS] itself when no
    settings are stored, and [saveApiKey] writes to the object it is
    handed.  So where [saveApiKey] is used, the content of
    [DEFAULT_SETTINGS] is part of the state, with the storage areas. *)
Record Env : Type := mkEnv { defaults : TranslationSettings.t; areas : t }.

(** [getSettings()] in that state; with the defaults as they are
    declared, it is [getSettings] above. *)
Definition getSettingsIn (env : Env) : TranslationSettings.t :=
  match sync (areas env) with
  | Some settings => settings
  | None => defaults env
  end.

(** [saveApiKey(apiKey)] *)
Definition saveApiKey (apiKey : jsstring) (env : Env) : Env :=
  let settings :=
    TranslationSettings.mk apiKey
      (TranslationSettings.tone (getSettingsIn env))
      (TranslationSettings.cacheExpiration (getSettingsIn env)) in
  mkEnv (match sync (areas env) with
         | Some _ => defaults env
         | None => settings
         end)
        (saveSettings settings (areas env)).

(** The argument of [clearStorage]: ['local'], ['sync'] or ['all']. *)
Inductive StorageType : Type := onlyLocal | onlySync | all.

(** [clearStorage(storageType)] *)
Definition clearStorage (storageType : StorageType) (st : t) : t :=
  let st1 :=
    match storageType with
    | onlyLocal | all => with_local ∅ st
    | onlySync => st
    end in
  match storageType with
  | onlySync | all => mk (local st1) None
  | onlyLocal => st1
  end.

End Storage.

(** ** The content script, class ContentScript (src/unnamed/part_003):
       extraction and translation of the structured content *)

Module ContentScript.

Import StructuredContentElement.

(** *** Names of elements

    Names are strings of code units below 256. *)

Fixpoint mapUnits (f : ascii -> ascii) (s : string) : string :=
  match s with
  | EmptyString => EmptyString
  | String c s' => String (f c) (mapUnits f s')
  end.

(** ASCII upper case: [a] to [z] become [A] to [Z], nothing else
    changes. *)
Definition toAsciiUpperCase (s : string) : string :=
  mapUnits (fun c =>
              let n := N_of_ascii c in
              if ((97 <=? n) && (n <=? 122))%N then ascii_of_N (n - 32) else c) s.

(** [s.toLowerCase()]: below 256 the code units with a lower-case
    counterpart are [A] to [Z] and U+00C0 to U+00DE without U+00D7. *)
Definition toLowerCase (s : string) : string :=
  mapUnits (fun c =>
              let n := N_of_ascii c in
              if (((65 <=? n) && (n <=? 90)) || ((192 <=? n) && (n <=? 214))
                  || ((216 <=? n) && (n <=? 222)))%N
              then ascii_of_N (n + 32) else c) s.

(** The namespace of an element: the HTML namespace, with whether the
    document of the element is an HTML document (and not an XML
    document), or another namespace, such as those of SVG and MathML,
    or none. *)
Inductive Namespace : Type :=
| Html (htmlDocument : bool)
| Foreign.

(** The name of an element: [element.namespaceURI] as far as the code
    depends on it, [element.prefix] and [element.localName]. *)
Record Name : Type :=
  mkName { namespace : Namespace; prefix : option string; localName : string }.

(** The name of an HTML element of an HTML document, as the parser
    creates it. *)
Definition htmlName (localName : string) : Name := mkName (Html true) None localName.

Definition qualifiedName (name : Name) : string :=
  match prefix name with
  | Some p => (p ++ ":" ++ localName name)%string
  | None => localName name
  end.

(** [element.tagName]: the qualified name, in ASCII upper case for an
    element in the HTML namespace whose document is an HTML document. *)
Definition tagName (name : Name) : string :=
  match namespace name with
  | Html true => toAsciiUpperCase (qualifiedName name)
  | _ => qualifiedName name
  end.

Definition inHtmlNamespace (name : Name) : bool :=
  match namespace name with Html _ => true | Foreign => false end.

(** The content tree: elements, with the name, the attributes in order
    and the child nodes, and text nodes. *)
#[local] Unset Elimination Schemes.
Inductive Node : Type :=
| Element (name : Name) (attrs : list (jsstring * jsstring))
          (children : list Node)
| TextNode (data : jsstring).
#[local] Set Elimination Schemes.

(** [element.tagName] and [element.localName] *)
Definition tagNameOf (n : Node) : string :=
  match n with Element name _ _ => tagName name | TextNode _ => EmptyString end.

Definition localNameOf (n : Node) : string :=
  match n with Element name _ _ => localName name | TextNode _ => EmptyString end.

Definition attributesOf (n : Node) : list (jsstring * jsstring) :=
  match n with Element _ a _ => a | TextNode _ => [] end.

(** [node.textContent] *)
Fixpoint textContent (n : Node) : jsstring :=
  match n with
  | Element _ _ children => concat (map textContent children)
  | TextNode data => data
  end.

(** The element descendants of a node, in tree order (depth first,
    pre-order); the node itself is not among them. *)
Fixpoint descendants (n : Node) : list Node :=
  match n with
  | Element _ _ children =>
      concat (map (fun child =>
                     match child with
                     | Element _ _ _ => child :: descendants child
                     | TextNode _ => []
                     end) children)
  | TextNode _ => []
  end.

(** A type selector written in lower case matches an element by its
    local name. *)
Definition hasTag (tags : list string) (n : Node) : bool :=
  existsb (String.eqb (localNameOf n)) tags.

(** [element.querySelectorAll('t1, t2, ...')] for a list of type
    selectors: the matching descendants in tree order. *)
Definition querySelectorAll (tags : list string) (element : Node) : list Node :=
  List.filter (hasTag tags) (descendants element).

(** [element.getAttribute(name) || ''] *)
Fixpoint getAttributeOr (name : jsstring) (attrs : list (jsstring * jsstring))
    : jsstring :=
  match attrs with
  | [] => []
  | (n, v) :: rest => if bool_decide (n = name) then v else getAttributeOr name rest
  end.

(** [getElementAttributes(element)]: script-related attributes are left
    out. *)
Definition getElementAttributes (element : Node) : list (jsstring * jsstring) :=
  List.filter
    (fun '(name, value) =>
       negb (startsWith (str "on") name)
       && negb (includes (str "javascript:") value))
    (attributesOf element).

Definition headingElement (heading : Node) : StructuredContentElement.t :=
  mk (str "heading") (textContent heading)
     (Some (str (toLowerCase (tagNameOf heading))))
     (Some (getElementAttributes heading)).

Definition paragraphElement (paragraph : Node) : StructuredContentElement.t :=
  mk (str "paragraph") (textContent paragraph) (Some (str "p"))
     (Some (getElementAttributes paragraph)).

Definition listElement (list : Node) : StructuredContentElement.t :=
  let items := map textContent (querySelectorAll ["li"%string] list) in
  mk (str "list") (join [LF] items) (Some (str (toLowerCase (tagNameOf list))))
     (Some (getElementAttributes list)).

Definition codeElement (codeBlock : Node) : StructuredContentElement.t :=
  mk (str "code") (textContent codeBlock)
     (Some (str (toLowerCase (tagNameOf codeBlock))))
     (Some (getElementAttributes codeBlock)).

Definition imageElement (image : Node) : StructuredContentElement.t :=
  mk (str "image") (getAttributeOr (str "alt") (attributesOf image))
     (Some (str "img")) (Some (getElementAttributes image)).

Definition headingTags : list string := ["h1"; "h2"; "h3"; "h4"; "h5"; "h6"]%string.
Definition paragraphTags : list string := ["p"]%string.
Definition listTags : list string := ["ul"; "ol"]%string.
Definition codeTags : list string := ["pre"; "code"]%string.
Definition imageTags : list string := ["img"]%string.

(** The array built by [extractStructuredContent(element)]. *)
Definition extractStructuredContent (element : Node)
    : list StructuredContentElement.t :=
  map headingElement (querySelectorAll headingTags element)
  ++ map paragraphElement (querySelectorAll paragraphTags element)
  ++ map listElement (querySelectorAll listTags element)
  ++ map codeElement (querySelectorAll codeTags element)
  ++ map imageElement (querySelectorAll imageTags element).

(** *** Translation *)

(** What [browser.runtime.sendMessage] resolves to for a TRANSLATE_TEXT
    request, or that it rejects. *)
Inductive Reply : Type :=
| Rejected
| Response (success : bool) (translatedText : option jsstring).

(** The content script: its page context and the texts it has sent for
    translation, oldest first. *)
Record State : Type :=
  mkState { pageContext : option PageContext.t; sent : list jsstring }.

Definition isCode (item : StructuredContentElement.t) : bool :=
  bool_decide (type item = str "code").
Definition isImage (item : StructuredContentElement.t) : bool :=
  bool_decide (type item = str "image").

Definition with_content (c : jsstring) (item : StructuredContentElement.t)
    : StructuredContentElement.t :=
  mk (type item) c (tag item) (attributes item).

Section Translation.

(** The background script, seen from the content script: its answer to
    a request given the requests sent before it; and the clock, read
    after a given number of requests. *)
Variable background : list jsstring -> jsstring -> Reply.
Variable clock : nat -> Z.

(** [translateText(text)]; [None] is the result [null].  The record
    [translations] is read as the finite map of its own properties. *)
Definition translateText (text : jsstring) (st : State)
    : option jsstring * State :=
  if negb (truthy text) || isBlank text then (None, st)
  else
    match pageContext st ≫= (fun pc => PageContext.translations pc !! text) with
    | Some cached => (Some (TranslationResult.translatedText cached), st)
    | None =>
        let st1 := mkState (pageContext st) (sent st ++ [text]) in
        match background (sent st) text with
        | Response true (Some translated) =>
            if truthy translated then
              let entry :=
                TranslationResult.mk text translated (clock (length (sent st1))) in
              let pc' :=
                (fun pc =>
                   PageContext.with_translations
                     (<[text := entry]> (PageContext.translations pc)) pc)
                  <$> pageContext st1 in
              (Some translated, mkState pc' (sent st1))
            else (None, st1)
        | _ => (None, st1)
        end
    end.

(** One turn of the loop of [translateStructuredContent]: the item
    pushed to [translatedItems]. *)
Definition translateItem (item : StructuredContentElement.t) (st : State)
    : StructuredContentElement.t * State :=
  if isCode item then (item, st)
  else if isImage item && truthy (content item) then
    let '(translatedAlt, st') := translateText (content item) st in
    (with_content
       (match translatedAlt with
        | Some alt => if truthy alt then alt else content item
        | None => content item
        end) item, st')
  else if truthy (content item) then
    let '(translatedText, st') := translateText (content item) st in
    match translatedText with
    | Some translated =>
        if truthy translated then (with_content translated item, st')
        else (item, st')
    | None => (item, st')
    end
  else (item, st).

Fixpoint translateItems (items : list StructuredContentElement.t) (st : State)
    : list StructuredContentElement.t * State :=
  match items with
  | [] => ([], st)
  | item :: rest =>
      let '(translated, st1) := translateItem item st in
      let '(translatedRest, st2) := translateItems rest st1 in
      (translated :: translatedRest, st2)
  end.

(** [translateStructuredContent()] *)
Definition translateStructuredContent (st : State) : State :=
  match pageContext st ≫= PageContext.structuredContent with
  | None => st
  | Some items =>
      let '(translatedItems, st') := translateItems items st in
      mkState (PageContext.with_translatedStructuredContent translatedItems
                 <$> pageContext st')
              (sent st')
  end.

End Translation.

(** [savePageContext()]: the page context with its timestamp refreshed,
    and the context sent to the background in SAVE_PAGE_CONTEXT. *)
Definition savePageContext (now : Z) (st : State)
    : State * option PageContext.t :=
  match pageContext st with
  | None => (st, None)
  | Some pc =>
      let pc' := PageContext.with_lastUpdated now pc in
      (mkState (Some pc') (sent st), Some pc')
  end.

(** *** Code blocks of the page, and the translation of its text nodes

    The tests on [tagName] compare it with names in upper case, so they
    can hold for HTML elements of HTML documents only, and for elements
    that have such a name in upper case themselves. *)

(** [element.classList.contains(token)]: [token] is among the tokens of
    the [class] attribute. *)
Definition classListContains (token : string) (element : Node) : bool :=
  existsb (fun t => bool_decide (t = str token))
    (tokens (getAttributeOr (str "class") (attributesOf element))).

(** The two tests that the loop of [isInsideCodeBlock] applies to an
    element: it is marked as a code block, or it is one by its tag or
    its classes. *)
Definition marksCodeBlock (element : Node) : bool :=
  bool_decide
    (getAttributeOr (str "data-code-block") (attributesOf element) = str "true")
  || (String.eqb (tagNameOf element) "CODE"
      || String.eqb (tagNameOf element) "PRE"
      || classListContains "code" element
      || classListContains "highlight" element
      || classListContains "hljs" element
      || classListContains "CodeMirror" element).

(** [isInsideCodeBlock(node)]; [path] is the walk of the loop: [node],
    its parent, and so on, up to but not including [document.body]. *)
Definition isInsideCodeBlock (path : list Node) : bool :=
  existsb (fun current =>
             match current with
             | Element _ _ _ => marksCodeBlock current
             | TextNode _ => false
             end) path.

Definition excludedTags : list string :=
  ["SCRIPT"; "STYLE"; "NOSCRIPT"; "SVG"; "CANVAS"; "VIDEO"; "AUDIO"; "IFRAME"]%string.

(** [shouldTranslateElement(element)]; [ancestors] are the ancestors of
    [element] below [document.body], the parent first. *)
Definition shouldTranslateElement (ancestors : list Node) (element : Node) : bool :=
  if existsb (String.eqb (tagNameOf element)) excludedTags then false
  else if bool_decide
            (getAttributeOr (str "data-code-block") (attributesOf element) = str "true")
  then false
  else if isInsideCodeBlock (element :: ancestors) then false
  else true.

Section ForEachNode.

Context {S : Type}.
Variable body : Node -> S -> Node * S.

(** A loop over nodes, in order, whose body may replace the node and
    change the state. *)
Fixpoint forEachNode (nodes : list Node) (st : S) : list Node * S :=
  match nodes with
  | [] => ([], st)
  | node :: rest =>
      let '(node', st1) := body node st in
      let '(rest', st2) := forEachNode rest st1 in
      (node' :: rest', st2)
  end.

End ForEachNode.

Section Paths.

Variable below : Node -> list (list nat).

(** The paths of the elements among [nodes] and below them, in tree
    order; [i] is the position of the first of [nodes]. *)
Fixpoint pathsFrom (i : nat) (nodes : list Node) : list (list nat) :=
  match nodes with
  | [] => []
  | child :: rest =>
      match child with
      | Element _ _ _ => ([i] :: map (cons i) (below child)) ++ pathsFrom (S i) rest
      | TextNode _ => pathsFrom (S i) rest
      end
  end.

End Paths.

(** [root.querySelectorAll('*')]: the elements below [root] in tree
    order, each given by its path from [root]. *)
Fixpoint elementPaths (root : Node) : list (list nat) :=
  match root with
  | Element _ _ children => pathsFrom elementPaths 0 children
  | TextNode _ => []
  end.

Section Page.

Variable background : list jsstring -> jsstring -> Reply.
Variable clock : nat -> Z.

(** One turn of the loop of [translateElement], for a text node with
    the value [text]; [inCode] is [isInsideCodeBlock(node)].  The state
    says whether the element has been added to [translatedElements].
    The result is the value of the node after the turn. *)
Definition translateNodeValue (inCode : bool) (text : jsstring)
    (st : bool * State) : jsstring * (bool * State) :=
  let '(added, s) := st in
  if negb (truthy text) || isBlank text then (text, st)
  else if inCode then (text, st)
  else
    let s1 := mkState (pageContext s) (sent s ++ [text]) in
    match background (sent s) text with
    | Response true (Some translated) =>
        if truthy translated then
          let entry :=
            TranslationResult.mk text translated (clock (length (sent s1))) in
          let pc' :=
            (fun pc =>
               PageContext.with_translations
                 (<[text := entry]> (PageContext.translations pc)) pc)
              <$> pageContext s1 in
          (translated, (true, mkState pc' (sent s1)))
        else (text, (added, s1))
    | _ => (text, (added, s1))
    end.

(** The loop of [translateElement] over [getTextNodes(element)], as a
    walk of the tree below [node] in document order. *)
Fixpoint translateTextsBelow (path : list Node) (node : Node) (st : bool * State)
    : Node * (bool * State) :=
  match node with
  | TextNode text =>
      let '(text', st') :=
        translateNodeValue (isInsideCodeBlock (node :: path)) text st in
      (TextNode text', st')
  | Element name attrs children =>
      let '(children', st') :=
        forEachNode (translateTextsBelow (node :: path)) children st in
      (Element name attrs children', st')
  end.

(** [translateElement(element)]: the element afterwards, whether it has
    been added to [translatedElements], and the state. *)
Definition translateElement (ancestors : list Node) (element : Node) (st : State)
    : Node * bool * State :=
  if negb (shouldTranslateElement ancestors element) then (element, false, st)
  else
    let '(element', (added, st')) :=
      translateTextsBelow ancestors element (false, st) in
    (element', added, st').

(** [translateElement(element)] for the element at [path] below [node]:
    the path gives the positions, among the child nodes, from [node]
    down to the element.  [chain] is [node] with its ancestors below
    [document.body], and empty when [node] is [document.body]. *)
Fixpoint translateElementAt (chain : list Node) (node : Node) (path : list nat)
    (st : State) : Node * State :=
  match node, path with
  | Element name attrs children, i :: rest =>
      match children !! i with
      | Some child =>
          let '(child', st') :=
            match rest with
            | [] =>
                let '(element', _, st') := translateElement chain child st in
                (element', st')
            | _ :: _ => translateElementAt (child :: chain) child rest st
            end in
          (Element name attrs (<[i := child']> children), st')
      | None => (node, st)
      end
  | _, _ => (node, st)
  end.

(** [toggleTranslation()], with [body] for [document.body]: the new
    value of [isTranslating], and the page and the state after the loop
    over the elements; [None] when the page is reloaded instead. *)
Definition toggleTranslation (isTranslating : bool) (body : Node) (st : State)
    : bool * option (Node * State) :=
  if negb isTranslating then
    (true,
     Some (fold_left (fun page path => translateElementAt [] page.1 path page.2)
             (elementPaths body) (body, st)))
  else (false, None).

Definition textNodesExcludedTags : list string :=
  ["SCRIPT"; "STYLE"; "NOSCRIPT"; "CODE"; "PRE"]%string.

(** One turn of the loop of [translateTextNodes], for a text node with
    the content [data]: the content of the node after the turn. *)
Definition translateTextNode (data : jsstring) (st : State) : jsstring * State :=
  if truthy data then
    let text := trim data in
    if (0 <? length text)%nat then
      match translateText background clock text st with
      | (Some translatedText, st') =>
          if truthy translatedText then (translatedText, st') else (data, st')
      | (None, st') => (data, st')
      end
    else (data, st)
  else (data, st).

(** [translateTextNodes(element)] *)
Fixpoint translateTextNodes (element : Node) (st : State) : Node * State :=
  match element with
  | Element name attrs childNodes =>
      let '(childNodes', st') :=
        forEachNode
          (fun node st =>
             match node with
             | TextNode data =>
                 let '(data', st') := translateTextNode data st in
                 (TextNode data', st')
             | Element _ _ _ =>
                 if existsb (String.eqb (tagNameOf node)) textNodesExcludedTags
                 then (node, st)
                 else translateTextNodes node st
             end) childNodes st in
      (Element name attrs childNodes', st')
  | TextNode _ => (element, st)
  end.

End Page.

(** *** The text of the page *)

(** The selectors of [excludeSelectors] and [contentSelectors]: a type
    selector [name], a class selector [.name], an ID selector [#id],
    and a type selector with an attribute selector,
    [name[attribute="value"]].  The type selectors are written in lower
    case and match the local name; class names, IDs and attribute values
    are compared as they are written. *)
Inductive Selector : Type :=
| TypeSelector (name : string)
| ClassSelector (name : string)
| IdSelector (id : string)
| TypeAttributeSelector (name attribute value : string).

(** [element.matches(selector)] *)
Definition matches (selector : Selector) (element : Node) : bool :=
  match element with
  | Element elementName attrs _ =>
      match selector with
      | TypeSelector name => String.eqb (localName elementName) name
      | ClassSelector name => classListContains name element
      | IdSelector id => bool_decide (getAttributeOr (str "id") attrs = str id)
      | TypeAttributeSelector name attribute value =>
          String.eqb (localName elementName) name
          && bool_decide (getAttributeOr (str attribute) attrs = str value)
      end
  | TextNode _ => false
  end.

Definition excludeSelectors : list Selector :=
  [TypeSelector "header"; TypeSelector "footer"; TypeSelector "nav";
   TypeSelector "aside"; ClassSelector "sidebar"; ClassSelector "navigation";
   ClassSelector "menu"; ClassSelector "comments"; ClassSelector "ads";
   ClassSelector "advertisement"; TypeSelector "script"; TypeSelector "style";
   TypeSelector "noscript"; TypeSelector "iframe"].

(** [root.querySelectorAll(selector).forEach(el =>
    el.parentNode?.removeChild(el))]: every descendant that matches is
    taken out with all that it contains. *)
Fixpoint removeAll (selector : Selector) (root : Node) : Node :=
  match root with
  | Element name attrs children =>
      Element name attrs
        (omap (fun child =>
                 if matches selector child then None
                 else Some (removeAll selector child)) children)
  | TextNode _ => root
  end.

(** The test of the loop over the attributes. *)
Definition scriptAttribute (attr : jsstring * jsstring) : bool :=
  startsWith (str "on") attr.1 || includes (str "javascript:") attr.2.

Definition withoutScriptAttributes (element : Node) : Node :=
  match element with
  | Element name attrs children =>
      Element name
        (List.filter (fun attr => negb (scriptAttribute attr)) attrs) children
  | TextNode _ => element
  end.

(** The loop over [root.querySelectorAll('*')]: the attributes of every
    descendant are gone through; those of [root] itself are not. *)
Fixpoint removeScriptAttributes (root : Node) : Node :=
  match root with
  | Element name attrs children =>
      Element name attrs
        (map (fun child => withoutScriptAttributes (removeScriptAttributes child))
           children)
  | TextNode _ => root
  end.

(** The [clone] that [extractTextContent(element)] reads the text from:
    the copy of [element] after the three removals. *)
Definition cleanedClone (element : Node) : Node :=
  let clone :=
    foldl (fun clone selector => removeAll selector clone) element excludeSelectors in
  let clone := removeAll (TypeSelector "script") clone in
  removeScriptAttributes clone.

Section TextExtraction.

(** [new XMLSerializer().serializeToString(node)], or that it throws. *)
Variable serializeToString : Node -> option jsstring.

(** [extractTextContent(element)] *)
Definition extractTextContent (element : Node) (st : State) : jsstring * State :=
  let clone := cleanedClone element in
  let text := textContent clone in
  let st' :=
    match serializeToString clone with
    | Some htmlContent =>
        match pageContext st with
        | Some pc =>
            mkState
              (Some (PageContext.with_structuredContent
                       (extractStructuredContent clone)
                       (PageContext.with_htmlContent htmlContent pc)))
              (sent st)
        | None => st
        end
    | None => st
    end in
  (trim text, st').

End TextExtraction.

(** *** The document and the translation of the page *)

(** The document: [document.title], [window.location.href] and
    [document.documentElement]. *)
Record Document : Type :=
  mkDocument { title : jsstring; href : jsstring; documentElement : Node }.

(** [document.querySelector(selector)]: the first element of the
    document, in tree order, that matches. *)
Definition querySelector (selector : Selector) (document : Document) : option Node :=
  List.find (matches selector)
    (documentElement document :: descendants (documentElement document)).

(** An element in the HTML namespace with one of the local names. *)
Definition isHtmlElement (localNames : list string) (n : Node) : bool :=
  match n with
  | Element name _ _ =>
      inHtmlNamespace name && existsb (String.eqb (localName name)) localNames
  | TextNode _ => false
  end.

(** [document.body]: the first [body] or [frameset] child of the [html]
    element. *)
Definition body (document : Document) : option Node :=
  match documentElement document with
  | Element _ _ children =>
      if isHtmlElement ["html"%string] (documentElement document) then
        List.find (isHtmlElement ["body"; "frameset"]%string) children
      else None
  | TextNode _ => None
  end.

Definition contentSelectors : list Selector :=
  [TypeSelector "article"; TypeSelector "main"; ClassSelector "content";
   ClassSelector "article"; ClassSelector "post"; ClassSelector "entry";
   IdSelector "content"; IdSelector "main"; ClassSelector "docs-content";
   ClassSelector "markdown-content"; ClassSelector "api-docs";
   ClassSelector "documentation"; ClassSelector "doc-content";
   ClassSelector "page-content"; ClassSelector "main-content";
   TypeAttributeSelector "div" "role" "main"; TypeSelector "section";
   ClassSelector "container"].

(** The page context that the handlers create when there is none. *)
Definition newPageContext (document : Document) (now : Z) : PageContext.t :=
  PageContext.mk (href document) (title document) [] None None None None None []
    ∅ [] now.

(** [initializePageContext()]: [response] is what the background answers
    to GET_PAGE_CONTEXT, its [success] and its [context], or [None] when
    the message is rejected; [now] is the reading of the clock. *)
Definition initializePageContext (document : Document)
    (response : option (bool * option PageContext.t)) (now : Z) (st : State)
    : State :=
  match response with
  | Some (true, Some context) => mkState (Some context) (sent st)
  | Some _ => mkState (Some (newPageContext document now)) (sent st)
  | None => st
  end.

Section Handlers.

Variable background : list jsstring -> jsstring -> Reply.
Variable clock : nat -> Z.
Variable serializeToString : Node -> option jsstring.
(** [new DOMParser().parseFromString(html, 'text/html').body] *)
Variable parseFromString : jsstring -> Node.

(** The test of the loop of [extractPageContent] for a selector. *)
Definition hasContent (document : Document) (selector : Selector) : bool :=
  match querySelector selector document with
  | Some element =>
      truthy (textContent element)
      && (0 <? length (trim (textContent element)))%nat
  | None => false
  end.

(** [extractPageContent()]; [None] when it throws, which it does when no
    selector finds content and the document has no body. *)
Definition extractPageContent (document : Document) (st : State)
    : option (jsstring * State) :=
  let contentElement :=
    match List.find (hasContent document) contentSelectors with
    | Some selector => querySelector selector document
    | None => body document
    end in
  match contentElement with
  | Some element => Some (extractTextContent serializeToString element st)
  | None => None
  end.

(** [translateHtmlContent()] *)
Definition translateHtmlContent (st : State) : State :=
  match pageContext st ≫= PageContext.htmlContent with
  | Some html =>
      if truthy html then
        let '(translated, st1) :=
          translateTextNodes background clock (parseFromString html) st in
        match serializeToString translated with
        | Some translatedHtml =>
            mkState
              (PageContext.with_translatedHtmlContent translatedHtml
                 <$> pageContext st1)
              (sent st1)
        | None => st1
        end
      else st
  | None => st
  end.

(** The three ways of [handleTranslatePage] to translate, in the order
    in which it tries them. *)
Definition translatePage (st : State) : State :=
  match pageContext st with
  | Some pc =>
      match PageContext.structuredContent pc with
      | Some (_ :: _) => translateStructuredContent background clock st
      | _ =>
          if match PageContext.htmlContent pc with
             | Some html => truthy html
             | None => false
             end
          then translateHtmlContent st
          else if truthy (PageContext.content pc) then
            let '(translatedText, st1) :=
              translateText background clock (PageContext.content pc) st in
            match translatedText with
            | Some translated =>
                if truthy translated then
                  mkState
                    (PageContext.with_translatedContent translated
                       <$> pageContext st1)
                    (sent st1)
                else st1
            | None => st1
            end
          else st
      end
  | None => st
  end.

(** [handleTranslatePage()]: the [success] of the response, [None] when
    the handler throws; the state; and the page context sent to the
    background to be saved.  [delivered] says whether that message is
    delivered. *)
Definition handleTranslatePage (document : Document) (delivered : bool) (st : State)
    : option bool * State * option PageContext.t :=
  let lacksContent :=
    match pageContext st with
    | Some pc =>
        negb (truthy (PageContext.content pc)) || isBlank (PageContext.content pc)
    | None => true
    end in
  let prepared :=
    if lacksContent then
      let pc :=
        match pageContext st with
        | Some pc => pc
        | None => newPageContext document (clock (length (sent st)))
        end in
      let st0 := mkState (Some pc) (sent st) in
      match extractPageContent document st0 with
      | Some (content, st1) =>
          inl (mkState (PageContext.with_content content <$> pageContext st1)
                 (sent st1))
      | None => inr st0
      end
    else inl st in
  match prepared with
  | inr st0 => (None, st0, None)
  | inl st1 =>
      let st2 := translatePage st1 in
      let '(st3, saved) := savePageContext (clock (length (sent st2))) st2 in
      (Some delivered, st3, saved)
  end.

End Handlers.

End ContentScript.

(** ** The side panel, class SidePanel (src/unnamed/part_006): the
       display of HTML content *)

Module SidePanel.

Import ContentScript.

Definition dangerousTags : list string :=
  ["script"; "iframe"; "object"; "embed"; "form"; "input"; "button"; "meta";
   "link"]%string.

(** The test on an attribute of a child. *)
Definition dangerousAttribute (attr : jsstring * jsstring) : bool :=
  startsWith (str "on") attr.1
  || includes (str "javascript:") attr.2
  || (bool_decide (attr.1 = str "href") && includes (str "javascript:") attr.2).

Definition withoutDangerousAttributes (child : Node) : Node :=
  match child with
  | Element name attrs children =>
      Element name
        (List.filter (fun attr => negb (dangerousAttribute attr)) attrs) children
  | TextNode _ => child
  end.

(** [processNode(node)]: the element children of [node] with a dangerous
    tag are removed; the others lose their dangerous attributes and are
    processed in turn.  Text nodes stay. *)
Fixpoint processNode (node : Node) : Node :=
  match node with
  | Element name attrs children =>
      Element name attrs
        (omap (fun child =>
                 match child with
                 | Element _ _ _ =>
                     if existsb (String.eqb (toLowerCase (tagNameOf child)))
                          dangerousTags
                     then None
                     else Some (withoutDangerousAttributes (processNode child))
                 | TextNode _ => Some child
                 end) children)
  | TextNode _ => node
  end.

(** [sanitizeHtml(element)] *)
Definition sanitizeHtml (element : Node) : Node := processNode element.

End SidePanel.

(** ** How an asynchronous call ends *)

Inductive Outcome (A : Type) : Type :=
| Returned (value : A)     (* the promise resolves *)
| Thrown                   (* the promise rejects *)
| Hangs.                   (* the call never settles *)
Arguments Returned {A} value.
Arguments Thrown {A}.
Arguments Hangs {A}.

(** ** utils/apiClient.ts (src/src/types/index.ts, second part) *)

Module ApiClient.

(** What the request to the completion endpoint comes to: a network
    failure, an HTTP error status, or a body, of which the first truthy
    field among [output], [output_text] and
    [choices[0].message.content] is kept. *)
Inductive FetchResult : Type :=
| NetworkError
| HttpError
| Ok (output : option jsstring).

(** The client: [this.settings], and the inputs of the requests it has
    made, oldest first. *)
Record t : Type :=
  mk { settings : option TranslationSettings.t; requests : list jsstring }.

(** [initialize()] *)
Definition initialize (storage : Storage.t) (c : t) : bool * t :=
  let s := Storage.getSettings storage in
  (truthy (TranslationSettings.apiKey s), mk (Some s) (requests c)).

Section Calls.

(** The completion backend: its answer to an input, given the inputs
    of the requests made before. *)
Variable backend : list jsstring -> jsstring -> FetchResult.

(** The part of both methods from the settings check to the result of
    the request; [fallback] is the value used when the body has no
    text. *)
Definition request (input fallback : jsstring) (storage : Storage.t) (c : t)
    : Outcome jsstring * t :=
  let '(initialized, c1) :=
    match settings c with
    | Some _ => (true, c)
    | None => initialize storage c
    end in
  if negb initialized then (Thrown, c1)
  else
    match settings c1 with
    | Some s =>
        if negb (truthy (TranslationSettings.apiKey s)) then (Thrown, c1)
        else
          let c2 := mk (settings c1) (requests c1 ++ [input]) in
          match backend (requests c1) input with
          | NetworkError => (Thrown, c2)
          | HttpError => (Thrown, c2)
          | Ok (Some output) =>
              (Returned (if truthy output then output else fallback), c2)
          | Ok None => (Returned fallback, c2)
          end
    | None => (Thrown, c1)
    end.

(** [translateText(text)] *)
Definition translateText (text : jsstring) (storage : Storage.t) (c : t)
    : Outcome jsstring * t :=
  if negb (truthy text) || isBlank text then (Returned text, c)
  else request text text storage c.

(** The fixed messages of [generateChatResponse] and the two headings of
    its input, as UTF-16 code units. *)
Definition emptyQuestion : jsstring :=
  [36074; 21839; 12364; 31354; 12391; 12377; 12290; 36074; 21839;
   12434; 20837; 21147; 12375; 12390; 12367; 12384; 12373; 12356; 12290].
Definition emptyContext : jsstring :=
  [12506; 12540; 12472; 12467; 12531; 12486; 12531; 12484; 12364;
   21462; 24471; 12391; 12365; 12414; 12379; 12435; 12391; 12375;
   12383; 12290; 21029; 12398; 12506; 12540; 12472; 12391; 35430;
   12375; 12390; 12367; 12384; 12373; 12356; 12290].
Definition noAnswer : jsstring :=
  [30003; 12375; 35379; 12354; 12426; 12414; 12379; 12435; 12364;
   12289; 22238; 31572; 12434; 29983; 25104; 12391; 12365; 12414;
   12379; 12435; 12391; 12375; 12383; 12290].
Definition contextHeading : jsstring :=
  [12454; 12455; 12502; 12506; 12540; 12472; 12398; 20869; 23481; 58].
Definition questionHeading : jsstring :=
  [12518; 12540; 12470; 12540; 12398; 36074; 21839; 58].

(** The input of a chat request: the page content and the question
    under their headings. *)
Definition chatInput (question context : jsstring) : jsstring :=
  contextHeading ++ [LF] ++ context ++ [LF; LF] ++ questionHeading ++ [LF]
    ++ question.

(** [generateChatResponse(question, context)] *)
Definition generateChatResponse (question context : jsstring)
    (storage : Storage.t) (c : t) : Outcome jsstring * t :=
  if negb (truthy question) || isBlank question then (Returned emptyQuestion, c)
  else if negb (truthy context) || isBlank context then (Returned emptyContext, c)
  else request (chatInput question context) noAnswer storage c.

End Calls.

End ApiClient.

(** ** background/background.ts (src/src/background/background.ts, first
       part) *)

Module Background.

Record t : Type := mk { storage : Storage.t; apiClient : ApiClient.t }.

Section Handlers.

Variable backend : list jsstring -> jsstring -> ApiClient.FetchResult.

(** [handleTranslateText(text)]: [Some] is a successful response. *)
Definition handleTranslateText (text : jsstring) (b : t)
    : option jsstring * t :=
  match ApiClient.translateText backend text (storage b) (apiClient b) with
  | (Returned translatedText, c) => (Some translatedText, mk (storage b) c)
  | (_, c) => (None, mk (storage b) c)
  end.

(** [handleSavePageContext(context)] *)
Definition handleSavePageContext (context : PageContext.t) (b : t) : t :=
  mk (Storage.savePageContext context (storage b)) (apiClient b).

(** [handleChatQuery(query, url)]; the two chat messages are stamped
    with the clock readings [nowUser] and [nowAssistant]. *)
Definition handleChatQuery (query url : jsstring) (nowUser nowAssistant : Z)
    (b : t) : option jsstring * t :=
  match Storage.getPageContext url (storage b) with
  | None => (None, b)
  | Some context =>
      match ApiClient.generateChatResponse backend query
              (PageContext.content context) (storage b) (apiClient b) with
      | (Returned response, c) =>
          let history :=
            PageContext.chatHistory context
              ++ [ChatMessage.mk ChatMessage.user query nowUser;
                  ChatMessage.mk ChatMessage.assistant response nowAssistant] in
          let context' := PageContext.with_chatHistory history context in
          (Some response, mk (Storage.savePageContext context' (storage b)) c)
      | (_, c) => (None, mk (storage b) c)
      end
  end.

End Handlers.

(** [handleGetPageContext(url)]: the [context] of the response, [None]
    for [null]. *)
Definition handleGetPageContext (url : jsstring) (b : t) : option PageContext.t :=
  Storage.getPageContext url (storage b).

(** [handleGetSettings()]: the [settings] of the response. *)
Definition handleGetSettings (b : t) : TranslationSettings.t :=
  Storage.getSettings (storage b).

(** [handleSaveSettings(settings)] *)
Definition handleSaveSettings (settings : TranslationSettings.t) (b : t) : t :=
  mk (Storage.saveSettings settings (storage b)) (apiClient b).

End Background.

(** ** utils/translationEngine.ts (src/src/utils/translationEngine.ts) *)

Module TranslationEngine.

(** What [openai.chat.completions.create] comes to: a failure, or a
    response with or without message content. *)
Inductive Completion : Type :=
| Fails
| Completes (content : option jsstring).

(** The engine ([this.openai] is set or not, [this.settings]), the
    storage it reads and writes, and the texts it has sent to the
    backend, oldest first. *)
Record t : Type :=
  mk { openai : bool;
       settings : option TranslationSettings.t;
       storage : Storage.t;
       requests : list jsstring }.

(** [initialize()] *)
Definition initialize (e : t) : bool * t :=
  let s := Storage.getSettings (storage e) in
  if negb (truthy (TranslationSettings.apiKey s))
  then (false, mk (openai e) (Some s) (storage e) (requests e))
  else (true, mk true (Some s) (storage e) (requests e)).

Section Calls.

Variable backend : list jsstring -> jsstring -> Completion.
(** The clock, read after a given number of backend requests. *)
Variable clock : nat -> Z.

(** [callTranslationAPI(text)]: the request is issued at once; the
    result is what its promise settles to. *)
Definition callTranslationAPI (text : jsstring) (e : t)
    : Outcome jsstring * t :=
  if negb (openai e) then (Thrown, e)
  else
    let e' := mk (openai e) (settings e) (storage e) (requests e ++ [text]) in
    match backend (requests e) text with
    | Fails => (Thrown, e')
    | Completes (Some content) =>
        (Returned (if truthy content then content else text), e')
    | Completes None => (Returned text, e')
    end.

(** [Promise.all(chunks.map(chunk => this.callTranslationAPI(chunk)))]:
    every request is issued, in order; the whole rejects if one of
    them does. *)
Fixpoint callAll (chunks : list jsstring) (e : t)
    : Outcome (list jsstring) * t :=
  match chunks with
  | [] => (Returned [], e)
  | chunk :: rest =>
      let '(r, e1) := callTranslationAPI chunk e in
      let '(rs, e2) := callAll rest e1 in
      (match r, rs with
       | Returned x, Returned xs => Returned (x :: xs)
       | Hangs, _ | _, Hangs => Hangs
       | _, _ => Thrown
       end, e2)
  end.

Definition saveToCache (text translatedText : jsstring) (e : t) : t :=
  let now := clock (length (requests e)) in
  mk (openai e) (settings e)
     (Storage.saveTranslationCache text translatedText now now (storage e))
     (requests e).

(** The cache check of [translateText]: the cached translation, when
    there is one that is truthy, stamped and still valid. *)
Definition freshTranslation (text : jsstring) (e : t) : option jsstring :=
  let cachedTranslation := Storage.getTranslationCache text (storage e) in
  let cacheExpiration :=
    match settings e with
    | Some s => TranslationSettings.cacheExpiration s
    | None => 5%Z
    end in
  match cachedTranslation with
  | Some cached =>
      if truthy (TranslationResult.translatedText cached)
         && negb (TranslationResult.timestamp cached =? 0)%Z
         && Helpers.isCacheValid (Some (TranslationResult.timestamp cached))
              cacheExpiration (clock (length (requests e)))
      then Some (TranslationResult.translatedText cached)
      else None
  | None => None
  end.

(** [translateText(text)] *)
Definition translateText (text : jsstring) (e : t) : Outcome jsstring * t :=
  let '(initialized, e1) :=
    if negb (openai e) || negb (bool_decide (is_Some (settings e)))
    then initialize e else (true, e) in
  if negb initialized then (Thrown, e1)
  else if Helpers.isCodeBlock text then (Returned text, e1)
  else
    match freshTranslation text e1 with
    | Some translatedText => (Returned translatedText, e1)
    | None =>
        if (4000 <? length text)%nat then
          match Helpers.splitTextIntoChunks text Helpers.defaultMaxChunkSize with
          | None => (Hangs, e1)
          | Some chunks =>
              match callAll chunks e1 with
              | (Returned translatedChunks, e2) =>
                  let translatedText := join (str " ") translatedChunks in
                  (Returned translatedText, saveToCache text translatedText e2)
              | (Thrown, e2) => (Thrown, e2)
              | (Hangs, e2) => (Hangs, e2)
              end
          end
        else
          match callTranslationAPI text e1 with
          | (Returned translatedText, e2) =>
              (Returned translatedText, saveToCache text translatedText e2)
          | (Thrown, e2) => (Thrown, e2)
          | (Hangs, e2) => (Hangs, e2)
          end
    end.

End Calls.

End TranslationEngine.

(** * Definitions for the properties *)

Local Open Scope nat_scope.

(** ** Order of the extracted segments *)

Section DocumentOrder.

Import ContentScript.

(** The segment of a recognized structural unit, chosen by its tag; no
    segment for any other element. *)
Definition segmentOf (n : Node) : option StructuredContentElement.t :=
  if hasTag headingTags n then Some (headingElement n)
  else if hasTag paragraphTags n then Some (paragraphElement n)
  else if hasTag listTags n then Some (listElement n)
  else if hasTag codeTags n then Some (codeElement n)
  else if hasTag imageTags n then Some (imageElement n)
  else None.

(** The reading of the specification: one segment per recognized unit, in
    document order, that is in the depth-first pre-order of the tree. *)
Definition extractInDocumentOrder (root : Node) : list StructuredContentElement.t :=
  omap segmentOf (descendants root).

Definition ofKind (kind : string) (segment : StructuredContentElement.t) : bool :=
  bool_decide (StructuredContentElement.type segment = str kind).

(** The segments of one kind, in document order. *)
Definition segmentsOfKind (root : Node) (kind : string)
    : list StructuredContentElement.t :=
  List.filter (ofKind kind) (extractInDocumentOrder root).

End DocumentOrder.

(** The kind of a freshly built segment is decided by evaluation. *)
Ltac decide_kinds :=
  repeat match goal with
         | |- context [ofKind ?k ?e] =>
             let b := eval vm_compute in (ofKind k e) in
             change (ofKind k e) with b
         end.

(** A segment attribute without scripting: its name does not start with
    [on] and its value does not contain [javascript:]. *)
Definition sanitized (attr : jsstring * jsstring) : Prop :=
  startsWith (str "on") attr.1 = false /\ includes (str "javascript:") attr.2 = false.

(** ** What a match consumes *)

(** Every class of the pattern that consumes a code unit lies within [P]. *)
Fixpoint consumesOnly (P : N -> bool) (r : regex) : Prop :=
  match r with
  | Class p => forall c, p c = true -> P c = true
  | Cat r1 r2 => consumesOnly P r1 /\ consumesOnly P r2
  | Alt r1 r2 => consumesOnly P r1 /\ consumesOnly P r2
  | Star r1 => consumesOnly P r1
  | _ => True
  end.

(** A matcher hands its continuation a suffix of the input, and what it
    has passed over lies within [P]. *)
Definition Consumes {A : Type} (P : N -> bool) (m : Matcher A) : Prop :=
  forall prev s k a,
    m prev s k = Some a ->
    exists pre rest prev',
      s = pre ++ rest /\ forallb P pre = true /\ k prev' rest = Some a.

(** ** Content and the states of the chunker *)

(** The code units of a text that are not whitespace: its content. *)
Definition contentOf (text : jsstring) : jsstring :=
  List.filter (fun c => negb (isWhiteSpace c)) text.

(** A piece of a text, with the separator that joins it to a running
    chunk. *)
Abbreviation Piece := (jsstring * jsstring)%type (only parsing).

Section ChunkerStates.

Import Helpers.

(** The text held by a state of the loops: the chunks pushed so far, then
    the running chunk. *)
Definition flat (st : ChunkState) : jsstring := concat st.1 ++ st.2.

(** No chunk of the state is more than two code units over the size. *)
Definition bounded (maxChunkSize : Z) (st : ChunkState) : Prop :=
  Forall (fun chunk => (Z.of_nat (length chunk) <= maxChunkSize + 2)%Z) st.1
  /\ (Z.of_nat (length st.2) <= maxChunkSize + 2)%Z.

(** What a turn of a loop does with a piece of content [c]: the state
    gains [c], at the end when the turn is [ordered]; and it stays
    bounded. *)
Definition Step (maxChunkSize : Z) (st : ChunkState) (c : jsstring)
    (ordered : bool) (st' : ChunkState) : Prop :=
  Permutation (contentOf (flat st')) (contentOf (flat st) ++ c)
  /\ (ordered = true -> contentOf (flat st') = contentOf (flat st) ++ c)
  /\ (bounded maxChunkSize st -> bounded maxChunkSize st').

(** The piece is not longer than the size. *)
Definition fits (maxChunkSize : Z) (piece : jsstring) : bool :=
  negb (exceeds (length piece) maxChunkSize).

(** A paragraph is added in order unless one of its sentences has to be
    cut. *)
Definition paragraphOrdered (maxChunkSize : Z) (paragraph : jsstring) : bool :=
  fits maxChunkSize paragraph
  || forallb (fits maxChunkSize) (split sentenceBreak paragraph).

(** Nothing has to be cut: every paragraph longer than the size splits
    into sentences that fit. *)
Definition hardCutFree (text : jsstring) (maxChunkSize : Z) : bool :=
  forallb (paragraphOrdered maxChunkSize) (split paragraphBreak text).

(** The slices of a sentence that is cut: runs of [maxChunkSize] code
    units, the last one as long as what is left. *)
Fixpoint slices (fuel : nat) (maxChunkSize : Z) (sentence : jsstring)
    : list jsstring :=
  match fuel, sentence with
  | S fuel', _ :: _ =>
      substring_to sentence maxChunkSize
      :: slices fuel' maxChunkSize (substring_from sentence maxChunkSize)
  | _, _ => []
  end.

(** The pieces of a sentence: the sentence, after a space, when it
    fits, and its slices when it has to be cut. *)
Definition sentencePieces (maxChunkSize : Z) (sentence : jsstring) : list Piece :=
  if fits maxChunkSize sentence then [(str " ", sentence)]
  else map (pair []) (slices (length sentence) maxChunkSize sentence).

(** The pieces of a paragraph: the paragraph, after two newlines, when
    it fits, and the pieces of its sentences when it does not. *)
Definition paragraphPieces (maxChunkSize : Z) (paragraph : jsstring) : list Piece :=
  if fits maxChunkSize paragraph then [([LF; LF], paragraph)]
  else flat_map (sentencePieces maxChunkSize) (split sentenceBreak paragraph).

(** The pieces that the chunker takes a text apart into, in the order
    of the text. *)
Definition pieces (maxChunkSize : Z) (text : jsstring) : list Piece :=
  flat_map (paragraphPieces maxChunkSize) (split paragraphBreak text).

(** A group of pieces joined into a chunk: each piece after its
    separator, which is left out as long as the chunk is empty. *)
Definition joined (group : list Piece) : jsstring :=
  foldl (fun chunk piece =>
           chunk ++ (if truthy chunk then piece.1 else []) ++ piece.2) [] group.

(** Every sentence of the loop over [sentences], begun in the state
    [st], that has to be cut finds the running chunk empty. *)
Fixpoint sentencesCutInOrder (maxChunkSize : Z) (sentences : list jsstring)
    (st : ChunkState) : bool :=
  match sentences with
  | [] => true
  | sentence :: rest =>
      (fits maxChunkSize sentence || negb (truthy st.2))
      && match addSentence maxChunkSize st sentence with
         | Some st' => sentencesCutInOrder maxChunkSize rest st'
         | None => true
         end
  end.

(** The same for the loop over [paragraphs]. *)
Fixpoint paragraphsCutInOrder (maxChunkSize : Z) (paragraphs : list jsstring)
    (st : ChunkState) : bool :=
  match paragraphs with
  | [] => true
  | paragraph :: rest =>
      (fits maxChunkSize paragraph
       || sentencesCutInOrder maxChunkSize (split sentenceBreak paragraph) st)
      && match addParagraph maxChunkSize st paragraph with
         | Some st' => paragraphsCutInOrder maxChunkSize rest st'
         | None => true
         end
  end.

(** No sentence of the text is cut while the running chunk holds
    something: the slices of a sentence that is cut are pushed at once,
    and would come before the text that waits in the running chunk. *)
Definition cutsInOrder (text : jsstring) (maxChunkSize : Z) : bool :=
  paragraphsCutInOrder maxChunkSize (split paragraphBreak text) ([], []).

(** The state holds the pieces [ps]: they fall into groups, in order;
    the chunks pushed are the groups joined, the empty ones left out, and
    the running chunk is the last group joined. *)
Definition Holds (st : ChunkState) (ps : list Piece) : Prop :=
  exists groups last,
    concat groups ++ last = ps
    /\ st.1 = List.filter truthy (map joined groups)
    /\ st.2 = joined last.

(** The pieces, in order and with nothing but whitespace before,
    between and after them, are the text. *)
Inductive Rebuilds : jsstring -> list jsstring -> Prop :=
| Rebuilds_nil (gap : jsstring) :
    forallb isWhiteSpace gap = true -> Rebuilds gap []
| Rebuilds_cons (gap piece rest : jsstring) (ps : list jsstring) :
    forallb isWhiteSpace gap = true ->
    Rebuilds rest ps ->
    Rebuilds (gap ++ piece ++ rest) (piece :: ps).

End ChunkerStates.

(** ** The cache check of the engine *)

(** The TTL that [translateText] applies. *)
Definition cacheExpirationOf (e : TranslationEngine.t) : Z :=
  match TranslationEngine.settings e with
  | Some s => TranslationSettings.cacheExpiration s
  | None => 5%Z
  end.

(** ** The completions of the chunks *)

(** What the request for [chunk] comes to when it completes after the
    requests [history]: the content of the completion, and the chunk
    itself when the completion holds no content. *)
Definition completionOf
    (backend : list jsstring -> jsstring -> TranslationEngine.Completion)
    (history : list jsstring) (chunk : jsstring) : jsstring :=
  match backend history chunk with
  | TranslationEngine.Completes (Some content) =>
      if truthy content then content else chunk
  | _ => chunk
  end.

(** The completions of the requests for [chunks], issued in order after
    the requests [history]. *)
Fixpoint completionsOf
    (backend : list jsstring -> jsstring -> TranslationEngine.Completion)
    (history : list jsstring) (chunks : list jsstring) : list jsstring :=
  match chunks with
  | [] => []
  | chunk :: rest =>
      completionOf backend history chunk
      :: completionsOf backend (history ++ [chunk]) rest
  end.

(** ** The hash of the cache key *)

(** The polynomial hash with multiplier 31 over the integers, without any
    wrap-around. *)
Definition polyHash (s : jsstring) : Z :=
  fold_left (fun hash char => (31 * hash + Z.of_N char)%Z) s 0%Z.

(** ** Steps of the content script *)

(** Two items that differ in their content at most. *)
Definition sameShape (a b : StructuredContentElement.t) : Prop :=
  StructuredContentElement.type a = StructuredContentElement.type b
  /\ StructuredContentElement.tag a = StructuredContentElement.tag b
  /\ StructuredContentElement.attributes a = StructuredContentElement.attributes b.

(** The page context without its record of translations. *)
Definition withoutTranslations (pc : PageContext.t) : PageContext.t :=
  PageContext.with_translations ∅ pc.

(** A step of the content script that sends the texts [new] to the
    background, in that order, and changes nothing of the page context
    but its record of translations. *)
Definition Sends (st : ContentScript.State) (new : list jsstring)
    (st' : ContentScript.State) : Prop :=
  ContentScript.sent st' = ContentScript.sent st ++ new
  /\ withoutTranslations <$> ContentScript.pageContext st'
     = withoutTranslations <$> ContentScript.pageContext st.



(** ** Lines that begin with a keyword *)

(** The words with which a signature pattern of [isCodeBlock] can match
    without looking any further. *)
Definition lineStartKeywords : list string :=
  ["def"; "class"; "import"; "from"; "if __name__"; "public"; "private";
   "protected"; "interface"; "enum"; "#include"; "<?php"; "namespace";
   "<!DOCTYPE"; "<html"; "<head"; "<body"; "<script"; "<style"; "@media"]%string.

(** The code unit before the position that follows [before], when [prev]
    is the code unit before [before]. *)
Definition prevAfter (prev : option N) (before : jsstring) : option N :=
  match list.last before with Some c => Some c | None => prev end.

Ltac in_nth n :=
  match n with
  | O => left; reflexivity
  | S ?m => right; in_nth m
  end.

Ltac in_list := repeat first [left; reflexivity | right].

(** ** Trees *)

(** The tree with every text node emptied, except that the children
    [stop] holds for are kept whole, with all that they contain. *)
Fixpoint outline (stop : ContentScript.Node -> bool) (node : ContentScript.Node)
    : ContentScript.Node :=
  match node with
  | ContentScript.TextNode _ => ContentScript.TextNode []
  | ContentScript.Element name attrs children =>
      ContentScript.Element name attrs
        (map (fun child => if stop child then child else outline stop child) children)
  end.

(** The values of the text nodes below [node] that do not lie in a child
    [stop] holds for, in document order. *)
Fixpoint textsOutside (stop : ContentScript.Node -> bool) (node : ContentScript.Node)
    : list jsstring :=
  match node with
  | ContentScript.TextNode data => [data]
  | ContentScript.Element _ _ children =>
      concat (map (fun child => if stop child then [] else textsOutside stop child)
                children)
  end.

(** The text below [node] outside the children [stop] holds for. *)
Definition textOutside (stop : ContentScript.Node -> bool) (node : ContentScript.Node)
    : jsstring :=
  concat (textsOutside stop node).

(** The [tagName] is one of SCRIPT, STYLE, NOSCRIPT, CODE and PRE, the
    elements that [translateTextNodes] does not enter. *)
Definition hasExcludedTag (node : ContentScript.Node) : bool :=
  existsb (String.eqb (ContentScript.tagNameOf node))
    ContentScript.textNodesExcludedTags.

(** The [tagName], in lower case, is one of those that [sanitizeHtml]
    removes. *)
Definition hasDangerousTag (node : ContentScript.Node) : bool :=
  existsb (String.eqb (ContentScript.toLowerCase (ContentScript.tagNameOf node)))
    SidePanel.dangerousTags.

(** One of the selectors matches. *)
Definition anyOf (selectors : list ContentScript.Selector) (node : ContentScript.Node)
    : bool :=
  existsb (fun selector => ContentScript.matches selector node) selectors.

(** One of the selectors of [excludeSelectors] matches. *)
Definition excluded (node : ContentScript.Node) : bool :=
  anyOf ContentScript.excludeSelectors node.

(** An element without a dangerous tag and without script attributes. *)
Definition safeElement (node : ContentScript.Node) : Prop :=
  hasDangerousTag node = false /\ Forall sanitized (ContentScript.attributesOf node).

(** The name and the attributes of an element. *)
Definition headOf (node : ContentScript.Node)
    : option (ContentScript.Name * list (jsstring * jsstring)) :=
  match node with
  | ContentScript.Element name attrs _ => Some (name, attrs)
  | ContentScript.TextNode _ => None
  end.

(** ** Sample inputs *)

(** The sample of the specification: [def foo():], a line feed,
    [    return 1]. *)
Definition defFoo : jsstring := str "def foo():" ++ [LF] ++ str "    return 1".

(** A Python coroutine: javascript and python both match two patterns. *)
Definition asyncSample : jsstring :=
  str "import asyncio" ++ [LF] ++ str "async def main(self):" ++ [LF]
    ++ str "    await x".

Definition hello : jsstring := str "hello".
Definition konnichiwa : jsstring := [12371; 12435; 12395; 12385; 12399]%N.

(** A clock that stands still. *)
Definition noon (_ : nat) : Z := 1000.

(** A page context with a paragraph followed by a code block, and a
    background script that translates everything to the same greeting. *)
Definition codeItem : StructuredContentElement.t :=
  StructuredContentElement.mk (str "code") (str "x = 1") (Some (str "pre")) (Some []).
Definition textItem : StructuredContentElement.t :=
  StructuredContentElement.mk (str "paragraph") (str "Hello") (Some (str "p")) (Some []).
Definition sampleContext : PageContext.t :=
  PageContext.mk (str "https://example.org/doc") (str "Doc") (str "Hello x = 1")
    None (Some [textItem; codeItem]) None None None [] ∅ [] 5.
Definition sampleScript : ContentScript.State :=
  ContentScript.mkState (Some sampleContext) [].
Definition translating (_ : list jsstring) (_ : jsstring) : ContentScript.Reply :=
  ContentScript.Response true (Some konnichiwa).

(** A paragraph followed by a heading. *)
Definition paragraphThenHeading : ContentScript.Node :=
  ContentScript.Element (ContentScript.htmlName "div") []
    [ContentScript.Element (ContentScript.htmlName "p") []
       [ContentScript.TextNode (str "first")];
     ContentScript.Element (ContentScript.htmlName "h1") []
       [ContentScript.TextNode (str "second")]].

(** An image with an event handler and a scripted source. *)
Definition scriptedImage : ContentScript.Node :=
  ContentScript.Element (ContentScript.htmlName "div") []
    [ContentScript.Element (ContentScript.htmlName "img")
       [(str "alt", str "A diagram"); (str "onclick", str "run()");
        (str "src", str "javascript:run()")] []].

(** Stores, settings, clients and backends. *)
Definition emptyStorage : Storage.t := Storage.mk ∅ None.
Definition casualSettings : TranslationSettings.t :=
  TranslationSettings.mk (str "key") TranslationSettings.casual 5.
Definition keyedStorage : Storage.t := Storage.mk ∅ (Some casualSettings).
Definition keyedClient : ApiClient.t := ApiClient.mk (Some casualSettings) [].
Definition answering (_ : list jsstring) (_ : jsstring) : ApiClient.FetchResult :=
  ApiClient.Ok (Some (str "An answer.")).
Definition freshEngine : TranslationEngine.t :=
  TranslationEngine.mk false None keyedStorage [].
Definition completing (_ : list jsstring) (_ : jsstring) : TranslationEngine.Completion :=
  TranslationEngine.Completes (Some konnichiwa).

(** An initialized engine with an empty cache, and a word of 4001 code
    units. *)
Definition readyEngine : TranslationEngine.t :=
  TranslationEngine.mk true (Some casualSettings) emptyStorage [].
Definition longWord : jsstring := replicate 4001 120%N.

(** A cache entry stamped with the clock reading 0. *)
Definition epochEntry : TranslationResult.t := TranslationResult.mk hello konnichiwa 0.
Definition epochStore : Storage.t :=
  Storage.mk {[ Storage.cacheKey hello := Storage.StoredCache epochEntry ]} None.

(** A page context last updated at clock reading 5. *)
Definition pageUrl : jsstring := str "https://example.org/doc".
Definition staleContext : PageContext.t :=
  PageContext.mk pageUrl (str "Doc") (str "Some page content.") None None None
    None None [] ∅ [] 5.

(** Texts for the chunker. *)
Definition shortThenLong : jsstring := str "Hi. abcdefghij".

(** A sentence longer than 10 code units at the beginning, two short
    sentences, and a paragraph after a break with a space inside. *)
Definition cutThenJoined : jsstring :=
  str "abcdefghijklmnop! Hi. Yo." ++ [LF; 32%N; LF] ++ str "Bye".

(** Two paragraphs with a space inside the break between them. *)
Definition spacedParagraphs : jsstring := str "aaaa" ++ [LF; 32%N; LF] ++ str "bbbb".

(** Two paragraphs of 2000 code units. *)
Definition twoParagraphs : jsstring :=
  replicate 2000 97%N ++ [LF; LF] ++ replicate 2000 98%N.

Definition sentenceOf (n : nat) (c : N) : jsstring := replicate (n - 1) c ++ str ".".

(** A passage of 9000 code units without a paragraph break: four
    sentences of 1999, 2001, 2499 and 2498 code units, a space between
    them. *)
Definition fourSentences : jsstring :=
  sentenceOf 1999 97 ++ str " " ++ sentenceOf 2001 98 ++ str " "
    ++ sentenceOf 2499 99 ++ str " " ++ sentenceOf 2498 100.

(** An engine that has not been initialized, over a storage without
    settings; a backend whose requests all fail; a clock that stands
    still at a later time. *)
Definition keylessEngine : TranslationEngine.t :=
  TranslationEngine.mk false None emptyStorage [].
Definition failing (_ : list jsstring) (_ : jsstring) : TranslationEngine.Completion :=
  TranslationEngine.Fails.
Definition afternoon (_ : nat) : Z := 2000.

(** Two texts with the same cache key, and an engine whose cache holds a
    translation of the first. *)
Definition textAa : jsstring := str "Aa".
Definition textBB : jsstring := str "BB".
Definition entryAa : TranslationResult.t := TranslationResult.mk textAa konnichiwa 500.
Definition engineWithAa : TranslationEngine.t :=
  TranslationEngine.mk true (Some casualSettings)
    (Storage.mk {[ Storage.cacheKey textAa := Storage.StoredCache entryAa ]} None) [].

(** A background script that has not loaded the settings yet, over a
    storage without settings. *)
Definition freshBackground : Background.t :=
  Background.mk emptyStorage (ApiClient.mk None []).

(** A greeting, and a line that begins with the word from. *)
Definition greeting : jsstring := str "Dear all," ++ [LF].
Definition signature : jsstring := str " the whole team".

(** A document without content, at the URL of the stale context; a
    serializer that throws and a parser that finds nothing. *)
Definition emptyDocument : ContentScript.Document :=
  ContentScript.mkDocument (str "Doc") pageUrl
    (ContentScript.Element (ContentScript.htmlName "html") []
       [ContentScript.Element (ContentScript.htmlName "body") [] []]).
Definition noSerializer (_ : ContentScript.Node) : option jsstring := None.
Definition noParser (_ : jsstring) : ContentScript.Node := ContentScript.TextNode [].

(** An SVG drawing in an HTML document: the [svg] element with a [style]
    element and a [text] element; and an HTML [style] element. *)
Definition svgName (localName : string) : ContentScript.Name :=
  ContentScript.mkName ContentScript.Foreign None localName.
Definition drawing : ContentScript.Node :=
  ContentScript.Element (svgName "svg") []
    [ContentScript.Element (svgName "style") [] [ContentScript.TextNode hello];
     ContentScript.Element (svgName "text") [] [ContentScript.TextNode hello]].
Definition styleSheet : ContentScript.Node :=
  ContentScript.Element (ContentScript.htmlName "style") []
    [ContentScript.TextNode hello].
Definition translatedDrawing : ContentScript.Node :=
  ContentScript.Element (svgName "svg") []
    [ContentScript.Element (svgName "style") [] [ContentScript.TextNode konnichiwa];
     ContentScript.Element (svgName "text") [] [ContentScript.TextNode konnichiwa]].


(** * Properties *)

(** ** The classifier on the sample of the specification *)

(** The sample scores one match for python and one for ruby, and none for
    any other family. *)
Lemma defFoo_scores :
  CodeBlockDetector.scoresOf defFoo =
  [("javascript", 0); ("typescript", 0); ("python", 1); ("java", 0);
   ("csharp", 0); ("php", 0); ("html", 0); ("css", 0); ("ruby", 1); ("go", 0);
   ("rust", 0); ("swift", 0); ("kotlin", 0)]%string.
Proof. vm_compute. reflexivity. Qed.

(** C7, as stated, fails: the text [def foo():\n    return 1] is
    classified as code, but no language is reported for it, so the reported
    language is not python. *)
Lemma C7_language_is_not_python :
  ~ (Helpers.isCodeBlock defFoo = true
     /\ CodeBlockDetector.detectLanguage defFoo = Some "python"%string).
Proof. vm_compute. intros [_ H]. discriminate H. Qed.

(** C7, amended: classifying [def foo():\n    return 1] yields isCode =
    true through the signature patterns, and language detection reports no
    language, because the best family (python, tied with ruby) matches one
    pattern only, below the threshold of two. *)
Theorem C7_def_foo_is_code_without_language :
  Helpers.isCodeBlock defFoo = true
  /\ CodeBlockDetector.detectLanguage defFoo = None
  /\ CodeBlockDetector.maxScore (CodeBlockDetector.scoresOf defFoo) = 1.
Proof. vm_compute. repeat split; reflexivity. Qed.

(** ** Language selection *)

Section PickLanguage.

Import CodeBlockDetector.

Lemma maxScore_upper (scores : list (string * nat)) (l : string) (n : nat) :
  In (l, n) scores -> n <= maxScore scores.
Proof.
  unfold maxScore. induction scores as [|[l' n'] rest IH]; simpl.
  - intros [].
  - intros [H | H].
    + inversion H; subst. apply Nat.le_max_l.
    + etransitivity; [apply IH, H | apply Nat.le_max_r].
Qed.

Lemma maxScore_attained (scores : list (string * nat)) :
  0 < maxScore scores -> exists l, In (l, maxScore scores) scores.
Proof.
  unfold maxScore. induction scores as [|[l' n'] rest IH]; simpl.
  - lia.
  - intros Hpos.
    destruct (Nat.max_spec n' (foldr Nat.max 0 (map snd rest))) as [[Hlt ->] | [Hle ->]].
    + destruct IH as [l Hl]; [lia|]. exists l. right. exact Hl.
    + exists l'. left. reflexivity.
Qed.

Lemma find_first {A : Type} (f : A -> bool) (xs : list A) (x : A) :
  List.find f xs = Some x ->
  exists before after,
    xs = before ++ x :: after /\ f x = true
    /\ Forall (fun y => f y = false) before.
Proof.
  induction xs as [|y rest IH]; simpl; [discriminate|].
  destruct (f y) eqn:Hy.
  - intros [= ->]. exists [], rest. repeat split; [exact Hy | constructor].
  - intros H. destruct (IH H) as (before & after & -> & Hx & Hall).
    exists (y :: before), after. repeat split; [exact Hx|].
    constructor; assumption.
Qed.

Lemma find_none_all {A : Type} (f : A -> bool) (xs : list A) :
  List.find f xs = None -> forall x, In x xs -> f x = false.
Proof.
  induction xs as [|y rest IH]; simpl; [intros _ x []|].
  destruct (f y) eqn:Hy; [discriminate|].
  intros H x [<- | Hx]; [exact Hy | apply IH; assumption].
Qed.

(** What [pickLanguage] returns, for any table of scores. *)
Lemma pickLanguage_none (scores : list (string * nat)) :
  pickLanguage scores = None <-> maxScore scores < 2.
Proof.
  unfold pickLanguage. destruct (Nat.ltb_spec (maxScore scores) 2) as [Hlt | Hge].
  - split; [intros _; exact Hlt | reflexivity].
  - split; [|lia]. intros H.
    destruct (maxScore_attained scores) as [l Hl]; [lia|].
    destruct (List.find _ scores) as [x|] eqn:Hfind; [discriminate|].
    pose proof (find_none_all _ _ Hfind _ Hl) as Hf. simpl in Hf.
    rewrite Nat.eqb_refl in Hf. discriminate.
Qed.

Lemma pickLanguage_some (scores : list (string * nat)) (l : string) :
  pickLanguage scores = Some l ->
  exists before after,
    scores = before ++ (l, maxScore scores) :: after
    /\ 2 <= maxScore scores
    /\ Forall (fun '(_, n) => n < maxScore scores) before.
Proof.
  unfold pickLanguage. destruct (Nat.ltb_spec (maxScore scores) 2) as [Hlt | Hge];
    [discriminate|].
  destruct (List.find _ scores) as [[l' n]|] eqn:Hfind; [|discriminate].
  intros [= ->].
  destruct (find_first _ _ _ Hfind) as (before & after & Heq & Hn & Hall).
  apply Nat.eqb_eq in Hn. subst n.
  exists before, after. repeat split; [exact Heq | exact Hge |].
  rewrite Forall_forall in *. intros [l'' n''] Hin.
  specialize (Hall _ Hin). simpl in Hall. apply Nat.eqb_neq in Hall.
  assert (n'' <= maxScore scores); [|lia].
  apply (maxScore_upper scores l''). rewrite Heq. apply in_or_app. left. exact Hin.
Qed.

Lemma maxScore_app (before after : list (string * nat)) :
  maxScore (before ++ after) = Nat.max (maxScore before) (maxScore after).
Proof.
  unfold maxScore. induction before as [|[l n] rest IH]; simpl; [reflexivity|].
  rewrite IH. apply Nat.max_assoc.
Qed.

Lemma maxScore_below (scores : list (string * nat)) (n : nat) :
  Forall (fun '(_, s) => s <= n) scores -> maxScore scores <= n.
Proof.
  unfold maxScore. induction 1 as [|[l s] rest Hs _ IH]; simpl; [lia|].
  apply Nat.max_lub; assumption.
Qed.

Lemma find_skips {A : Type} (f : A -> bool) (before : list A) (x : A) (after : list A) :
  Forall (fun y => f y = false) before -> f x = true ->
  List.find f (before ++ x :: after) = Some x.
Proof.
  induction 1 as [|y rest Hy _ IH]; simpl; intros Hx.
  - rewrite Hx. reflexivity.
  - rewrite Hy. exact (IH Hx).
Qed.

(** The first family that reaches a maximum of at least two is the one
    reported. *)
Lemma pickLanguage_first (before after : list (string * nat)) (l : string) (n : nat) :
  2 <= n ->
  Forall (fun '(_, s) => s < n) before ->
  Forall (fun '(_, s) => s <= n) after ->
  pickLanguage (before ++ (l, n) :: after) = Some l.
Proof.
  intros Hn Hbefore Hafter. unfold pickLanguage.
  assert (maxScore (before ++ (l, n) :: after) = n) as ->.
  { rewrite maxScore_app.
    change (maxScore ((l, n) :: after)) with (Nat.max n (maxScore after)).
    pose proof (maxScore_below after n Hafter).
    assert (maxScore before <= n); [|lia].
    apply maxScore_below. eapply Forall_impl; [|exact Hbefore].
    intros [l' s]. simpl. lia. }
  destruct (Nat.ltb_spec n 2) as [Hlt|_]; [lia|].
  rewrite (find_skips _ before (l, n) after).
  - reflexivity.
  - eapply Forall_impl; [|exact Hbefore]. intros [l' s] Hs. simpl in *.
    apply Nat.eqb_neq. lia.
  - simpl. apply Nat.eqb_refl.
Qed.

End PickLanguage.

(** C8, as stated, fails: on [asyncSample] the families javascript and
    python tie for the maximum match count (two each), and a language is
    reported all the same. *)
Lemma C8_tie_still_reports_a_language :
  let scores := CodeBlockDetector.scoresOf asyncSample in
  In ("javascript"%string, CodeBlockDetector.maxScore scores) scores
  /\ In ("python"%string, CodeBlockDetector.maxScore scores) scores
  /\ CodeBlockDetector.detectLanguage asyncSample <> None.
Proof. vm_compute. repeat split; auto 10. discriminate. Qed.

(** C8, amended: for every input text, no language is reported exactly
    when the maximum match count over the families is below 2; otherwise
    the reported language is the first family, in declaration order, whose
    count equals the maximum -- every family declared before it has a
    smaller count, and families declared after it may tie with it. *)
Theorem C8_language_is_first_family_with_max_count (code : jsstring) :
  let scores := CodeBlockDetector.scoresOf code in
  (CodeBlockDetector.detectLanguage code = None
   <-> CodeBlockDetector.maxScore scores < 2)
  /\ (forall l, CodeBlockDetector.detectLanguage code = Some l ->
        exists before after,
          scores = before ++ (l, CodeBlockDetector.maxScore scores) :: after
          /\ 2 <= CodeBlockDetector.maxScore scores
          /\ Forall (fun '(_, n) => n < CodeBlockDetector.maxScore scores) before)
  /\ (forall before after l n,
        scores = before ++ (l, n) :: after ->
        2 <= n ->
        Forall (fun '(_, s) => s < n) before ->
        Forall (fun '(_, s) => s <= n) after ->
        CodeBlockDetector.detectLanguage code = Some l).
Proof.
  split; [|split].
  - apply pickLanguage_none.
  - intros l. apply pickLanguage_some.
  - intros before after l n Hscores Hn Hbefore Hafter.
    unfold CodeBlockDetector.detectLanguage. rewrite Hscores.
    apply pickLanguage_first; assumption.
Qed.

(** ** Translation of the structured content keeps code *)

Section TranslateStructuredContent.

Import ContentScript.

Variable background : list jsstring -> jsstring -> Reply.
Variable clock : nat -> Z.

Lemma translateText_keeps_context (text : jsstring) (st : State) :
  is_Some (pageContext st) ->
  is_Some (pageContext (translateText background clock text st).2).
Proof.
  intros [pc Hpc]. unfold translateText. rewrite Hpc. simpl.
  destruct (negb (truthy text) || isBlank text); simpl; [rewrite Hpc; eauto|].
  destruct (PageContext.translations pc !! text); simpl; [rewrite Hpc; eauto|].
  destruct (background (sent st) text) as [|[] [translated|]]; simpl; eauto.
  destruct (truthy translated); simpl; eauto.
Qed.

Lemma translateItem_keeps_context (item : StructuredContentElement.t) (st : State) :
  is_Some (pageContext st) ->
  is_Some (pageContext (translateItem background clock item st).2).
Proof.
  intros H. unfold translateItem.
  pose proof (translateText_keeps_context (StructuredContentElement.content item) st H) as Ht.
  destruct (isCode item); [exact H|].
  destruct (isImage item && truthy (StructuredContentElement.content item)).
  - destruct (translateText _ _ _ st) as [r st']. exact Ht.
  - destruct (truthy (StructuredContentElement.content item)); [|exact H].
    destruct (translateText _ _ _ st) as [[translated|] st']; [|exact Ht].
    destruct (truthy translated); exact Ht.
Qed.

Lemma translateItems_keeps_context (items : list StructuredContentElement.t) :
  forall st, is_Some (pageContext st) ->
             is_Some (pageContext (translateItems background clock items st).2).
Proof.
  induction items as [|item rest IH]; intros st H; simpl; [exact H|].
  pose proof (translateItem_keeps_context item st H) as H1.
  destruct (translateItem background clock item st) as [translated st1].
  specialize (IH st1 H1).
  destruct (translateItems background clock rest st1) as [translatedRest st2].
  exact IH.
Qed.

(** A code item is pushed as it is, and the state is left alone. *)
Lemma translateItem_code (item : StructuredContentElement.t) (st : State) :
  StructuredContentElement.type item = str "code" ->
  translateItem background clock item st = (item, st).
Proof.
  intros H. unfold translateItem, isCode. rewrite bool_decide_eq_true_2; [reflexivity | exact H].
Qed.

(** The loop pushes one item per turn. *)
Lemma translateItems_length (items : list StructuredContentElement.t) :
  forall st, length (translateItems background clock items st).1 = length items.
Proof.
  induction items as [|item rest IH]; intros st; simpl; [reflexivity|].
  destruct (translateItem background clock item st) as [translated st1].
  specialize (IH st1).
  destruct (translateItems background clock rest st1) as [translatedRest st2].
  simpl in *. congruence.
Qed.

Lemma translateItems_code (items : list StructuredContentElement.t) :
  forall st i item,
    items !! i = Some item ->
    StructuredContentElement.type item = str "code" ->
    (translateItems background clock items st).1 !! i = Some item.
Proof.
  induction items as [|first rest IH]; intros st i item Hi Hcode; [discriminate|].
  simpl. destruct i as [|i]; simpl in Hi.
  - injection Hi as ->. rewrite (translateItem_code item st Hcode).
    destruct (translateItems background clock rest st). reflexivity.
  - destruct (translateItem background clock first st) as [translated st1].
    specialize (IH st1 i item Hi Hcode).
    destruct (translateItems background clock rest st1) as [translatedRest st2].
    exact IH.
Qed.

End TranslateStructuredContent.

(** C1: for every sequence of structured-content items held by the page
    context (and every behaviour of the background script and of the
    clock), [translateStructuredContent] stores a translated sequence of
    the same length in which, at every index whose input item has type
    code, the output item is the input item itself, so its text is
    identical. *)
Theorem C1_translation_keeps_code_items
    (background : list jsstring -> jsstring -> ContentScript.Reply)
    (clock : nat -> Z) (st : ContentScript.State) (pc : PageContext.t)
    (items : list StructuredContentElement.t) :
  ContentScript.pageContext st = Some pc ->
  PageContext.structuredContent pc = Some items ->
  exists pc' translatedItems,
    ContentScript.pageContext
      (ContentScript.translateStructuredContent background clock st) = Some pc'
    /\ PageContext.translatedStructuredContent pc' = Some translatedItems
    /\ length translatedItems = length items
    /\ forall i item,
         items !! i = Some item ->
         StructuredContentElement.type item = str "code" ->
         translatedItems !! i = Some item
         /\ (StructuredContentElement.content <$> translatedItems !! i)
            = Some (StructuredContentElement.content item).
Proof.
  intros Hpc Hitems. unfold ContentScript.translateStructuredContent.
  rewrite Hpc. simpl. rewrite Hitems.
  pose proof (translateItems_length background clock items st) as Hlen.
  pose proof (translateItems_code background clock items st) as Hcode.
  pose proof (translateItems_keeps_context background clock items st) as Hkeep.
  destruct (ContentScript.translateItems background clock items st) as [out st'].
  simpl in *. destruct Hkeep as [pc' Hpc']; [rewrite Hpc; eauto|].
  rewrite Hpc'. simpl. eexists _, out. split; [reflexivity|].
  split; [reflexivity|]. split; [exact Hlen|].
  intros i item Hi Ht. rewrite (Hcode i item Hi Ht). split; reflexivity.
Qed.

(** The theorem at work on a paragraph followed by a code block. *)
Lemma C1_translation_keeps_code_items_witness :
  exists pc' translatedItems,
    ContentScript.pageContext
      (ContentScript.translateStructuredContent translating (fun _ => 1000%Z)
         sampleScript) = Some pc'
    /\ PageContext.translatedStructuredContent pc' = Some translatedItems
    /\ length translatedItems = length [textItem; codeItem]
    /\ forall i item,
         [textItem; codeItem] !! i = Some item ->
         StructuredContentElement.type item = str "code" ->
         translatedItems !! i = Some item
         /\ (StructuredContentElement.content <$> translatedItems !! i)
            = Some (StructuredContentElement.content item).
Proof.
  exact (C1_translation_keeps_code_items translating (fun _ => 1000%Z)
           sampleScript sampleContext [textItem; codeItem] eq_refl eq_refl).
Defined.

(** ** Order of the extracted segments *)

Section Extraction.

Import ContentScript.

Lemma segmentOf_cases (n : Node) :
  (segmentOf n = Some (headingElement n)
   /\ hasTag headingTags n = true /\ hasTag paragraphTags n = false
   /\ hasTag listTags n = false /\ hasTag codeTags n = false
   /\ hasTag imageTags n = false)
  \/ (segmentOf n = Some (paragraphElement n)
      /\ hasTag headingTags n = false /\ hasTag paragraphTags n = true
      /\ hasTag listTags n = false /\ hasTag codeTags n = false
      /\ hasTag imageTags n = false)
  \/ (segmentOf n = Some (listElement n)
      /\ hasTag headingTags n = false /\ hasTag paragraphTags n = false
      /\ hasTag listTags n = true /\ hasTag codeTags n = false
      /\ hasTag imageTags n = false)
  \/ (segmentOf n = Some (codeElement n)
      /\ hasTag headingTags n = false /\ hasTag paragraphTags n = false
      /\ hasTag listTags n = false /\ hasTag codeTags n = true
      /\ hasTag imageTags n = false)
  \/ (segmentOf n = Some (imageElement n)
      /\ hasTag headingTags n = false /\ hasTag paragraphTags n = false
      /\ hasTag listTags n = false /\ hasTag codeTags n = false
      /\ hasTag imageTags n = true)
  \/ (segmentOf n = None
      /\ hasTag headingTags n = false /\ hasTag paragraphTags n = false
      /\ hasTag listTags n = false /\ hasTag codeTags n = false
      /\ hasTag imageTags n = false).
Proof.
  unfold segmentOf, hasTag, headingTags, paragraphTags, listTags, codeTags, imageTags.
  generalize (localNameOf n). intros t.
  destruct (String.eqb_spec t "h1") as [->|]; [left; repeat split; reflexivity|].
  destruct (String.eqb_spec t "h2") as [->|]; [left; repeat split; reflexivity|].
  destruct (String.eqb_spec t "h3") as [->|]; [left; repeat split; reflexivity|].
  destruct (String.eqb_spec t "h4") as [->|]; [left; repeat split; reflexivity|].
  destruct (String.eqb_spec t "h5") as [->|]; [left; repeat split; reflexivity|].
  destruct (String.eqb_spec t "h6") as [->|]; [left; repeat split; reflexivity|].
  destruct (String.eqb_spec t "p") as [->|];
    [right; left; repeat split; reflexivity|].
  destruct (String.eqb_spec t "ul") as [->|];
    [right; right; left; repeat split; reflexivity|].
  destruct (String.eqb_spec t "ol") as [->|];
    [right; right; left; repeat split; reflexivity|].
  destruct (String.eqb_spec t "pre") as [->|];
    [right; right; right; left; repeat split; reflexivity|].
  destruct (String.eqb_spec t "code") as [->|];
    [right; right; right; left; repeat split; reflexivity|].
  destruct (String.eqb_spec t "img") as [->|];
    [right; right; right; right; left; repeat split; reflexivity|].
  right; right; right; right; right. simpl.
  repeat match goal with
         | H : ?a <> ?b |- context [String.eqb ?a ?b] =>
             rewrite (proj2 (String.eqb_neq a b) H)
         end.
  repeat split; reflexivity.
Qed.

(** The segments of one kind are the images of the matching descendants,
    in tree order. *)
Lemma segmentsOfKind_group (nodes : list Node) :
  List.filter (ofKind "heading") (omap segmentOf nodes)
    = map headingElement (List.filter (hasTag headingTags) nodes)
  /\ List.filter (ofKind "paragraph") (omap segmentOf nodes)
    = map paragraphElement (List.filter (hasTag paragraphTags) nodes)
  /\ List.filter (ofKind "list") (omap segmentOf nodes)
    = map listElement (List.filter (hasTag listTags) nodes)
  /\ List.filter (ofKind "code") (omap segmentOf nodes)
    = map codeElement (List.filter (hasTag codeTags) nodes)
  /\ List.filter (ofKind "image") (omap segmentOf nodes)
    = map imageElement (List.filter (hasTag imageTags) nodes).
Proof.
  induction nodes as [|n rest (IH1 & IH2 & IH3 & IH4 & IH5)]; [repeat split|].
  cbn [omap list_omap List.filter].
  destruct (segmentOf_cases n)
    as [(-> & -> & -> & -> & -> & ->) | [(-> & -> & -> & -> & -> & ->)
       | [(-> & -> & -> & -> & -> & ->) | [(-> & -> & -> & -> & -> & ->)
       | [(-> & -> & -> & -> & -> & ->) | (-> & -> & -> & -> & -> & ->)]]]]];
    cbn [List.filter map]; decide_kinds; cbn [map];
    rewrite ?IH1, ?IH2, ?IH3, ?IH4, ?IH5; repeat split; reflexivity.
Qed.

(** Grouping by kind only reorders the segments. *)
Lemma segments_grouped_permutation (nodes : list Node) :
  Permutation (omap segmentOf nodes)
    (List.filter (ofKind "heading") (omap segmentOf nodes)
     ++ List.filter (ofKind "paragraph") (omap segmentOf nodes)
     ++ List.filter (ofKind "list") (omap segmentOf nodes)
     ++ List.filter (ofKind "code") (omap segmentOf nodes)
     ++ List.filter (ofKind "image") (omap segmentOf nodes)).
Proof.
  induction nodes as [|n rest IH]; [reflexivity|].
  cbn [omap list_omap].
  destruct (segmentOf_cases n)
    as [(-> & _) | [(-> & _) | [(-> & _) | [(-> & _) | [(-> & _) | (-> & _)]]]]];
    cbn [List.filter]; decide_kinds; cbn iota.
  - constructor. exact IH.
  - apply Permutation_cons_app. exact IH.
  - rewrite (app_assoc (List.filter (ofKind "heading") _)).
    apply Permutation_cons_app. rewrite <- app_assoc. exact IH.
  - rewrite (app_assoc (List.filter (ofKind "heading") _)),
      (app_assoc (List.filter (ofKind "heading") _ ++ _)).
    apply Permutation_cons_app. rewrite <- !app_assoc. exact IH.
  - rewrite (app_assoc (List.filter (ofKind "heading") _)),
      (app_assoc (List.filter (ofKind "heading") _ ++ _)),
      (app_assoc ((List.filter (ofKind "heading") _ ++ _) ++ _)).
    apply Permutation_cons_app. rewrite <- !app_assoc. exact IH.
  - exact IH.
Qed.

End Extraction.

(** C2, as stated, fails: for a paragraph followed by a heading the
    extracted sequence starts with the heading, so it is not the sequence
    of the units in document order. *)
Lemma C2_heading_is_emitted_before_earlier_paragraph :
  ContentScript.extractStructuredContent paragraphThenHeading
    <> extractInDocumentOrder paragraphThenHeading
  /\ (StructuredContentElement.content
        <$> ContentScript.extractStructuredContent paragraphThenHeading)
     = [str "second"; str "first"].
Proof. split; [vm_compute; discriminate | vm_compute; reflexivity]. Qed.

(** C2, amended: for every content tree, the extracted sequence holds
    one segment per recognized unit (heading, paragraph, list, code,
    image), the same segments as the sequence in document order, but
    grouped by kind -- all headings, then all paragraphs, then all lists,
    then all code containers, then all images; within each kind the
    segments are in document order (the depth-first pre-order of the
    tree). *)
Theorem C2_segments_grouped_by_kind_in_document_order (root : ContentScript.Node) :
  ContentScript.extractStructuredContent root
  = segmentsOfKind root "heading" ++ segmentsOfKind root "paragraph"
    ++ segmentsOfKind root "list" ++ segmentsOfKind root "code"
    ++ segmentsOfKind root "image"
  /\ Permutation (ContentScript.extractStructuredContent root)
       (extractInDocumentOrder root).
Proof.
  assert (ContentScript.extractStructuredContent root
          = segmentsOfKind root "heading" ++ segmentsOfKind root "paragraph"
            ++ segmentsOfKind root "list" ++ segmentsOfKind root "code"
            ++ segmentsOfKind root "image") as Hgroups.
  { unfold ContentScript.extractStructuredContent, ContentScript.querySelectorAll,
      segmentsOfKind, extractInDocumentOrder.
    destruct (segmentsOfKind_group (ContentScript.descendants root))
      as (-> & -> & -> & -> & ->).
    reflexivity. }
  split; [exact Hgroups|]. rewrite Hgroups. symmetry.
  apply segments_grouped_permutation.
Qed.

(** ** What a match consumes, and what [split] keeps *)

Section RegexFacts.

Lemma iterate_consumes {A : Type} (P : N -> bool) (body : Matcher A)
    (k : option N -> jsstring -> option A) :
  Consumes P body ->
  forall fuel prev s a,
    iterate body k fuel prev s = Some a ->
    exists pre rest prev',
      s = pre ++ rest /\ forallb P pre = true /\ k prev' rest = Some a.
Proof.
  intros Hbody. induction fuel as [|fuel IH]; intros prev s a; simpl.
  - intros H. exists [], s, prev. repeat split; assumption.
  - destruct (body prev s _) as [b|] eqn:Hturn.
    + intros [= ->]. apply Hbody in Hturn as (pre & rest & prev' & -> & Hpre & Hk).
      destruct (length rest <? length (pre ++ rest))%nat; [|discriminate].
      apply IH in Hk as (pre2 & rest2 & prev2 & -> & Hpre2 & Hk).
      exists (pre ++ pre2), rest2, prev2. rewrite forallb_app, Hpre, Hpre2.
      rewrite app_assoc. repeat split; assumption.
    + intros H. exists [], s, prev. repeat split; assumption.
Qed.

Lemma exec_consumes {A : Type} (P : N -> bool) (r : regex) :
  consumesOnly P r -> Consumes P (@exec A r).
Proof.
  induction r as [|p|r1 IH1 r2 IH2|r1 IH1 r2 IH2|r1 IH1| | | |p];
    intros Hr prev s k a; simpl.
  - intros H. exists [], s, prev. repeat split; assumption.
  - destruct s as [|c s']; [discriminate|].
    destruct (p c) eqn:Hc; [|discriminate]. intros H.
    exists [c], s', (Some c). simpl. rewrite (Hr c Hc). repeat split; assumption.
  - destruct Hr as [Hr1 Hr2]. intros H.
    apply (IH1 Hr1) in H as (pre1 & rest1 & prev1 & -> & Hpre1 & H).
    apply (IH2 Hr2) in H as (pre2 & rest2 & prev2 & -> & Hpre2 & H).
    exists (pre1 ++ pre2), rest2, prev2. rewrite forallb_app, Hpre1, Hpre2.
    rewrite app_assoc. repeat split; assumption.
  - destruct Hr as [Hr1 Hr2].
    destruct (exec r1 prev s k) as [b|] eqn:H1.
    + intros [= ->]. exact (IH1 Hr1 _ _ _ _ H1).
    + intros H. exact (IH2 Hr2 _ _ _ _ H).
  - apply iterate_consumes. exact (IH1 Hr).
  - destruct (atLineStart prev); [|discriminate].
    intros H. exists [], s, prev. repeat split; assumption.
  - destruct (atInputStart prev); [|discriminate].
    intros H. exists [], s, prev. repeat split; assumption.
  - destruct (xorb _ _); [|discriminate].
    intros H. exists [], s, prev. repeat split; assumption.
  - destruct prev as [c|]; [|discriminate]. destruct (p c); [|discriminate].
    intros H. exists [], s, (Some c). repeat split; assumption.
Qed.

(** A match takes a prefix of the input, within [P]. *)
Lemma matchAt_consumes (P : N -> bool) (r : regex) (prev : option N)
    (s : jsstring) (n : nat) :
  consumesOnly P r ->
  matchAt r prev s = Some n ->
  n <= length s /\ forallb P (take n s) = true.
Proof.
  intros Hr H. unfold matchAt in H.
  apply (exec_consumes P r Hr) in H as (pre & rest & prev' & -> & Hpre & [= <-]).
  rewrite length_app.
  replace (length pre + length rest - length rest) with (length pre) by lia.
  split; [lia|]. rewrite take_app_length. exact Hpre.
Qed.

End RegexFacts.

Section ContentFacts.

Lemma contentOf_app (a b : jsstring) : contentOf (a ++ b) = contentOf a ++ contentOf b.
Proof. apply List.filter_app. Qed.

Lemma contentOf_whitespace (s : jsstring) :
  forallb isWhiteSpace s = true -> contentOf s = [].
Proof.
  induction s as [|c s IH]; simpl; [reflexivity|].
  intros H. apply andb_true_iff in H as [Hc Hs]. rewrite Hc. simpl. exact (IH Hs).
Qed.

Lemma contentOf_concat (parts : list jsstring) :
  contentOf (concat parts) = concat (map contentOf parts).
Proof.
  induction parts as [|part rest IH]; simpl; [reflexivity|].
  rewrite contentOf_app, IH. reflexivity.
Qed.

(** [split] by a pattern that matches whitespace only keeps the content,
    in order. *)
Lemma split_loop_content (r : regex) :
  consumesOnly isWhiteSpace r ->
  forall s prev piece skip,
    skip <= length s ->
    forallb isWhiteSpace (take skip s) = true ->
    contentOf (concat (split_loop r prev piece skip s))
    = contentOf (reverse piece ++ drop skip s).
Proof.
  intros Hr. induction s as [|c s IH]; intros prev piece skip Hlen Hws.
  - simpl in Hlen. replace skip with 0 by lia. simpl. rewrite !app_nil_r. reflexivity.
  - destruct skip as [|n].
    + cbn [split_loop]. destruct (matchAt r prev (c :: s)) as [[|m]|] eqn:Hm.
      * assert (contentOf (concat (split_loop r (Some c) [c] 0 s))
                = contentOf (c :: s)) as Hrest.
        { rewrite IH; [reflexivity | lia | reflexivity]. }
        destruct piece as [|d piece].
        -- rewrite Hrest. reflexivity.
        -- cbn [concat]. rewrite contentOf_app, Hrest, contentOf_app. reflexivity.
      * apply (matchAt_consumes isWhiteSpace r prev (c :: s) (S m) Hr) in Hm
          as [Hle Hpre].
        simpl in Hle, Hpre. apply andb_true_iff in Hpre as [Hc Hpre].
        cbn [concat]. rewrite contentOf_app, IH; [|lia|exact Hpre].
        rewrite !contentOf_app. rewrite reverse_nil, app_nil_l.
        f_equal. cbn [drop]. change (c :: s) with ([c] ++ s).
        rewrite contentOf_app, (contentOf_whitespace [c]); [|simpl; rewrite Hc; reflexivity].
        rewrite <- (take_drop m s) at 2.
        rewrite contentOf_app, (contentOf_whitespace _ Hpre). reflexivity.
      * rewrite IH; [|lia|reflexivity]. rewrite reverse_cons. cbn [drop].
        rewrite <- app_assoc. reflexivity.
    + cbn [split_loop]. simpl in Hlen, Hws. apply andb_true_iff in Hws as [Hc Hws].
      rewrite IH; [|lia|exact Hws]. reflexivity.
Qed.

Lemma split_content (r : regex) (s : jsstring) :
  consumesOnly isWhiteSpace r ->
  contentOf (concat (split r s)) = contentOf s.
Proof.
  intros Hr. destruct s as [|c s].
  - unfold split. destruct (matchAt r None []); reflexivity.
  - unfold split. rewrite (split_loop_content r Hr); [reflexivity | simpl; lia | reflexivity].
Qed.

Lemma paragraphBreak_whitespace : consumesOnly isWhiteSpace Helpers.paragraphBreak.
Proof.
  unfold Helpers.paragraphBreak, seq, chr, ws. cbn [foldr consumesOnly].
  repeat split; try (intros c Hc; exact Hc);
    intros c Hc; apply N.eqb_eq in Hc; subst c; reflexivity.
Qed.

Lemma sentenceBreak_whitespace : consumesOnly isWhiteSpace Helpers.sentenceBreak.
Proof.
  unfold Helpers.sentenceBreak, seq, plus, ws. cbn [foldr consumesOnly].
  repeat split; intros c Hc; exact Hc.
Qed.

End ContentFacts.

(** ** The loops of the chunker *)

Section ChunkerFacts.

Import Helpers.

Lemma Step_nil (maxChunkSize : Z) (st : ChunkState) : Step maxChunkSize st [] true st.
Proof.
  unfold Step. rewrite app_nil_r.
  split; [reflexivity|]. split; [intros _; reflexivity | intros H; exact H].
Qed.

Lemma Step_trans (maxChunkSize : Z) (st st1 st2 : ChunkState) (c1 c2 : jsstring)
    (o1 o2 : bool) :
  Step maxChunkSize st c1 o1 st1 ->
  Step maxChunkSize st1 c2 o2 st2 ->
  Step maxChunkSize st (c1 ++ c2) (o1 && o2) st2.
Proof.
  intros (Hp1 & He1 & Hb1) (Hp2 & He2 & Hb2). split; [|split].
  - rewrite Hp2, Hp1, app_assoc. reflexivity.
  - intros Ho. apply andb_true_iff in Ho as [Ho1 Ho2].
    rewrite (He2 Ho2), (He1 Ho1), app_assoc. reflexivity.
  - intros Hb. exact (Hb2 (Hb1 Hb)).
Qed.

Lemma Step_ordered (maxChunkSize : Z) (st st' : ChunkState) (c : jsstring) (o : bool) :
  contentOf (flat st') = contentOf (flat st) ++ c ->
  (bounded maxChunkSize st -> bounded maxChunkSize st') ->
  Step maxChunkSize st c o st'.
Proof.
  intros He Hb. split; [|split].
  - rewrite He. reflexivity.
  - intros _. exact He.
  - exact Hb.
Qed.

Lemma concat_snoc (chunks : list jsstring) (chunk : jsstring) :
  concat (chunks ++ [chunk]) = concat chunks ++ chunk.
Proof. rewrite concat_app. simpl. rewrite app_nil_r. reflexivity. Qed.

(** A [for ... of] loop whose turns all finish finishes, and its turns
    add up. *)
Lemma forEach_steps {A : Type} (maxChunkSize : Z)
    (body : ChunkState -> A -> option ChunkState) (g : A -> jsstring)
    (ok : A -> bool) :
  (forall st x, exists st', body st x = Some st' /\ Step maxChunkSize st (g x) (ok x) st') ->
  forall xs st,
    exists st',
      forEach body xs st = Some st'
      /\ Step maxChunkSize st (concat (map g xs)) (forallb ok xs) st'.
Proof.
  intros Hbody. induction xs as [|x xs IH]; intros st; simpl.
  - exists st. split; [reflexivity | apply Step_nil].
  - destruct (Hbody st x) as (st1 & -> & H1).
    destruct (IH st1) as (st2 & -> & H2).
    exists st2. split; [reflexivity|]. exact (Step_trans _ _ _ _ _ _ _ _ H1 H2).
Qed.

(** The hard cut of a sentence, for a positive size: the loop ends within
    as many turns as the sentence has code units, and it pushes slices of
    at most the size that add up to the sentence. *)
Lemma hardCut_slices (maxChunkSize : Z) :
  (0 < maxChunkSize)%Z ->
  forall fuel remainingSentence chunks,
    length remainingSentence <= fuel ->
    exists slices,
      hardCut fuel maxChunkSize remainingSentence chunks = Some (chunks ++ slices)
      /\ concat slices = remainingSentence
      /\ Forall (fun slice => (Z.of_nat (length slice) <= maxChunkSize)%Z) slices.
Proof.
  intros Hpos. induction fuel as [|fuel IH]; intros s chunks Hfuel.
  - destruct s; [|simpl in Hfuel; lia].
    exists []. rewrite app_nil_r. repeat split. constructor.
  - destruct s as [|c s].
    + exists []. rewrite app_nil_r. repeat split. constructor.
    + cbn [hardCut]. unfold substring_to, substring_from.
      set (n := Z.to_nat maxChunkSize). assert (1 <= n) as Hn by lia.
      destruct (IH (drop n (c :: s)) (chunks ++ [take n (c :: s)])) as (slices & -> & Hcat & Hall).
      { rewrite length_drop. simpl in *. lia. }
      exists (take n (c :: s) :: slices). rewrite <- app_assoc. split; [reflexivity|].
      split.
      * cbn [concat]. rewrite Hcat. apply take_drop.
      * constructor; [|exact Hall]. rewrite length_take. lia.
Qed.

Lemma exceeds_false (n : nat) (maxChunkSize : Z) :
  exceeds n maxChunkSize = false -> (Z.of_nat n <= maxChunkSize)%Z.
Proof. unfold exceeds. intros H. apply Z.ltb_ge in H. exact H. Qed.

Lemma bounded_flush (maxChunkSize : Z) (chunks : list jsstring)
    (currentChunk piece : jsstring) :
  (Z.of_nat (length piece) <= maxChunkSize + 2)%Z ->
  bounded maxChunkSize (chunks, currentChunk) ->
  bounded maxChunkSize (chunks ++ [currentChunk], piece).
Proof.
  intros Hpiece [Hchunks Hcur]. split; simpl in *; [|exact Hpiece].
  apply Forall_app. split; [exact Hchunks | constructor; [exact Hcur | constructor]].
Qed.

(** One turn of the loop over the sentences. *)
Lemma addSentence_step (maxChunkSize : Z) (st : ChunkState) (sentence : jsstring) :
  (0 < maxChunkSize)%Z ->
  exists st',
    addSentence maxChunkSize st sentence = Some st'
    /\ Step maxChunkSize st (contentOf sentence) (fits maxChunkSize sentence) st'.
Proof.
  intros Hpos. destruct st as [chunks currentChunk]. unfold addSentence, fits.
  destruct (exceeds (length sentence) maxChunkSize) eqn:Hbig.
  - destruct (hardCut_slices maxChunkSize Hpos (length sentence) sentence chunks (le_n _))
      as (slices & -> & Hcat & Hall).
    exists (chunks ++ slices, currentChunk). split; [reflexivity|].
    unfold Step, flat. simpl fst. simpl snd.
    rewrite concat_app, Hcat, !contentOf_app. split; [|split].
    + rewrite <- !app_assoc. apply Permutation_app_head, Permutation_app_comm.
    + discriminate.
    + intros [Hchunks Hcur]. split; [|exact Hcur]. simpl in *.
      apply Forall_app. split; [exact Hchunks|].
      eapply Forall_impl; [|exact Hall]. simpl. intros slice Hs. lia.
  - apply exceeds_false in Hbig.
    destruct (exceeds (length currentChunk + length sentence) maxChunkSize) eqn:Hfull.
    + exists (chunks ++ [currentChunk], sentence). split; [reflexivity|].
      apply Step_ordered.
      * unfold flat. simpl. rewrite concat_snoc, !contentOf_app. reflexivity.
      * apply bounded_flush. lia.
    + apply exceeds_false in Hfull. eexists. split; [reflexivity|].
      apply Step_ordered.
      * unfold flat. simpl. rewrite !contentOf_app.
        rewrite (contentOf_whitespace (if truthy currentChunk then str " " else []));
          [|destruct (truthy currentChunk); reflexivity].
        rewrite app_assoc. reflexivity.
      * intros [Hchunks _]. split; [exact Hchunks|]. simpl.
        rewrite !length_app.
        assert (length (if truthy currentChunk then str " " else []) <= 1)
          by (destruct (truthy currentChunk); simpl; lia).
        lia.
Qed.

(** One turn of the loop over the paragraphs. *)
Lemma addParagraph_step (maxChunkSize : Z) (st : ChunkState) (paragraph : jsstring) :
  (0 < maxChunkSize)%Z ->
  exists st',
    addParagraph maxChunkSize st paragraph = Some st'
    /\ Step maxChunkSize st (contentOf paragraph)
         (paragraphOrdered maxChunkSize paragraph) st'.
Proof.
  intros Hpos. destruct st as [chunks currentChunk].
  unfold addParagraph, paragraphOrdered, fits at 1.
  destruct (exceeds (length paragraph) maxChunkSize) eqn:Hbig.
  - destruct (forEach_steps maxChunkSize (addSentence maxChunkSize) contentOf
                (fits maxChunkSize)
                (fun st x => addSentence_step maxChunkSize st x Hpos)
                (split sentenceBreak paragraph) (chunks, currentChunk))
      as (st' & -> & Hstep).
    exists st'. split; [reflexivity|].
    rewrite <- contentOf_concat, (split_content _ _ sentenceBreak_whitespace) in Hstep.
    exact Hstep.
  - apply exceeds_false in Hbig.
    destruct (exceeds (length currentChunk + length paragraph) maxChunkSize) eqn:Hfull.
    + exists (chunks ++ [currentChunk], paragraph). split; [reflexivity|].
      apply Step_ordered.
      * unfold flat. simpl. rewrite concat_snoc, !contentOf_app. reflexivity.
      * apply bounded_flush. lia.
    + apply exceeds_false in Hfull. eexists. split; [reflexivity|].
      apply Step_ordered.
      * unfold flat. simpl. rewrite !contentOf_app.
        rewrite (contentOf_whitespace (if truthy currentChunk then [LF; LF] else []));
          [|destruct (truthy currentChunk); reflexivity].
        rewrite app_assoc. reflexivity.
      * intros [Hchunks _]. split; [exact Hchunks|]. simpl.
        rewrite !length_app.
        assert (length (if truthy currentChunk then [LF; LF] else []) <= 2)
          by (destruct (truthy currentChunk); simpl; lia).
        lia.
Qed.

(** The chunker as a whole, for a positive size. *)
Lemma splitTextIntoChunks_spec (text : jsstring) (maxChunkSize : Z) :
  (0 < maxChunkSize)%Z ->
  exists chunks,
    splitTextIntoChunks text maxChunkSize = Some chunks
    /\ Permutation (contentOf (concat chunks)) (contentOf text)
    /\ (hardCutFree text maxChunkSize = true ->
        contentOf (concat chunks) = contentOf text)
    /\ Forall (fun chunk => (Z.of_nat (length chunk) <= maxChunkSize + 2)%Z) chunks.
Proof.
  intros Hpos. unfold splitTextIntoChunks.
  destruct (exceeds (length text) maxChunkSize) eqn:Hbig; simpl.
  - destruct (forEach_steps maxChunkSize (addParagraph maxChunkSize) contentOf
                (paragraphOrdered maxChunkSize)
                (fun st x => addParagraph_step maxChunkSize st x Hpos)
                (split paragraphBreak text) ([], []))
      as ([chunks currentChunk] & -> & Hperm & Heq & Hbound).
    rewrite <- contentOf_concat, (split_content _ _ paragraphBreak_whitespace) in Hperm, Heq.
    unfold flat in Hperm, Heq. simpl in Hperm, Heq.
    destruct Hbound as [Hchunks Hcur]; [split; [constructor | simpl; lia]|].
    simpl in Hchunks, Hcur.
    assert (concat (if truthy currentChunk then chunks ++ [currentChunk] else chunks)
            = concat chunks ++ currentChunk) as Hflat.
    { destruct currentChunk; simpl; [rewrite app_nil_r; reflexivity | apply concat_snoc]. }
    eexists. split; [reflexivity|]. rewrite Hflat.
    split; [exact Hperm|]. split; [exact Heq|].
    destruct (truthy currentChunk); [|exact Hchunks].
    apply Forall_app. split; [exact Hchunks | constructor; [exact Hcur | constructor]].
  - apply exceeds_false in Hbig. exists [text]. split; [reflexivity|].
    simpl. rewrite app_nil_r. split; [reflexivity|]. split; [reflexivity|].
    constructor; [lia | constructor].
Qed.

End ChunkerFacts.

(** ** The chunks as groups of pieces *)

Section PiecesFacts.

Import Helpers.

Lemma joined_snoc (group : list Piece) (piece : Piece) :
  joined (group ++ [piece])
  = joined group ++ (if truthy (joined group) then piece.1 else []) ++ piece.2.
Proof. unfold joined. rewrite foldl_app. reflexivity. Qed.

Lemma joined_one (piece : Piece) : joined [piece] = piece.2.
Proof. reflexivity. Qed.

Lemma filter_truthy_snoc (chunks : list jsstring) (chunk : jsstring) :
  List.filter truthy (chunks ++ [chunk])
  = List.filter truthy chunks ++ (if truthy chunk then [chunk] else []).
Proof. rewrite List.filter_app. simpl. destruct (truthy chunk); reflexivity. Qed.

Lemma hardCut_slices_eq (maxChunkSize : Z) :
  (0 < maxChunkSize)%Z ->
  forall fuel remainingSentence chunks,
    length remainingSentence <= fuel ->
    hardCut fuel maxChunkSize remainingSentence chunks
    = Some (chunks ++ slices fuel maxChunkSize remainingSentence)
    /\ Forall (fun slice => truthy slice = true)
         (slices fuel maxChunkSize remainingSentence)
    /\ concat (slices fuel maxChunkSize remainingSentence) = remainingSentence.
Proof.
  intros Hpos. induction fuel as [|fuel IH]; intros s chunks Hfuel.
  - destruct s; [|simpl in Hfuel; lia]. simpl. rewrite app_nil_r.
    repeat split. constructor.
  - destruct s as [|c s].
    + simpl. rewrite app_nil_r. repeat split. constructor.
    + cbn [hardCut slices].
      destruct (IH (substring_from (c :: s) maxChunkSize)
                  (chunks ++ [substring_to (c :: s) maxChunkSize]))
        as (Hcut & Hall & Hcat).
      { unfold substring_from. rewrite length_drop. simpl in *. lia. }
      rewrite Hcut, <- app_assoc. split; [reflexivity|]. split.
      * constructor; [|exact Hall]. unfold substring_to.
        destruct (Z.to_nat maxChunkSize) as [|n] eqn:Hn; [lia|]. reflexivity.
      * cbn [concat]. rewrite Hcat. apply take_drop.
Qed.

Lemma filter_truthy_singletons (parts : list jsstring) :
  Forall (fun part => truthy part = true) parts ->
  List.filter truthy (map joined (map (fun part => [(([] : jsstring), part)]) parts))
  = parts.
Proof.
  induction 1 as [|part parts Hpart _ IH]; simpl; [reflexivity|].
  change (joined [([], part)]) with part. rewrite Hpart, IH. reflexivity.
Qed.

Lemma concat_singletons (parts : list jsstring) :
  concat (map (fun part => [(([] : jsstring), part)]) parts) = map (pair []) parts.
Proof.
  induction parts as [|part parts IH]; simpl; [reflexivity | rewrite IH; reflexivity].
Qed.

(** A piece that fits is taken up by the running chunk or starts a new
    one. *)
Lemma Holds_fitting (maxChunkSize : Z) (chunks : list jsstring)
    (currentChunk : jsstring) (ps : list Piece) (piece : Piece) :
  fits maxChunkSize piece.2 = true ->
  Holds (chunks, currentChunk) ps ->
  Holds
    (if exceeds (length currentChunk + length piece.2) maxChunkSize
     then (chunks ++ [currentChunk], piece.2)
     else (chunks,
           currentChunk ++ (if truthy currentChunk then piece.1 else []) ++ piece.2))
    (ps ++ [piece]).
Proof.
  intros Hfits (groups & last & Hps & Hchunks & Hcur). simpl in Hchunks, Hcur.
  destruct (exceeds (length currentChunk + length piece.2) maxChunkSize) eqn:Hfull.
  - exists (groups ++ [last]), [piece]. simpl. split; [|split].
    + rewrite concat_app. simpl. rewrite app_nil_r, Hps. reflexivity.
    + rewrite map_app. cbn [map]. rewrite filter_truthy_snoc, <- Hchunks, <- Hcur.
      assert (truthy currentChunk = true) as ->; [|reflexivity].
      unfold fits, exceeds in *. apply negb_true_iff, Z.ltb_ge in Hfits.
      apply Z.ltb_lt in Hfull. destruct currentChunk; [simpl in Hfull; lia | reflexivity].
    + reflexivity.
  - exists groups, (last ++ [piece]). simpl. split; [|split].
    + rewrite app_assoc, Hps. reflexivity.
    + exact Hchunks.
    + rewrite joined_snoc, <- Hcur. reflexivity.
Qed.

Lemma addSentence_holds (maxChunkSize : Z) (st : ChunkState) (ps : list Piece)
    (sentence : jsstring) :
  (0 < maxChunkSize)%Z ->
  Holds st ps ->
  fits maxChunkSize sentence || negb (truthy st.2) = true ->
  exists st',
    addSentence maxChunkSize st sentence = Some st'
    /\ Holds st' (ps ++ sentencePieces maxChunkSize sentence).
Proof.
  intros Hpos Hst Hok. destruct st as [chunks currentChunk].
  unfold addSentence, sentencePieces, fits in *.
  destruct (exceeds (length sentence) maxChunkSize) eqn:Hbig; simpl negb in *.
  - simpl in Hok. apply negb_true_iff in Hok.
    destruct (hardCut_slices_eq maxChunkSize Hpos (length sentence) sentence chunks
                (le_n _)) as (-> & Hall & _).
    eexists. split; [reflexivity|].
    destruct Hst as (groups & last & Hps & Hchunks & Hcur). simpl in Hchunks, Hcur.
    exists ((groups ++ [last])
            ++ map (fun part => [(([] : jsstring), part)])
                 (slices (length sentence) maxChunkSize sentence)), [].
    simpl. split; [|split].
    + rewrite app_nil_r, !concat_app. simpl. rewrite app_nil_r, Hps.
      rewrite concat_singletons. reflexivity.
    + rewrite !map_app, !List.filter_app. simpl map.
      rewrite <- Hchunks, (filter_truthy_singletons _ Hall).
      simpl. rewrite <- Hcur, Hok. f_equal. symmetry. apply List.app_nil_r.
    + destruct currentChunk; [reflexivity | discriminate].
  - assert (fits maxChunkSize sentence = true) as Hfits
      by (unfold fits; rewrite Hbig; reflexivity).
    pose proof (Holds_fitting maxChunkSize chunks currentChunk ps (str " ", sentence)
                  Hfits Hst) as H.
    cbn [fst snd] in H.
    destruct (exceeds (length currentChunk + length sentence) maxChunkSize);
      eexists; (split; [reflexivity | exact H]).
Qed.

Lemma sentences_hold (maxChunkSize : Z) :
  (0 < maxChunkSize)%Z ->
  forall sentences st ps,
    Holds st ps ->
    sentencesCutInOrder maxChunkSize sentences st = true ->
    exists st',
      forEach (addSentence maxChunkSize) sentences st = Some st'
      /\ Holds st' (ps ++ flat_map (sentencePieces maxChunkSize) sentences).
Proof.
  intros Hpos. induction sentences as [|sentence rest IH]; intros st ps Hst Hok.
  - exists st. simpl. rewrite app_nil_r. split; [reflexivity | exact Hst].
  - cbn [sentencesCutInOrder] in Hok. apply andb_true_iff in Hok as [Hhere Hrest].
    destruct (addSentence_holds maxChunkSize st ps sentence Hpos Hst Hhere)
      as (st1 & Hadd & Hst1).
    rewrite Hadd in Hrest. destruct (IH st1 _ Hst1 Hrest) as (st2 & Hloop & Hst2).
    exists st2. cbn [forEach flat_map]. rewrite Hadd. split; [exact Hloop|].
    rewrite app_assoc. exact Hst2.
Qed.

Lemma addParagraph_holds (maxChunkSize : Z) (st : ChunkState) (ps : list Piece)
    (paragraph : jsstring) :
  (0 < maxChunkSize)%Z ->
  Holds st ps ->
  fits maxChunkSize paragraph
  || sentencesCutInOrder maxChunkSize (split sentenceBreak paragraph) st = true ->
  exists st',
    addParagraph maxChunkSize st paragraph = Some st'
    /\ Holds st' (ps ++ paragraphPieces maxChunkSize paragraph).
Proof.
  intros Hpos Hst Hok. destruct st as [chunks currentChunk].
  unfold addParagraph, paragraphPieces, fits in *.
  destruct (exceeds (length paragraph) maxChunkSize) eqn:Hbig; simpl negb in *.
  - simpl in Hok. exact (sentences_hold maxChunkSize Hpos _ _ ps Hst Hok).
  - assert (fits maxChunkSize paragraph = true) as Hfits
      by (unfold fits; rewrite Hbig; reflexivity).
    pose proof (Holds_fitting maxChunkSize chunks currentChunk ps ([LF; LF], paragraph)
                  Hfits Hst) as H.
    cbn [fst snd] in H.
    destruct (exceeds (length currentChunk + length paragraph) maxChunkSize);
      eexists; (split; [reflexivity | exact H]).
Qed.

Lemma paragraphs_hold (maxChunkSize : Z) :
  (0 < maxChunkSize)%Z ->
  forall paragraphs st ps,
    Holds st ps ->
    paragraphsCutInOrder maxChunkSize paragraphs st = true ->
    exists st',
      forEach (addParagraph maxChunkSize) paragraphs st = Some st'
      /\ Holds st' (ps ++ flat_map (paragraphPieces maxChunkSize) paragraphs).
Proof.
  intros Hpos. induction paragraphs as [|paragraph rest IH]; intros st ps Hst Hok.
  - exists st. simpl. rewrite app_nil_r. split; [reflexivity | exact Hst].
  - cbn [paragraphsCutInOrder] in Hok. apply andb_true_iff in Hok as [Hhere Hrest].
    destruct (addParagraph_holds maxChunkSize st ps paragraph Hpos Hst Hhere)
      as (st1 & Hadd & Hst1).
    rewrite Hadd in Hrest. destruct (IH st1 _ Hst1 Hrest) as (st2 & Hloop & Hst2).
    exists st2. cbn [forEach flat_map]. rewrite Hadd. split; [exact Hloop|].
    rewrite app_assoc. exact Hst2.
Qed.

End PiecesFacts.

Section RebuildsFacts.

Import Helpers.

Lemma Rebuilds_gap (gap text : jsstring) (ps : list jsstring) :
  forallb isWhiteSpace gap = true -> Rebuilds text ps -> Rebuilds (gap ++ text) ps.
Proof.
  intros Hgap [gap' Hgap' | gap' piece rest ps' Hgap' Hrest].
  - constructor. rewrite forallb_app, Hgap, Hgap'. reflexivity.
  - rewrite app_assoc. constructor; [|exact Hrest].
    rewrite forallb_app, Hgap, Hgap'. reflexivity.
Qed.

Lemma Rebuilds_app (text1 text2 : jsstring) (ps1 ps2 : list jsstring) :
  Rebuilds text1 ps1 -> Rebuilds text2 ps2 -> Rebuilds (text1 ++ text2) (ps1 ++ ps2).
Proof.
  intros H1 H2. induction H1 as [gap Hgap | gap piece rest ps Hgap Hrest IH].
  - apply Rebuilds_gap; assumption.
  - rewrite <- !app_assoc. simpl. constructor; assumption.
Qed.

Lemma Rebuilds_one (piece : jsstring) : Rebuilds piece [piece].
Proof.
  pose proof (Rebuilds_cons [] piece [] [] eq_refl (Rebuilds_nil [] eq_refl)) as H.
  simpl in H. rewrite List.app_nil_r in H. exact H.
Qed.

Lemma Rebuilds_concat (ps : list jsstring) : Rebuilds (concat ps) ps.
Proof.
  induction ps as [|piece ps IH]; simpl.
  - constructor. reflexivity.
  - apply (Rebuilds_cons [] piece (concat ps) ps); [reflexivity | exact IH].
Qed.

Lemma Rebuilds_flat_map (f : jsstring -> list jsstring) (text : jsstring)
    (ps : list jsstring) :
  (forall piece, Rebuilds piece (f piece)) ->
  Rebuilds text ps -> Rebuilds text (flat_map f ps).
Proof.
  intros Hf H. induction H as [gap Hgap | gap piece rest ps Hgap Hrest IH]; simpl.
  - constructor. exact Hgap.
  - apply Rebuilds_gap; [exact Hgap|]. apply Rebuilds_app; [apply Hf | exact IH].
Qed.

Lemma Rebuilds_content (text : jsstring) (ps : list jsstring) :
  Rebuilds text ps -> contentOf text = contentOf (concat ps).
Proof.
  induction 1 as [gap Hgap | gap piece rest ps Hgap Hrest IH]; simpl.
  - apply contentOf_whitespace. exact Hgap.
  - rewrite !contentOf_app, (contentOf_whitespace gap Hgap), IH. reflexivity.
Qed.

(** [split] by a pattern that matches whitespace only: what it has
    gathered for the piece at hand, then a stretch of the text, is its
    first piece, and the other pieces rebuild the rest. *)
Lemma split_loop_rebuilds (r : regex) :
  consumesOnly isWhiteSpace r ->
  forall s prev piece skip,
    skip <= length s ->
    exists first rest tail,
      split_loop r prev piece skip s = (reverse piece ++ first) :: rest
      /\ drop skip s = first ++ tail
      /\ Rebuilds tail rest.
Proof.
  intros Hr. induction s as [|c s IH]; intros prev piece skip Hlen.
  - exists [], [], []. simpl. rewrite app_nil_r, drop_nil.
    repeat split. constructor. reflexivity.
  - destruct skip as [|n].
    + cbn [split_loop drop]. destruct (matchAt r prev (c :: s)) as [[|m]|] eqn:Hm.
      * destruct (IH (Some c) [c] 0) as (first & rest & tail & Hloop & Hdrop & Htail);
          [lia|].
        rewrite drop_0 in Hdrop. destruct piece as [|d piece].
        -- exists (c :: first), rest, tail. rewrite Hloop, Hdrop.
           repeat split. exact Htail.
        -- exists [], ((c :: first) :: rest), (c :: s). rewrite Hloop, app_nil_r.
           repeat split. rewrite Hdrop.
           apply (Rebuilds_cons [] (c :: first) tail rest); [reflexivity | exact Htail].
      * apply (matchAt_consumes isWhiteSpace r prev (c :: s) (S m) Hr) in Hm
          as [Hle Hpre].
        simpl in Hle.
        destruct (IH (Some c) [] m) as (first & rest & tail & Hloop & Hdrop & Htail);
          [lia|].
        exists [], (first :: rest), (c :: s). rewrite Hloop, app_nil_r.
        repeat split.
        rewrite <- (take_drop (S m) (c :: s)). cbn [drop]. rewrite Hdrop.
        apply Rebuilds_cons; [exact Hpre | exact Htail].
      * destruct (IH (Some c) (c :: piece) 0) as (first & rest & tail & Hloop & Hdrop & Htail);
          [lia|].
        rewrite drop_0 in Hdrop.
        exists (c :: first), rest, tail. rewrite Hloop, Hdrop, reverse_cons, <- app_assoc.
        repeat split. exact Htail.
    + cbn [split_loop drop]. simpl in Hlen. apply (IH (Some c) piece n). lia.
Qed.

Lemma split_rebuilds (r : regex) (s : jsstring) :
  consumesOnly isWhiteSpace r -> Rebuilds s (split r s).
Proof.
  intros Hr. destruct s as [|c s].
  - unfold split. destruct (matchAt r None []).
    + constructor. reflexivity.
    + apply Rebuilds_one.
  - unfold split.
    destruct (split_loop_rebuilds r Hr (c :: s) None [] 0) as
      (first & rest & tail & -> & Hdrop & Htail); [simpl; lia|].
    rewrite drop_0 in Hdrop. rewrite Hdrop. simpl.
    apply (Rebuilds_cons [] first tail rest); [reflexivity | exact Htail].
Qed.

Lemma map_snd_flat_map {A B C : Type} (f : A -> list (B * C)) (xs : list A) :
  map snd (flat_map f xs) = flat_map (fun x => map snd (f x)) xs.
Proof.
  induction xs as [|x xs IH]; simpl; [reflexivity|]. rewrite map_app, IH. reflexivity.
Qed.

Lemma pieces_map_snd (maxChunkSize : Z) (text : jsstring) :
  map snd (pieces maxChunkSize text)
  = flat_map
      (fun paragraph =>
         if fits maxChunkSize paragraph then [paragraph]
         else flat_map
                (fun sentence =>
                   if fits maxChunkSize sentence then [sentence]
                   else slices (length sentence) maxChunkSize sentence)
                (split sentenceBreak paragraph))
      (split paragraphBreak text).
Proof.
  unfold pieces. etransitivity; [apply map_snd_flat_map|].
  apply List.flat_map_ext. intros paragraph.
  unfold paragraphPieces. destruct (fits maxChunkSize paragraph); [reflexivity|].
  etransitivity; [apply map_snd_flat_map|].
  apply List.flat_map_ext. intros sentence.
  unfold sentencePieces. destruct (fits maxChunkSize sentence); [reflexivity|].
  rewrite List.map_map. simpl. apply List.map_id.
Qed.

(** The pieces of a text rebuild it. *)
Lemma pieces_rebuild (maxChunkSize : Z) (text : jsstring) :
  (0 < maxChunkSize)%Z ->
  Rebuilds text (map snd (pieces maxChunkSize text)).
Proof.
  intros Hpos. rewrite pieces_map_snd.
  apply Rebuilds_flat_map; [|exact (split_rebuilds _ _ paragraphBreak_whitespace)].
  intros paragraph. destruct (fits maxChunkSize paragraph); [apply Rebuilds_one|].
  apply Rebuilds_flat_map; [|exact (split_rebuilds _ _ sentenceBreak_whitespace)].
  intros sentence. destruct (fits maxChunkSize sentence); [apply Rebuilds_one|].
  destruct (hardCut_slices_eq maxChunkSize Hpos (length sentence) sentence [] (le_n _))
    as (_ & _ & Hcat).
  rewrite <- Hcat at 1. apply Rebuilds_concat.
Qed.

Lemma pieces_separators (maxChunkSize : Z) (text : jsstring) :
  Forall (fun piece : Piece => forallb isWhiteSpace piece.1 = true)
    (pieces maxChunkSize text).
Proof.
  unfold pieces. apply List.Forall_flat_map, List.Forall_forall. intros paragraph _.
  unfold paragraphPieces. destruct (fits maxChunkSize paragraph).
  - constructor; [reflexivity | constructor].
  - apply List.Forall_flat_map, List.Forall_forall. intros sentence _.
    unfold sentencePieces. destruct (fits maxChunkSize sentence).
    + constructor; [reflexivity | constructor].
    + apply List.Forall_forall. intros piece Hin.
      apply List.in_map_iff in Hin as (slice & <- & _). reflexivity.
Qed.

Lemma joined_content (group : list Piece) :
  Forall (fun piece : Piece => forallb isWhiteSpace piece.1 = true) group ->
  contentOf (joined group) = contentOf (concat (map snd group)).
Proof.
  induction group as [|piece group IH] using rev_ind; intros Hall; [reflexivity|].
  apply Forall_app in Hall as [Hgroup Hpiece].
  apply List.Forall_inv in Hpiece.
  rewrite joined_snoc, map_app, concat_app, !contentOf_app, (IH Hgroup).
  simpl. rewrite app_nil_r.
  rewrite (contentOf_whitespace (if truthy (joined group) then piece.1 else []));
    [reflexivity|].
  destruct (truthy (joined group)); [exact Hpiece | reflexivity].
Qed.

Lemma groups_content (groups : list (list Piece)) :
  Forall (fun piece : Piece => forallb isWhiteSpace piece.1 = true) (concat groups) ->
  contentOf (concat (List.filter truthy (map joined groups)))
  = contentOf (concat (map snd (concat groups))).
Proof.
  induction groups as [|group groups IH]; intros Hall; [reflexivity|].
  cbn [concat] in Hall. apply Forall_app in Hall as [Hgroup Hgroups].
  pose proof (joined_content group Hgroup) as Hjoined.
  specialize (IH Hgroups).
  cbn [concat map]. rewrite map_app, concat_app, contentOf_app, <- IH, <- Hjoined.
  cbn [List.filter]. destruct (joined group) as [|c chunk]; [reflexivity|].
  cbn [truthy concat]. rewrite contentOf_app. reflexivity.
Qed.

End RebuildsFacts.

(** ** The chunker: the claims *)

(** With a size of 0 the hard cut of a sentence never ends. *)
Lemma size_zero_never_returns : Helpers.splitTextIntoChunks (str "a") 0 = None.
Proof. reflexivity. Qed.

(** The slip in the hard cut: a sentence longer than [maxChunkSize] is cut
    and its slices are pushed at once, while the sentences before it still
    wait in the running chunk, which is pushed after them.  The chunks of
    [Hi. abcdefghij] at size 5 are [abcde], [fghij], [Hi.]: joined in
    order they give the content [abcdefghijHi.], not that of the text. *)
Lemma hard_cut_slices_overtake_the_running_chunk :
  Helpers.splitTextIntoChunks shortThenLong 5
    = Some [str "abcde"; str "fghij"; str "Hi."]
  /\ ((fun chunks => contentOf (concat chunks))
        <$> Helpers.splitTextIntoChunks shortThenLong 5)
     = Some (str "abcdefghijHi.")
  /\ contentOf shortThenLong = str "Hi.abcdefghij".
Proof. vm_compute. repeat split; reflexivity. Qed.

(** C3, as stated, fails: nothing of [spacedParagraphs] is hard-cut at
    size 10, and its one chunk differs from the text in the whitespace of
    the paragraph break, which comes back as two newlines. *)
Lemma C3_whitespace_of_a_paragraph_break_is_not_kept :
  hardCutFree spacedParagraphs 10 = true
  /\ Helpers.splitTextIntoChunks spacedParagraphs 10
     = Some [str "aaaa" ++ [LF; LF] ++ str "bbbb"]
  /\ str "aaaa" ++ [LF; LF] ++ str "bbbb" <> spacedParagraphs.
Proof. vm_compute. repeat split; try reflexivity. discriminate. Qed.

(** C3, amended: for every text and every positive [maxChunkSize] such
    that no sentence is cut while the running chunk holds something, the
    call returns.  A text of at most [maxChunkSize] code units comes back
    as the one chunk it is.  A longer text comes back as its pieces in
    groups: the pieces are its paragraphs, for a paragraph longer than
    [maxChunkSize] its sentences, and for a sentence longer than
    [maxChunkSize] its slices of [maxChunkSize] code units; they rebuild
    the text, with nothing but whitespace between them; the chunks are
    these pieces in the order of the text, each piece unchanged, in
    consecutive groups, and a chunk is its group joined by two newlines
    before a paragraph, one space before a sentence and nothing before a
    slice (and nothing as long as the chunk is empty).  So what matched at
    a paragraph break or a sentence break comes back as two newlines or
    one space inside a chunk and is dropped at a chunk boundary, and the
    chunks in their order hold the non-whitespace code units of the
    text, all of them and in the same order. *)
Theorem C3_chunks_keep_the_content_in_order (text : jsstring) (maxChunkSize : Z) :
  (0 < maxChunkSize)%Z ->
  cutsInOrder text maxChunkSize = true ->
  exists chunks,
    Helpers.splitTextIntoChunks text maxChunkSize = Some chunks
    /\ (fits maxChunkSize text = true -> chunks = [text])
    /\ (fits maxChunkSize text = false ->
        exists groups,
          concat groups = pieces maxChunkSize text
          /\ chunks = List.filter truthy (map joined groups))
    /\ Rebuilds text (map snd (pieces maxChunkSize text))
    /\ contentOf (concat chunks) = contentOf text.
Proof.
  intros Hpos Horder. unfold Helpers.splitTextIntoChunks, fits.
  pose proof (pieces_rebuild maxChunkSize text Hpos) as Hrebuilds.
  destruct (Helpers.exceeds (length text) maxChunkSize) eqn:Hbig; simpl negb; cbv iota.
  - destruct (paragraphs_hold maxChunkSize Hpos
                (split Helpers.paragraphBreak text) ([], []) [])
      as ([chunks currentChunk] & -> & groups & last & Hps & Hchunks & Hcur).
    { exists [], []. repeat split. }
    { exact Horder. }
    simpl in Hps, Hchunks, Hcur. fold (pieces maxChunkSize text) in Hps.
    assert ((if truthy currentChunk then chunks ++ [currentChunk] else chunks)
            = List.filter truthy (map joined (groups ++ [last]))) as Hresult.
    { rewrite map_app. cbn [map]. rewrite filter_truthy_snoc, <- Hchunks, <- Hcur.
      destruct (truthy currentChunk); [reflexivity | rewrite app_nil_r; reflexivity]. }
    assert (concat (groups ++ [last]) = pieces maxChunkSize text) as Hgroups.
    { rewrite concat_app. simpl. rewrite app_nil_r. exact Hps. }
    eexists. split; [reflexivity|]. split; [discriminate|].
    split; [intros _; exists (groups ++ [last]); split; assumption|].
    split; [exact Hrebuilds|].
    rewrite Hresult, groups_content, Hgroups.
    + symmetry. apply Rebuilds_content. exact Hrebuilds.
    + rewrite Hgroups. apply pieces_separators.
  - exists [text]. split; [reflexivity|]. split; [reflexivity|].
    split; [discriminate|]. split; [exact Hrebuilds|].
    simpl. rewrite app_nil_r. reflexivity.
Qed.

(** The theorem at work on [cutThenJoined]: its first sentence is cut,
    the two short sentences and the last paragraph are joined. *)
Lemma C3_chunks_keep_the_content_in_order_witness :
  Helpers.splitTextIntoChunks cutThenJoined 10
  = Some [str "abcdefghij"; str "klmnop!"; str "Hi. Yo." ++ [LF; LF] ++ str "Bye"]
  /\ exists chunks,
       Helpers.splitTextIntoChunks cutThenJoined 10 = Some chunks
       /\ (fits 10 cutThenJoined = true -> chunks = [cutThenJoined])
       /\ (fits 10 cutThenJoined = false ->
           exists groups,
             concat groups = pieces 10 cutThenJoined
             /\ chunks = List.filter truthy (map joined groups))
       /\ Rebuilds cutThenJoined (map snd (pieces 10 cutThenJoined))
       /\ contentOf (concat chunks) = contentOf cutThenJoined.
Proof.
  split; [vm_compute; reflexivity|].
  apply (C3_chunks_keep_the_content_in_order cutThenJoined 10).
  - reflexivity.
  - vm_compute. reflexivity.
Defined.

(** C4 on the code: the test that decides whether a piece still fits
    compares [currentChunk.length + piece.length] with [maxChunkSize] and
    leaves the separator out, so a chunk can be one or two code units
    longer than [maxChunkSize].  Two paragraphs of 2000 code units come
    back as one chunk of 4002, and the passage of 9000 code units starts
    with a chunk of 4001. *)
Theorem C4_chunk_longer_than_maxChunkSize :
  Helpers.splitTextIntoChunks twoParagraphs 4000 = Some [twoParagraphs]
  /\ Z.of_nat (length twoParagraphs) = 4002%Z
  /\ Z.of_nat (length fourSentences) = 9000%Z
  /\ (map (fun chunk => Z.of_nat (length chunk))
        <$> Helpers.splitTextIntoChunks fourSentences 4000)
     = Some [4001; 2499; 2498]%Z.
Proof. vm_compute. repeat split; reflexivity. Qed.

(** ** The storage: keys, eviction, the cache and the context store *)

Section StorageFacts.

Import Storage.

Lemma pageKey_not_recentPagesKey (url : jsstring) : pageKey url <> recentPagesKey.
Proof. unfold pageKey, recentPagesKey. vm_compute (str _). discriminate. Qed.

Lemma pageKey_not_cache (url : jsstring) : startsWith (str "cache_") (pageKey url) = false.
Proof. reflexivity. Qed.

Lemma recentPagesKey_not_cache : startsWith (str "cache_") recentPagesKey = false.
Proof. reflexivity. Qed.

Lemma cacheKey_is_cache (text : jsstring) : startsWith (str "cache_") (cacheKey text) = true.
Proof. reflexivity. Qed.

(** The keys collected by the loop of [manageCache]. *)
Lemma keysToRemove_spec (now : Z) (m : gmap jsstring Stored) (k : jsstring) :
  k ∈ map fst (List.filter (fun '(key, value) => toRemove now key value)
                 (map_to_list m))
  <-> exists v, m !! k = Some v /\ toRemove now k v = true.
Proof.
  rewrite list_elem_of_In, in_map_iff. split.
  - intros [[k' v] [Hk Hin]]. simpl in Hk. subst k'.
    apply filter_In in Hin as [Hin Hrm].
    apply list_elem_of_In, elem_of_map_to_list in Hin. eauto.
  - intros [v [Hv Hrm]]. exists (k, v). split; [reflexivity|].
    apply filter_In. split; [|exact Hrm].
    apply list_elem_of_In, elem_of_map_to_list. exact Hv.
Qed.

(** What [manageCache] leaves under each key. *)
Lemma manageCache_lookup (now : Z) (st : t) (k : jsstring) :
  local (manageCache now st) !! k
  = match local st !! k with
    | Some v => if toRemove now k v then None else Some v
    | None => None
    end.
Proof.
  unfold manageCache.
  pose proof (keysToRemove_spec now (local st) k) as Hspec.
  destruct (map fst _) as [|key keys] eqn:Hkeys.
  - destruct (local st !! k) as [v|] eqn:Hv; [|reflexivity].
    destruct (toRemove now k v) eqn:Hrm; [|reflexivity].
    exfalso. apply (not_elem_of_nil k). apply Hspec. eauto.
  - cbn [local with_local]. destruct (decide (k ∈ key :: keys)) as [Hin | Hout].
    + rewrite (lookup_foldr_delete _ _ _ Hin).
      apply Hspec in Hin as [v [-> ->]]. reflexivity.
    + rewrite (lookup_foldr_delete_not_elem_of _ _ _ Hout).
      destruct (local st !! k) as [v|] eqn:Hv; [|reflexivity].
      destruct (toRemove now k v) eqn:Hrm; [|reflexivity].
      exfalso. apply Hout, Hspec. eauto.
Qed.

Lemma manageCache_sync (now : Z) (st : t) : sync (manageCache now st) = sync st.
Proof. unfold manageCache. destruct (map fst _); reflexivity. Qed.

Lemma toRemove_cache_entry (now : Z) (k : jsstring) (e : TranslationResult.t) :
  toRemove now k (StoredCache e)
  = startsWith (str "cache_") k
    && negb (TranslationResult.timestamp e =? 0)%Z
    && (expirationTime <? now - TranslationResult.timestamp e)%Z.
Proof. reflexivity. Qed.

Lemma toRemove_other (now : Z) (k : jsstring) (v : Stored) :
  (forall e, v <> StoredCache e) -> toRemove now k v = false.
Proof.
  intros H. destruct v as [c | urls | e]; unfold toRemove; simpl.
  - apply andb_false_r.
  - apply andb_false_r.
  - destruct (H e). reflexivity.
Qed.

(** The entry that [saveTranslationCache] writes is still there when it
    returns, unless the clock has run past the retention time meanwhile. *)
Lemma getTranslationCache_after_save (text translated : jsstring) (now later : Z) (st : t) :
  (later - now <= expirationTime)%Z ->
  getTranslationCache text (saveTranslationCache text translated now later st)
  = Some (TranslationResult.mk text translated now).
Proof.
  intros Hclock. unfold getTranslationCache, saveTranslationCache.
  rewrite manageCache_lookup. cbn [local with_local]. rewrite lookup_insert_eq.
  rewrite toRemove_cache_entry. simpl TranslationResult.timestamp.
  replace (expirationTime <? later - now)%Z with false; [|symmetry; apply Z.ltb_ge; exact Hclock].
  rewrite andb_false_r. reflexivity.
Qed.

Lemma getRecentPages_after_page_insert (context : PageContext.t) (st : t) :
  getRecentPages
    (with_local (<[pageKey (PageContext.url context) := StoredPage context]> (local st)) st)
  = getRecentPages st.
Proof.
  unfold getRecentPages. simpl.
  rewrite lookup_insert_ne; [reflexivity | apply pageKey_not_recentPagesKey].
Qed.

Lemma getRecentPages_after_save (context : PageContext.t) (st : t) :
  getRecentPages (savePageContext context st)
  = take 10 (PageContext.url context
               :: List.filter (fun url => neqb url (PageContext.url context))
                    (getRecentPages st)).
Proof.
  unfold savePageContext. rewrite getRecentPages_after_page_insert.
  unfold getRecentPages at 1. simpl. rewrite lookup_insert_eq. reflexivity.
Qed.

Lemma getPageContext_after_save (context : PageContext.t) (st : t) :
  getPageContext (PageContext.url context) (savePageContext context st) = Some context.
Proof.
  unfold getPageContext, savePageContext. simpl.
  rewrite lookup_insert_ne; [|intros H; symmetry in H; revert H; apply pageKey_not_recentPagesKey].
  rewrite lookup_insert_eq. reflexivity.
Qed.

Lemma filter_neqb_absent (url : jsstring) (urls : list jsstring) :
  ~ In url urls -> List.filter (fun u => neqb u url) urls = urls.
Proof.
  induction urls as [|u rest IH]; simpl; [reflexivity|].
  intros H. unfold neqb at 1. rewrite bool_decide_eq_false_2.
  - simpl. f_equal. apply IH. tauto.
  - intros ->. apply H. left. reflexivity.
Qed.

Lemma filter_neqb_not_in (url : jsstring) (urls : list jsstring) :
  ~ In url (List.filter (fun u => neqb u url) urls).
Proof.
  intros H. apply filter_In in H as [_ H]. unfold neqb in H.
  rewrite bool_decide_eq_true_2 in H; [discriminate | reflexivity].
Qed.

End StorageFacts.

(** ** The translation cache *)

(** C5, as stated, fails: ten minutes after [put], with the short TTL at
    five minutes, the entry is no longer valid, and [getTranslationCache]
    still returns it rather than null; and the cache check of
    [translateText], which does apply the TTL, does not return an empty
    translation one second after it was put. *)
Lemma C5_get_returns_the_entry_after_the_ttl :
  let st := Storage.saveTranslationCache hello konnichiwa 1000 1000 emptyStorage in
  let now := (1000 + 10 * 60 * 1000)%Z in
  Helpers.isCacheValid (Some 1000%Z) 5 now = false
  /\ Storage.getTranslationCache hello st
     = Some (TranslationResult.mk hello konnichiwa 1000)
  /\ TranslationEngine.freshTranslation (fun _ => 2000%Z) hello
       (TranslationEngine.mk true (Some casualSettings)
          (Storage.saveTranslationCache hello [] 1000 1000 emptyStorage) [])
     = None.
Proof. vm_compute. repeat split; reflexivity. Qed.

(** C5, amended: after [put(t, u)] at time [now] (its eviction sweep
    running at most the retention time later), [getTranslationCache(t)]
    returns the entry with translation [u] and creation time [now],
    whatever time has passed since; the short TTL is not applied by the
    read but by [isCacheValid], which holds for the entry exactly while
    [time - now] is below the TTL in minutes; the cache check of
    [translateText] returns [u] exactly when [u] is not empty, [now] is
    not 0 and the entry is valid, and otherwise treats the entry as a
    miss; and [getTranslationCache] returns null when no entry is stored
    under the fingerprint of [t], which [isCacheValid] reports as not
    valid. *)
Theorem C5_put_then_get_and_validity (t u : jsstring) (now later : Z) (st : Storage.t) :
  (later - now <= Storage.expirationTime)%Z ->
  let st' := Storage.saveTranslationCache t u now later st in
  Storage.getTranslationCache t st' = Some (TranslationResult.mk t u now)
  /\ (forall ttl time,
        Helpers.isCacheValid
          (TranslationResult.timestamp <$> Storage.getTranslationCache t st') ttl time
        = true
        <-> (time - now < ttl * 60 * 1000)%Z)
  /\ (forall clock e,
        TranslationEngine.storage e = st' ->
        TranslationEngine.freshTranslation clock t e
        = if truthy u && negb (now =? 0)%Z
             && (clock (length (TranslationEngine.requests e)) - now
                 <? cacheExpirationOf e * 60 * 1000)%Z
          then Some u else None)
  /\ (forall st0 ttl time,
        Storage.local st0 !! Storage.cacheKey t = None ->
        Storage.getTranslationCache t st0 = None
        /\ Helpers.isCacheValid
             (TranslationResult.timestamp <$> Storage.getTranslationCache t st0) ttl time
           = false).
Proof.
  intros Hclock st'. subst st'.
  rewrite (getTranslationCache_after_save t u now later st Hclock).
  split; [reflexivity|]. split; [|split].
  - intros ttl time. simpl. apply Z.ltb_lt.
  - intros clock e He. unfold TranslationEngine.freshTranslation, cacheExpirationOf.
    rewrite He, (getTranslationCache_after_save t u now later st Hclock).
    reflexivity.
  - intros st0 ttl time Hnone. unfold Storage.getTranslationCache. rewrite Hnone.
    split; reflexivity.
Qed.

(** The theorem at work: a read straight after a write into the empty
    store. *)
Lemma C5_put_then_get_witness :
  Storage.getTranslationCache hello
    (Storage.saveTranslationCache hello konnichiwa 1000 1000 emptyStorage)
  = Some (TranslationResult.mk hello konnichiwa 1000).
Proof.
  refine (proj1 (C5_put_then_get_and_validity hello konnichiwa 1000 1000 emptyStorage _)).
  vm_compute. discriminate.
Defined.

(** ** Eviction *)

(** C6, as stated, fails: a cache entry whose creation time reads 0 is
    older than the retention time at any clock value past it, and the
    sweep leaves it in the store. *)
Lemma C6_entry_created_at_zero_is_never_evicted :
  let now := (Storage.expirationTime + 1)%Z in
  (Storage.expirationTime < now - TranslationResult.timestamp epochEntry)%Z
  /\ Storage.local (Storage.manageCache now epochStore) !! Storage.cacheKey hello
     = Some (Storage.StoredCache epochEntry).
Proof. split; [reflexivity | vm_compute; reflexivity]. Qed.

(** C6, amended: for every stored state and every clock value, the sweep
    removes exactly the entries stored under a cache key whose creation
    time is not 0 and whose age [now - createdAt] exceeds the retention
    time of 7 days, and leaves every other stored entry as it was: cache
    entries within the retention time whatever the short TTL says of them,
    cache entries whose creation time is 0, page contexts and the list of
    recent pages; nothing is added, and the settings, which live in the
    other storage area, are not touched. *)
Theorem C6_sweep_removes_old_cache_entries_only (st : Storage.t) (now : Z) (k : jsstring) :
  let swept := Storage.manageCache now st in
  (forall e,
     Storage.local st !! k = Some (Storage.StoredCache e) ->
     startsWith (str "cache_") k = true ->
     TranslationResult.timestamp e <> 0%Z ->
     (Storage.expirationTime < now - TranslationResult.timestamp e)%Z ->
     Storage.local swept !! k = None)
  /\ (forall e,
        Storage.local st !! k = Some (Storage.StoredCache e) ->
        (now - TranslationResult.timestamp e <= Storage.expirationTime)%Z ->
        Storage.local swept !! k = Some (Storage.StoredCache e))
  /\ (forall e,
        Storage.local st !! k = Some (Storage.StoredCache e) ->
        TranslationResult.timestamp e = 0%Z ->
        Storage.local swept !! k = Some (Storage.StoredCache e))
  /\ (forall v,
        Storage.local st !! k = Some v ->
        startsWith (str "cache_") k = false ->
        Storage.local swept !! k = Some v)
  /\ (forall v,
        Storage.local st !! k = Some v ->
        (forall e, v <> Storage.StoredCache e) ->
        Storage.local swept !! k = Some v)
  /\ (Storage.local st !! k = None -> Storage.local swept !! k = None)
  /\ Storage.sync swept = Storage.sync st.
Proof.
  intros swept. subst swept. rewrite manageCache_lookup.
  repeat split.
  - intros e -> Hkey Hts Hold. rewrite toRemove_cache_entry, Hkey.
    apply Z.eqb_neq in Hts. rewrite Hts. apply Z.ltb_lt in Hold. rewrite Hold.
    reflexivity.
  - intros e -> Hyoung. rewrite toRemove_cache_entry.
    apply Z.ltb_ge in Hyoung. rewrite Hyoung, andb_false_r. reflexivity.
  - intros e -> Hzero. rewrite toRemove_cache_entry, Hzero. simpl.
    rewrite andb_false_r. reflexivity.
  - intros v -> Hkey. unfold Storage.toRemove. rewrite Hkey. reflexivity.
  - intros v -> Hother. rewrite (toRemove_other now k v Hother). reflexivity.
  - intros ->. reflexivity.
  - apply manageCache_sync.
Qed.

(** ** The context store *)

(** C9, as stated, fails: the chat handler saves the context at clock
    reading 1000, and the stored context keeps the [lastUpdated] it had,
    5; [savePageContext] persists the record it is given. *)
Lemma C9_save_keeps_the_given_lastUpdated :
  let before :=
    Background.mk (Storage.savePageContext staleContext emptyStorage) keyedClient in
  let after :=
    (Background.handleChatQuery answering (str "What is it?") pageUrl 1000 1000
       before).2 in
  (PageContext.lastUpdated
     <$> Storage.getPageContext pageUrl (Background.storage after)) = Some 5%Z
  /\ (map ChatMessage.timestamp
        <$> (PageContext.chatHistory
               <$> Storage.getPageContext pageUrl (Background.storage after)))
     = Some [1000%Z; 1000%Z].
Proof. vm_compute. split; reflexivity. Qed.

(** C9, amended: [savePageContext(context)] of the context store persists
    the context exactly as it is given, [lastUpdated] included -- the
    refresh of [lastUpdated] to the current time is the content script's,
    which does it before it sends the context to be saved -- and updates
    the list of recent documents by pushing the document identifier to
    the front, removing every other occurrence of it and truncating the
    list to 10 entries; so when 10 other documents are tracked, saving an
    11th drops the last one of the list, the least recently used, and
    never the one just saved. *)
Theorem C9_save_persists_as_given_and_updates_recent_pages
    (context : PageContext.t) (st : Storage.t) :
  let url := PageContext.url context in
  let st' := Storage.savePageContext context st in
  let recent := Storage.getRecentPages st' in
  Storage.getPageContext url st' = Some context
  /\ recent
     = take 10 (url :: List.filter (fun u => Storage.neqb u url)
                         (Storage.getRecentPages st))
  /\ head recent = Some url
  /\ ~ In url (tail recent)
  /\ length recent <= 10
  /\ (length (Storage.getRecentPages st) = 10 ->
      ~ In url (Storage.getRecentPages st) ->
      recent = url :: removelast (Storage.getRecentPages st))
  /\ (forall now script pc,
        ContentScript.pageContext script = Some pc ->
        (ContentScript.savePageContext now script).2
        = Some (PageContext.with_lastUpdated now pc)).
Proof.
  intros url st' recent. subst recent st'.
  rewrite getRecentPages_after_save. fold url.
  split; [apply getPageContext_after_save|].
  split; [reflexivity|].
  split; [reflexivity|].
  split.
  - simpl. intros H. apply list_elem_of_In, elem_of_take in H as (i & H & _).
    apply list_elem_of_lookup_2, list_elem_of_In in H.
    exact (filter_neqb_not_in url _ H).
  - split; [rewrite length_take; lia|].
    split.
    + intros Hlen Hnew. rewrite (filter_neqb_absent url _ Hnew).
      destruct (Storage.getRecentPages st) as [|u0 rest] using rev_ind; [discriminate|].
      rewrite removelast_last. rewrite length_app in Hlen. simpl in Hlen.
      change (take 10 (url :: rest ++ [u0])) with (url :: take 9 (rest ++ [u0])).
      f_equal. rewrite take_app_le by lia. apply take_ge. lia.
    + intros now script pc Hpc. unfold ContentScript.savePageContext.
      rewrite Hpc. reflexivity.
Qed.

(** ** Empty input to [translateText] *)

(** The guard of [ApiClient.translateText]: an empty or whitespace-only
    text is returned as it is, and the client, with the list of requests
    it has made, is left as it was. *)
Lemma ApiClient_translateText_blank
    (backend : list jsstring -> jsstring -> ApiClient.FetchResult)
    (text : jsstring) (storage : Storage.t) (c : ApiClient.t) :
  isBlank text = true ->
  ApiClient.translateText backend text storage c = (Returned text, c).
Proof.
  intros H. unfold ApiClient.translateText. rewrite H, orb_true_r. reflexivity.
Qed.

(** C10 on the code: [ApiClient.translateText] returns an empty or
    whitespace-only text unchanged without a request, but
    [TranslationEngine.translateText] has no such guard: given the empty
    text, or three spaces, an engine with an API key and an empty cache
    sends the text to the completion backend and returns the completion. *)
Theorem C10_engine_sends_blank_text_to_the_backend :
  (forall backend text storage c,
     isBlank text = true ->
     ApiClient.translateText backend text storage c = (Returned text, c))
  /\ (let '(result, e) :=
        TranslationEngine.translateText completing noon [] freshEngine in
      result = Returned konnichiwa /\ TranslationEngine.requests e = [[]])
  /\ (let '(result, e) :=
        TranslationEngine.translateText completing noon (str "   ") freshEngine in
      result = Returned konnichiwa /\ TranslationEngine.requests e = [str "   "]).
Proof.
  split; [exact ApiClient_translateText_blank|].
  split; vm_compute; split; reflexivity.
Qed.

(** ** Further properties of the chunker *)

(** X1: for every text and every positive [maxChunkSize], the chunker
    returns, and no chunk is more than two code units longer than
    [maxChunkSize]. *)
Theorem X1_chunker_returns_chunks_within_two_of_the_size
    (text : jsstring) (maxChunkSize : Z) :
  (0 < maxChunkSize)%Z ->
  exists chunks,
    Helpers.splitTextIntoChunks text maxChunkSize = Some chunks
    /\ Forall (fun chunk => (Z.of_nat (length chunk) <= maxChunkSize + 2)%Z) chunks.
Proof.
  intros Hpos.
  destruct (splitTextIntoChunks_spec text maxChunkSize Hpos)
    as (chunks & Hsplit & _ & _ & Hbound).
  exists chunks. split; assumption.
Qed.

Lemma X1_chunker_returns_witness :
  exists chunks,
    Helpers.splitTextIntoChunks twoParagraphs 4000 = Some chunks
    /\ Forall (fun chunk => (Z.of_nat (length chunk) <= 4000 + 2)%Z) chunks.
Proof.
  apply (X1_chunker_returns_chunks_within_two_of_the_size twoParagraphs 4000).
  reflexivity.
Defined.

(** X2: for every text and every positive [maxChunkSize], the chunks hold
    the non-whitespace code units of the text, each as often as the text
    does: none is lost and none is added. *)
Theorem X2_chunker_loses_no_content (text : jsstring) (maxChunkSize : Z) :
  (0 < maxChunkSize)%Z ->
  exists chunks,
    Helpers.splitTextIntoChunks text maxChunkSize = Some chunks
    /\ Permutation (contentOf (concat chunks)) (contentOf text).
Proof.
  intros Hpos.
  destruct (splitTextIntoChunks_spec text maxChunkSize Hpos)
    as (chunks & Hsplit & Hperm & _ & _).
  exists chunks. split; assumption.
Qed.

Lemma X2_chunker_loses_no_content_witness :
  exists chunks,
    Helpers.splitTextIntoChunks shortThenLong 5 = Some chunks
    /\ Permutation (contentOf (concat chunks)) (contentOf shortThenLong).
Proof.
  apply (X2_chunker_loses_no_content shortThenLong 5). reflexivity.
Defined.

(** X3: a text of at most [maxChunkSize] code units comes back as the
    single chunk that it is. *)
Theorem X3_short_text_is_one_chunk (text : jsstring) (maxChunkSize : Z) :
  (Z.of_nat (length text) <= maxChunkSize)%Z ->
  Helpers.splitTextIntoChunks text maxChunkSize = Some [text].
Proof.
  intros H. unfold Helpers.splitTextIntoChunks, Helpers.exceeds.
  apply Z.ltb_ge in H. rewrite H. reflexivity.
Qed.

Lemma X3_short_text_is_one_chunk_witness :
  Helpers.splitTextIntoChunks hello Helpers.defaultMaxChunkSize = Some [hello].
Proof.
  apply (X3_short_text_is_one_chunk hello Helpers.defaultMaxChunkSize).
  vm_compute. discriminate.
Defined.

(** ** Further properties of the calls *)

(** X4: [generateChatResponse] answers an empty or whitespace-only
    question with its fixed message, and the client, with the list of
    requests it has made, is left as it was: no request is made. *)
Theorem X4_empty_question_gets_the_fixed_answer
    (backend : list jsstring -> jsstring -> ApiClient.FetchResult)
    (question context : jsstring) (storage : Storage.t) (c : ApiClient.t) :
  isBlank question = true ->
  ApiClient.generateChatResponse backend question context storage c
  = (Returned ApiClient.emptyQuestion, c).
Proof.
  intros H. unfold ApiClient.generateChatResponse. rewrite H, orb_true_r. reflexivity.
Qed.

Lemma X4_empty_question_witness :
  ApiClient.generateChatResponse answering [] (str "some content") emptyStorage
    keyedClient
  = (Returned ApiClient.emptyQuestion, keyedClient).
Proof.
  apply (X4_empty_question_gets_the_fixed_answer answering [] (str "some content")
           emptyStorage keyedClient).
  reflexivity.
Defined.

(** X5: the content script's [translateText] answers null to an empty or
    whitespace-only text and sends nothing to the background. *)
Theorem X5_content_script_skips_blank_text
    (background : list jsstring -> jsstring -> ContentScript.Reply)
    (clock : nat -> Z) (text : jsstring) (st : ContentScript.State) :
  isBlank text = true ->
  ContentScript.translateText background clock text st = (None, st).
Proof.
  intros H. unfold ContentScript.translateText. rewrite H, orb_true_r. reflexivity.
Qed.

Lemma X5_content_script_skips_blank_text_witness :
  ContentScript.translateText translating noon (str "  ") sampleScript
  = (None, sampleScript).
Proof.
  apply (X5_content_script_skips_blank_text translating noon (str "  ") sampleScript).
  reflexivity.
Defined.

(** X6: an initialized [TranslationEngine] returns a text that
    [isCodeBlock] classifies as code unchanged, without a request to the
    backend and without touching the cache. *)
Theorem X6_engine_returns_code_unchanged
    (backend : list jsstring -> jsstring -> TranslationEngine.Completion)
    (clock : nat -> Z) (text : jsstring) (e : TranslationEngine.t) :
  TranslationEngine.openai e = true ->
  is_Some (TranslationEngine.settings e) ->
  Helpers.isCodeBlock text = true ->
  TranslationEngine.translateText backend clock text e = (Returned text, e).
Proof.
  intros Hopen Hset Hcode. unfold TranslationEngine.translateText.
  rewrite Hopen, (bool_decide_eq_true_2 _ Hset). simpl. rewrite Hcode. reflexivity.
Qed.

Lemma X6_engine_returns_code_unchanged_witness :
  TranslationEngine.translateText completing noon defFoo
    (TranslationEngine.mk true (Some casualSettings) emptyStorage [])
  = (Returned defFoo, TranslationEngine.mk true (Some casualSettings) emptyStorage []).
Proof.
  apply (X6_engine_returns_code_unchanged completing noon defFoo
           (TranslationEngine.mk true (Some casualSettings) emptyStorage [])).
  - reflexivity.
  - simpl. eauto.
  - vm_compute. reflexivity.
Defined.

(** X7: [put] overwrites: after two writes for the same text, the read
    returns the entry of the second, provided the clock has not advanced
    by more than the seven days of retention between the building of
    that entry and the sweep of [manageCache] within the same call. *)
Theorem X7_put_overwrites (t u1 u2 : jsstring) (now1 later1 now2 later2 : Z)
    (st : Storage.t) :
  (later2 - now2 <= Storage.expirationTime)%Z ->
  Storage.getTranslationCache t
    (Storage.saveTranslationCache t u2 now2 later2
       (Storage.saveTranslationCache t u1 now1 later1 st))
  = Some (TranslationResult.mk t u2 now2).
Proof. intros H. apply getTranslationCache_after_save. exact H. Qed.

Lemma X7_put_overwrites_witness :
  Storage.getTranslationCache hello
    (Storage.saveTranslationCache hello konnichiwa 2000 2000
       (Storage.saveTranslationCache hello (str "hi") 1000 1000 emptyStorage))
  = Some (TranslationResult.mk hello konnichiwa 2000).
Proof.
  apply (X7_put_overwrites hello (str "hi") konnichiwa 1000 1000 2000 2000 emptyStorage).
  vm_compute. discriminate.
Defined.

Lemma completionsOf_length
    (backend : list jsstring -> jsstring -> TranslationEngine.Completion)
    (chunks : list jsstring) :
  forall history, length (completionsOf backend history chunks) = length chunks.
Proof.
  induction chunks as [|chunk rest IH]; intros history; simpl; [reflexivity|].
  rewrite IH. reflexivity.
Qed.

Section ChunkedTranslation.

Import TranslationEngine.

Variable backend : list jsstring -> jsstring -> Completion.
Variable clock : nat -> Z.
Hypothesis backend_completes : forall history text, backend history text <> Fails.

Lemma callTranslationAPI_completes (text : jsstring) (e : t) :
  openai e = true ->
  callTranslationAPI backend text e
  = (Returned (completionOf backend (requests e) text),
     mk (openai e) (settings e) (storage e) (requests e ++ [text])).
Proof.
  intros Hopen. unfold callTranslationAPI, completionOf. rewrite Hopen. simpl.
  destruct (backend (requests e) text) as [|[content|]] eqn:Hreply.
  - destruct (backend_completes _ _ Hreply).
  - reflexivity.
  - reflexivity.
Qed.

(** When no request fails, [Promise.all] over the chunks resolves to the
    completions of the chunks, in order, and the chunks are the requests
    made, in order. *)
Lemma callAll_completes (chunks : list jsstring) :
  forall e,
    openai e = true ->
    callAll backend chunks e
    = (Returned (completionsOf backend (requests e) chunks),
       mk (openai e) (settings e) (storage e) (requests e ++ chunks)).
Proof.
  induction chunks as [|chunk rest IH]; intros e Hopen.
  - simpl. rewrite app_nil_r. destruct e. reflexivity.
  - cbn [callAll completionsOf]. rewrite (callTranslationAPI_completes chunk e Hopen).
    rewrite (IH (mk (openai e) (settings e) (storage e) (requests e ++ [chunk])) Hopen).
    simpl. rewrite <- app_assoc. reflexivity.
Qed.

End ChunkedTranslation.

(** X9: an initialized engine given a text of more than 4000 code units
    that is not classified as code and has no fresh cache entry, with a
    backend whose requests all complete, sends the chunks of
    [splitTextIntoChunks] to the backend, one request per chunk and in
    order, returns the completions of these requests joined by single
    spaces (a chunk stands in for a completion without content), and
    stores that result in the cache under the whole text. *)
Theorem X9_long_text_is_translated_chunk_by_chunk
    (backend : list jsstring -> jsstring -> TranslationEngine.Completion)
    (clock : nat -> Z) (text : jsstring) (e : TranslationEngine.t) :
  (forall history chunk, backend history chunk <> TranslationEngine.Fails) ->
  TranslationEngine.openai e = true ->
  is_Some (TranslationEngine.settings e) ->
  Helpers.isCodeBlock text = false ->
  TranslationEngine.freshTranslation clock text e = None ->
  4000 < length text ->
  exists chunks e',
    let translated :=
      completionsOf backend (TranslationEngine.requests e) chunks in
    Helpers.splitTextIntoChunks text Helpers.defaultMaxChunkSize = Some chunks
    /\ length translated = length chunks
    /\ TranslationEngine.translateText backend clock text e
       = (Returned (join (str " ") translated), e')
    /\ TranslationEngine.requests e' = TranslationEngine.requests e ++ chunks
    /\ Storage.getTranslationCache text (TranslationEngine.storage e')
       = Some (TranslationResult.mk text (join (str " ") translated)
                 (clock (length (TranslationEngine.requests e')))).
Proof.
  intros Hbackend Hopen Hset Hcode Hfresh Hlong.
  destruct (splitTextIntoChunks_spec text Helpers.defaultMaxChunkSize)
    as (chunks & Hsplit & _); [reflexivity|].
  pose proof (callAll_completes backend Hbackend chunks e Hopen) as Hall.
  exists chunks. eexists. cbv zeta. split; [exact Hsplit|].
  split; [apply completionsOf_length|].
  unfold TranslationEngine.translateText.
  rewrite Hopen, (bool_decide_eq_true_2 _ Hset). simpl negb. simpl orb. cbv iota.
  rewrite Hcode, Hfresh.
  apply Nat.ltb_lt in Hlong. rewrite Hlong, Hsplit, Hall.
  split; [reflexivity|]. split; [reflexivity|].
  unfold TranslationEngine.saveToCache. simpl.
  apply getTranslationCache_after_save. unfold Storage.expirationTime. lia.
Qed.

Lemma X9_long_text_witness :
  exists chunks e',
    let translated :=
      completionsOf completing (TranslationEngine.requests readyEngine) chunks in
    Helpers.splitTextIntoChunks longWord Helpers.defaultMaxChunkSize = Some chunks
    /\ length translated = length chunks
    /\ TranslationEngine.translateText completing noon longWord readyEngine
       = (Returned (join (str " ") translated), e')
    /\ TranslationEngine.requests e' = TranslationEngine.requests readyEngine ++ chunks
    /\ Storage.getTranslationCache longWord (TranslationEngine.storage e')
       = Some (TranslationResult.mk longWord (join (str " ") translated)
                 (noon (length (TranslationEngine.requests e')))).
Proof.
  apply (X9_long_text_is_translated_chunk_by_chunk completing noon longWord readyEngine).
  - intros history chunk. discriminate.
  - reflexivity.
  - simpl. eauto.
  - vm_compute. reflexivity.
  - vm_compute. reflexivity.
  - apply Nat.ltb_lt. vm_compute. reflexivity.
Defined.

(** ** Sanitized attributes *)

Lemma getElementAttributes_sanitized (element : ContentScript.Node) :
  Forall sanitized (ContentScript.getElementAttributes element).
Proof.
  apply List.Forall_forall. intros [name value] Hin.
  unfold ContentScript.getElementAttributes in Hin.
  apply filter_In in Hin as [_ Hin]. apply andb_true_iff in Hin as [Hon Hjs].
  apply negb_true_iff in Hon, Hjs. split; assumption.
Qed.

(** X8: every segment that [extractStructuredContent] emits carries
    attributes, and none of them has a name that starts with [on] or a
    value that contains [javascript:]. *)
Theorem X8_extracted_attributes_are_sanitized
    (root : ContentScript.Node) (segment : StructuredContentElement.t) :
  In segment (ContentScript.extractStructuredContent root) ->
  exists attrs,
    StructuredContentElement.attributes segment = Some attrs
    /\ Forall sanitized attrs.
Proof.
  unfold ContentScript.extractStructuredContent. intros H.
  repeat (apply in_app_or in H as [H | H]);
    apply in_map_iff in H as (element & <- & _);
    (eexists; split; [reflexivity | apply getElementAttributes_sanitized]).
Qed.

Lemma X8_extracted_attributes_witness :
  exists attrs,
    StructuredContentElement.attributes
      (StructuredContentElement.mk (str "image") (str "A diagram") (Some (str "img"))
         (Some [(str "alt", str "A diagram")]))
    = Some attrs
    /\ Forall sanitized attrs.
Proof.
  apply (X8_extracted_attributes_are_sanitized scriptedImage).
  vm_compute. left. reflexivity.
Defined.

(** * Further properties *)

(** ** The cache key *)

Section HashFacts.

Import Storage.

Local Open Scope Z_scope.

Lemma toInt32_range (z : Z) : -2147483648 <= toInt32 z < 2147483648.
Proof. unfold toInt32. pose proof (Z.mod_pos_bound (z + 2147483648) 4294967296). lia. Qed.

Lemma toInt32_congruent (a b : Z) :
  a mod 4294967296 = b mod 4294967296 -> toInt32 a = toInt32 b.
Proof.
  intros H. unfold toInt32. f_equal.
  rewrite <- (Zplus_mod_idemp_l a), <- (Zplus_mod_idemp_l b), H. reflexivity.
Qed.

Lemma toInt32_mod (z : Z) : toInt32 z mod 4294967296 = z mod 4294967296.
Proof.
  unfold toInt32.
  rewrite <- Zminus_mod_idemp_l, Z.mod_mod by lia.
  rewrite Zminus_mod_idemp_l. f_equal. lia.
Qed.

Lemma toInt32_fixed (z : Z) : -2147483648 <= z < 2147483648 -> toInt32 z = z.
Proof. intros H. unfold toInt32. rewrite Z.mod_small; lia. Qed.

(** A turn of the loop of [hashString] is a step of the polynomial hash,
    reduced to a signed 32-bit integer. *)
Lemma hashStep_poly (hash : Z) (char : N) :
  hashStep hash char = toInt32 (31 * hash + Z.of_N char).
Proof.
  unfold hashStep. apply toInt32_congruent.
  rewrite <- (Zplus_mod_idemp_l (_ - _)), <- (Zminus_mod_idemp_l (toInt32 _)).
  rewrite toInt32_mod. rewrite Zminus_mod_idemp_l, Zplus_mod_idemp_l. f_equal. lia.
Qed.

Lemma fold_hashStep_poly (s : jsstring) :
  forall h h' : Z,
    h mod 4294967296 = h' mod 4294967296 ->
    toInt32 (fold_left hashStep s h)
    = toInt32 (fold_left (fun hash char => 31 * hash + Z.of_N char) s h').
Proof.
  induction s as [|c s IH]; intros h h' H; simpl.
  - apply toInt32_congruent. exact H.
  - apply IH. rewrite hashStep_poly, toInt32_mod.
    rewrite <- Zplus_mod_idemp_l, <- Zmult_mod_idemp_r, H.
    rewrite Zmult_mod_idemp_r, Zplus_mod_idemp_l. reflexivity.
Qed.

Lemma fold_hashStep_range (s : jsstring) :
  forall h, -2147483648 <= h < 2147483648 ->
            -2147483648 <= fold_left hashStep s h < 2147483648.
Proof.
  induction s as [|c s IH]; intros h H; simpl; [exact H|].
  apply IH. rewrite hashStep_poly. apply toInt32_range.
Qed.

(** The wrap-around of every turn comes to one reduction at the end. *)
Lemma hashString_poly (s : jsstring) :
  hashString s = toString36 (toInt32 (polyHash s)).
Proof.
  unfold hashString, polyHash. f_equal.
  rewrite <- (fold_hashStep_poly s 0 0 eq_refl).
  symmetry. apply toInt32_fixed. apply fold_hashStep_range. lia.
Qed.

End HashFacts.

(** X13: [hashString] returns the numeral in base 36 of the polynomial
    hash of the text with multiplier 31, reduced to a signed 32-bit
    integer.  So different texts share a cache key: whatever stands
    before and after, a text with [Aa] at some place and the text with
    [BB] at that place have the same one. *)
Theorem X13_texts_with_the_same_cache_key :
  (forall text,
     Storage.hashString text = Storage.toString36 (Storage.toInt32 (polyHash text)))
  /\ forall before after,
       Storage.cacheKey (before ++ str "Aa" ++ after)
       = Storage.cacheKey (before ++ str "BB" ++ after)
       /\ before ++ str "Aa" ++ after <> before ++ str "BB" ++ after.
Proof.
  split; [exact hashString_poly|]. intros before after. split.
  - unfold Storage.cacheKey. f_equal. rewrite !hashString_poly. do 2 f_equal.
    unfold polyHash. rewrite !fold_left_app. f_equal. simpl. lia.
  - intros H. apply app_inv_head in H. discriminate.
Qed.

(** ** The translation engine: initialization, the cache and the chunks *)

Section EngineFacts.

Import TranslationEngine.

Variable backend : list jsstring -> jsstring -> Completion.

(** Every request of [Promise.all] is issued, in order; the whole settles,
    and it rejects when one of the requests fails. *)
Lemma callAll_requests (chunks : list jsstring) :
  forall e,
    openai e = true ->
    exists r,
      callAll backend chunks e
      = (r, mk (openai e) (settings e) (storage e) (requests e ++ chunks))
      /\ r <> Hangs
      /\ ((exists i chunk,
             chunks !! i = Some chunk
             /\ backend (requests e ++ take i chunks) chunk = Fails)
          -> r = Thrown).
Proof.
  induction chunks as [|chunk rest IH]; intros e Hopen.
  - exists (Returned []). simpl. rewrite app_nil_r. destruct e.
    split; [reflexivity|]. split; [discriminate|].
    intros (i & c & Hi & _). rewrite lookup_nil in Hi. discriminate.
  - cbn [callAll]. unfold callTranslationAPI. rewrite Hopen. simpl negb. cbv iota.
    destruct (IH (mk (openai e) (settings e) (storage e) (requests e ++ [chunk])) Hopen)
      as (rs & Hrs & Hhang & Hfail).
    simpl in Hrs, Hfail. rewrite <- app_assoc in Hrs. simpl in Hrs.
    rewrite Hopen in Hrs.
    assert (Hlater : (exists i c, rest !! i = Some c
                        /\ backend (requests e ++ take (S i) (chunk :: rest)) c = Fails)
                     -> rs = Thrown).
    { intros (i & c & Hi & Hc). apply Hfail. exists i, c. split; [exact Hi|].
      rewrite <- app_assoc. exact Hc. }
    destruct (backend (requests e) chunk) as [|[content|]] eqn:Hreply;
      cbv beta iota; rewrite Hrs; eexists; (split; [reflexivity|]).
    + split; [destruct rs; try discriminate; congruence|].
      intros _. destruct rs; try reflexivity. congruence.
    + split; [destruct rs; try discriminate; congruence|].
      intros ([|i] & c & Hi & Hc); simpl in Hi.
      * injection Hi as <-. simpl in Hc. rewrite app_nil_r in Hc. congruence.
      * rewrite Hlater; [reflexivity | eauto].
    + split; [destruct rs; try discriminate; congruence|].
      intros ([|i] & c & Hi & Hc); simpl in Hi.
      * injection Hi as <-. simpl in Hc. rewrite app_nil_r in Hc. congruence.
      * rewrite Hlater; [reflexivity | eauto].
Qed.

End EngineFacts.

(** X10: an engine that is not initialized, over a storage without an API
    key, throws: no request is made, the storage is left alone, and the
    engine stays uninitialized.  So the next call initializes again:
    once settings with an API key are stored, the call leaves the engine
    initialized with those settings. *)
Theorem X10_engine_without_api_key_throws_and_retries
    (backend : list jsstring -> jsstring -> TranslationEngine.Completion)
    (clock : nat -> Z) (text : jsstring) (e : TranslationEngine.t) :
  TranslationEngine.openai e = false ->
  TranslationSettings.apiKey (Storage.getSettings (TranslationEngine.storage e)) = [] ->
  let e1 :=
    TranslationEngine.mk false (Some (Storage.getSettings (TranslationEngine.storage e)))
      (TranslationEngine.storage e) (TranslationEngine.requests e) in
  TranslationEngine.translateText backend clock text e = (Thrown, e1)
  /\ forall (s : TranslationSettings.t) (text' : jsstring),
       TranslationSettings.apiKey s <> [] ->
       let e2 :=
         TranslationEngine.mk false (TranslationEngine.settings e1)
           (Storage.saveSettings s (TranslationEngine.storage e1))
           (TranslationEngine.requests e1) in
       let e3 := (TranslationEngine.translateText backend clock text' e2).2 in
       TranslationEngine.openai e3 = true /\ TranslationEngine.settings e3 = Some s.
Proof.
  intros Hopen Hkey e1. split.
  - unfold TranslationEngine.translateText, TranslationEngine.initialize.
    rewrite Hopen, Hkey. reflexivity.
  - intros s text' Hs e2 e3. subst e3 e2 e1.
    unfold TranslationEngine.translateText, TranslationEngine.initialize.
    cbn [TranslationEngine.openai TranslationEngine.settings TranslationEngine.storage
         TranslationEngine.requests negb orb].
    change (Storage.getSettings (Storage.saveSettings s (TranslationEngine.storage e)))
      with s.
    destruct (TranslationSettings.apiKey s) as [|c key] eqn:Hk; [congruence|].
    cbn [truthy negb].
    destruct (Helpers.isCodeBlock text'); [split; reflexivity|].
    destruct (TranslationEngine.freshTranslation _ _ _); [split; reflexivity|].
    destruct (4000 <? length text').
    + destruct (Helpers.splitTextIntoChunks _ _) as [chunks|]; [|split; reflexivity].
      match goal with |- context [TranslationEngine.callAll ?b ?c ?e] =>
        destruct (callAll_requests b c e eq_refl) as (r & Hr & _); rewrite Hr end.
      destruct r; split; reflexivity.
    + unfold TranslationEngine.callTranslationAPI. simpl.
      destruct (backend _ _) as [|[content|]]; split; reflexivity.
Qed.

Lemma X10_engine_without_api_key_witness :
  TranslationEngine.translateText completing noon hello keylessEngine
  = (Thrown,
     TranslationEngine.mk false (Some Storage.DEFAULT_SETTINGS) emptyStorage []).
Proof.
  exact (proj1 (X10_engine_without_api_key_throws_and_retries completing noon hello
                  keylessEngine eq_refl eq_refl)).
Defined.

(** X12: when the request for one chunk of a long text fails,
    [translateText] throws; the requests for all the chunks have been
    made, in order, and nothing is written to the cache. *)
Theorem X12_failed_chunk_fails_the_whole_translation
    (backend : list jsstring -> jsstring -> TranslationEngine.Completion)
    (clock : nat -> Z) (text : jsstring) (e : TranslationEngine.t)
    (chunks : list jsstring) (i : nat) (chunk : jsstring) :
  TranslationEngine.openai e = true ->
  is_Some (TranslationEngine.settings e) ->
  Helpers.isCodeBlock text = false ->
  TranslationEngine.freshTranslation clock text e = None ->
  4000 < length text ->
  Helpers.splitTextIntoChunks text Helpers.defaultMaxChunkSize = Some chunks ->
  chunks !! i = Some chunk ->
  backend (TranslationEngine.requests e ++ take i chunks) chunk = TranslationEngine.Fails ->
  TranslationEngine.translateText backend clock text e
  = (Thrown,
     TranslationEngine.mk true (TranslationEngine.settings e)
       (TranslationEngine.storage e) (TranslationEngine.requests e ++ chunks)).
Proof.
  intros Hopen Hset Hcode Hfresh Hlong Hsplit Hi Hfail.
  unfold TranslationEngine.translateText.
  rewrite Hopen, (bool_decide_eq_true_2 _ Hset). simpl negb. simpl orb. cbv iota.
  rewrite Hcode, Hfresh. apply Nat.ltb_lt in Hlong. rewrite Hlong, Hsplit.
  destruct (callAll_requests backend chunks e Hopen) as (r & Hr & _ & Hthrown).
  rewrite Hr, Hthrown by eauto. rewrite Hopen. reflexivity.
Qed.

Lemma X12_failed_chunk_witness :
  TranslationEngine.translateText failing noon longWord readyEngine
  = (Thrown,
     TranslationEngine.mk true (Some casualSettings) emptyStorage
       [replicate 4000 120%N; [120%N]]).
Proof.
  apply (X12_failed_chunk_fails_the_whole_translation failing noon longWord readyEngine
           [replicate 4000 120%N; [120%N]] 0 (replicate 4000 120%N)).
  - reflexivity.
  - simpl. eauto.
  - vm_compute. reflexivity.
  - vm_compute. reflexivity.
  - apply Nat.ltb_lt. vm_compute. reflexivity.
  - vm_compute. reflexivity.
  - reflexivity.
  - reflexivity.
Defined.

(** X11: after [translateText] has translated a text of at most 4000 code
    units (the completion is not empty and the clock does not read 0),
    a second call for the same text returns the same translation
    without a request as long as the age of the entry is below the TTL
    of the settings, in minutes; from then on the second call makes a
    request again. *)
Theorem X11_engine_answers_from_its_cache_until_the_ttl
    (backend : list jsstring -> jsstring -> TranslationEngine.Completion)
    (clock clock' : nat -> Z) (text translated : jsstring)
    (e : TranslationEngine.t) :
  TranslationEngine.openai e = true ->
  is_Some (TranslationEngine.settings e) ->
  Helpers.isCodeBlock text = false ->
  length text <= 4000 ->
  TranslationEngine.freshTranslation clock text e = None ->
  backend (TranslationEngine.requests e) text
  = TranslationEngine.Completes (Some translated) ->
  translated <> [] ->
  clock (S (length (TranslationEngine.requests e))) <> 0%Z ->
  exists e1,
    TranslationEngine.translateText backend clock text e = (Returned translated, e1)
    /\ TranslationEngine.requests e1 = TranslationEngine.requests e ++ [text]
    /\ let age := (clock' (length (TranslationEngine.requests e1))
                   - clock (length (TranslationEngine.requests e1)))%Z in
       if (age <? cacheExpirationOf e * 60 * 1000)%Z
       then TranslationEngine.translateText backend clock' text e1
            = (Returned translated, e1)
       else TranslationEngine.requests
              (TranslationEngine.translateText backend clock' text e1).2
            = TranslationEngine.requests e1 ++ [text].
Proof.
  intros Hopen Hset Hcode Hshort Hfresh Hreply Htruthy Hstamp.
  assert (Hlen : (4000 <? length text) = false) by (apply Nat.ltb_ge; exact Hshort).
  assert (Ht : truthy translated = true) by (destruct translated; [congruence | reflexivity]).
  eexists. split.
  { unfold TranslationEngine.translateText.
    rewrite Hopen, (bool_decide_eq_true_2 _ Hset). simpl negb. simpl orb. cbv iota.
    rewrite Hcode, Hfresh, Hlen.
    unfold TranslationEngine.callTranslationAPI. rewrite Hopen, Hreply, Ht. simpl.
    reflexivity. }
  split; [reflexivity|].
  cbn zeta. unfold TranslationEngine.saveToCache.
  cbn [TranslationEngine.requests TranslationEngine.openai TranslationEngine.settings
       TranslationEngine.storage].
  rewrite length_app, Nat.add_1_r.
  set (now := clock (S (length (TranslationEngine.requests e)))) in *.
  set (st1 := Storage.saveTranslationCache text translated now now _).
  assert (Hget : Storage.getTranslationCache text st1
                 = Some (TranslationResult.mk text translated now)).
  { apply getTranslationCache_after_save. unfold Storage.expirationTime. lia. }
  unfold TranslationEngine.translateText.
  cbn [TranslationEngine.requests TranslationEngine.openai TranslationEngine.settings
       TranslationEngine.storage].
  rewrite ?Hopen, (bool_decide_eq_true_2 _ Hset). simpl negb. simpl orb. cbv iota.
  rewrite Hcode. unfold TranslationEngine.freshTranslation.
  cbn [TranslationEngine.requests TranslationEngine.openai TranslationEngine.settings
       TranslationEngine.storage].
  rewrite Hget. cbn [TranslationResult.translatedText TranslationResult.timestamp].
  rewrite Ht. replace (now =? 0)%Z with false by (symmetry; apply Z.eqb_neq; exact Hstamp).
  simpl negb. simpl andb. unfold Helpers.isCacheValid.
  rewrite length_app, Nat.add_1_r. fold (cacheExpirationOf e).
  destruct (_ <? _)%Z; [reflexivity|].
  rewrite Hlen. unfold TranslationEngine.callTranslationAPI.
  cbn [TranslationEngine.requests TranslationEngine.openai TranslationEngine.settings
       TranslationEngine.storage].
  rewrite ?Hopen. simpl negb. cbv iota.
  destruct (backend (TranslationEngine.requests e ++ [text]) text) as [|[content|]];
    reflexivity.
Qed.

Lemma X11_engine_answers_from_its_cache_witness :
  exists e1,
    TranslationEngine.translateText completing noon hello readyEngine
    = (Returned konnichiwa, e1)
    /\ TranslationEngine.translateText completing afternoon hello e1
       = (Returned konnichiwa, e1).
Proof.
  destruct (X11_engine_answers_from_its_cache_until_the_ttl completing noon afternoon
              hello konnichiwa readyEngine) as (e1 & Hfirst & _ & Hsecond).
  - reflexivity.
  - simpl. eauto.
  - vm_compute. reflexivity.
  - simpl. lia.
  - reflexivity.
  - reflexivity.
  - discriminate.
  - discriminate.
  - exists e1. split; [exact Hfirst | exact Hsecond].
Defined.

(** X14: the cache check of [translateText] does not compare the cached
    original text with the text asked for: when the cache holds a fresh
    entry for another text with the same cache key, [translateText]
    returns the translation of that other text, without a request. *)
Theorem X14_engine_returns_the_translation_of_a_colliding_text
    (backend : list jsstring -> jsstring -> TranslationEngine.Completion)
    (clock : nat -> Z) (text other : jsstring) (entry : TranslationResult.t)
    (e : TranslationEngine.t) :
  TranslationEngine.openai e = true ->
  is_Some (TranslationEngine.settings e) ->
  Helpers.isCodeBlock text = false ->
  Storage.cacheKey other = Storage.cacheKey text ->
  Storage.getTranslationCache other (TranslationEngine.storage e) = Some entry ->
  TranslationResult.translatedText entry <> [] ->
  TranslationResult.timestamp entry <> 0%Z ->
  (clock (length (TranslationEngine.requests e)) - TranslationResult.timestamp entry
   < cacheExpirationOf e * 60 * 1000)%Z ->
  TranslationEngine.translateText backend clock text e
  = (Returned (TranslationResult.translatedText entry), e).
Proof.
  intros Hopen Hset Hcode Hkey Hget Htext Hstamp Hfresh.
  unfold TranslationEngine.translateText.
  rewrite Hopen, (bool_decide_eq_true_2 _ Hset). simpl negb. simpl orb. cbv iota.
  rewrite Hcode. unfold TranslationEngine.freshTranslation.
  unfold Storage.getTranslationCache in *. rewrite <- Hkey, Hget.
  fold (cacheExpirationOf e).
  destruct (TranslationResult.translatedText entry) as [|c u] eqn:Hu; [congruence|].
  cbn [truthy andb]. apply Z.eqb_neq in Hstamp. rewrite Hstamp.
  unfold Helpers.isCacheValid. apply Z.ltb_lt in Hfresh. rewrite Hfresh. reflexivity.
Qed.

Lemma X14_colliding_text_witness :
  TranslationEngine.translateText completing noon textBB engineWithAa
  = (Returned konnichiwa, engineWithAa).
Proof.
  apply (X14_engine_returns_the_translation_of_a_colliding_text completing noon textBB
           textAa entryAa engineWithAa).
  - reflexivity.
  - simpl. eauto.
  - vm_compute. reflexivity.
  - vm_compute. reflexivity.
  - vm_compute. reflexivity.
  - discriminate.
  - discriminate.
  - vm_compute. reflexivity.
Defined.

(** X15: the API client loads the settings once.  When its first
    translation request finds no API key, the request fails; after
    settings with an API key have been saved (and [handleGetSettings]
    returns them), the next request still fails, and no request at all
    has reached the completion endpoint. *)
Theorem X15_client_keeps_the_settings_it_loaded_first
    (backend : list jsstring -> jsstring -> ApiClient.FetchResult)
    (text : jsstring) (settings : TranslationSettings.t) (b : Background.t) :
  ApiClient.settings (Background.apiClient b) = None ->
  TranslationSettings.apiKey (Storage.getSettings (Background.storage b)) = [] ->
  isBlank text = false ->
  let '(first, b1) := Background.handleTranslateText backend text b in
  let b2 := Background.handleSaveSettings settings b1 in
  let '(second, b3) := Background.handleTranslateText backend text b2 in
  first = None
  /\ Background.handleGetSettings b2 = settings
  /\ second = None
  /\ b3 = b2
  /\ ApiClient.requests (Background.apiClient b3)
     = ApiClient.requests (Background.apiClient b).
Proof.
  intros Hnone Hkey Hblank.
  unfold Background.handleTranslateText, ApiClient.translateText.
  assert (Htext : negb (truthy text) || isBlank text = false).
  { rewrite Hblank. destruct text; [discriminate | reflexivity]. }
  rewrite Htext. unfold ApiClient.request at 1. rewrite Hnone.
  unfold ApiClient.initialize. rewrite Hkey. simpl.
  unfold ApiClient.request. simpl. rewrite Hkey. simpl.
  repeat split; reflexivity.
Qed.

Lemma X15_client_keeps_the_settings_witness :
  let '(first, b1) := Background.handleTranslateText answering hello freshBackground in
  let b2 := Background.handleSaveSettings casualSettings b1 in
  let '(second, b3) := Background.handleTranslateText answering hello b2 in
  first = None
  /\ Background.handleGetSettings b2 = casualSettings
  /\ second = None
  /\ b3 = b2
  /\ ApiClient.requests (Background.apiClient b3)
     = ApiClient.requests (Background.apiClient freshBackground).
Proof.
  apply (X15_client_keeps_the_settings_it_loaded_first answering hello casualSettings
           freshBackground); reflexivity.
Defined.

(** X16: [handleChatQuery] fails without touching anything when no page
    context is stored for the URL; when the client answers, the stored
    context gains the question and the answer at the end of its chat
    history, in that order, and its URL heads the recent pages; when
    the client throws, the storage is left as it was. *)
Theorem X16_chat_exchange_is_stored_when_it_is_answered
    (backend : list jsstring -> jsstring -> ApiClient.FetchResult)
    (query url : jsstring) (nowUser nowAssistant : Z) (b : Background.t) :
  let '(answer, b') := Background.handleChatQuery backend query url nowUser nowAssistant b in
  match Storage.getPageContext url (Background.storage b) with
  | None => answer = None /\ b' = b
  | Some context =>
      match ApiClient.generateChatResponse backend query (PageContext.content context)
              (Background.storage b) (Background.apiClient b) with
      | (Returned response, _) =>
          answer = Some response
          /\ Storage.getPageContext (PageContext.url context) (Background.storage b')
             = Some (PageContext.with_chatHistory
                       (PageContext.chatHistory context
                          ++ [ChatMessage.mk ChatMessage.user query nowUser;
                              ChatMessage.mk ChatMessage.assistant response nowAssistant])
                       context)
          /\ head (Storage.getRecentPages (Background.storage b'))
             = Some (PageContext.url context)
      | _ => answer = None /\ Background.storage b' = Background.storage b
      end
  end.
Proof.
  unfold Background.handleChatQuery.
  destruct (Storage.getPageContext url (Background.storage b)) as [context|];
    [|split; reflexivity].
  destruct (ApiClient.generateChatResponse _ _ _ _ _) as [[response| |] c].
  - split; [reflexivity|]. cbn [Background.storage]. split.
    + apply (getPageContext_after_save (PageContext.with_chatHistory _ context)).
    + rewrite getRecentPages_after_save. reflexivity.
  - split; reflexivity.
  - split; reflexivity.
Qed.

(** ** The content script: translation of the structured content *)

Section ContentScriptFacts.

Import ContentScript StructuredContentElement.

Variable background : list jsstring -> jsstring -> Reply.
Variable clock : nat -> Z.

Lemma Sends_refl (st : State) : Sends st [] st.
Proof. split; [rewrite app_nil_r|]; reflexivity. Qed.

Lemma Sends_trans (st1 st2 st3 : State) (a b : list jsstring) :
  Sends st1 a st2 -> Sends st2 b st3 -> Sends st1 (a ++ b) st3.
Proof.
  intros [Ha Hpa] [Hb Hpb]. split.
  - rewrite Hb, Ha, app_assoc. reflexivity.
  - rewrite Hpb, Hpa. reflexivity.
Qed.

(** [translateText] sends the text or nothing. *)
Lemma translateText_Sends (text : jsstring) (st : State) :
  exists new,
    Sends st new (translateText background clock text st).2
    /\ (new = [] \/ (new = [text] /\ isBlank text = false)).
Proof.
  unfold translateText.
  destruct (negb (truthy text) || isBlank text) eqn:Hblank.
  { exists []. split; [apply Sends_refl | left; reflexivity]. }
  apply orb_false_iff in Hblank as [_ Hblank].
  destruct (pageContext st ≫= _) as [cached|].
  { exists []. split; [apply Sends_refl | left; reflexivity]. }
  exists [text]. split; [|right; split; [reflexivity | exact Hblank]].
  destruct (background (sent st) text) as [|[] [translated|]];
    try (split; reflexivity).
  destruct (truthy translated); [|split; reflexivity].
  split; [reflexivity|]. simpl. destruct (pageContext st); reflexivity.
Qed.

Lemma translateItem_Sends (item : StructuredContentElement.t) (st : State) :
  exists new,
    Sends st new (translateItem background clock item st).2
    /\ sameShape item (translateItem background clock item st).1
    /\ (new = []
        \/ (new = [content item] /\ isCode item = false
            /\ isBlank (content item) = false)).
Proof.
  unfold translateItem.
  destruct (isCode item) eqn:Hcode.
  { exists []. repeat split; [rewrite app_nil_r|..|left]; reflexivity. }
  destruct (translateText_Sends (content item) st) as (new & Hsends & Hnew).
  assert (Hnew' : new = [] \/ new = [content item] /\ false = false
                              /\ isBlank (content item) = false) by tauto.
  destruct (isImage item && truthy (content item)).
  - destruct (translateText background clock (content item) st) as [alt st'].
    exists new. repeat split; try tauto; apply Hsends.
  - destruct (truthy (content item)).
    + destruct (translateText background clock (content item) st) as [[translated|] st'].
      * destruct (truthy translated); exists new; repeat split; try tauto; apply Hsends.
      * exists new; repeat split; try tauto; apply Hsends.
    + exists []. repeat split; [rewrite app_nil_r|..|left]; reflexivity.
Qed.

Lemma translateItems_Sends (items : list StructuredContentElement.t) :
  forall st,
    exists new,
      Sends st new (translateItems background clock items st).2
      /\ Forall2 sameShape items (translateItems background clock items st).1
      /\ Forall (fun text =>
                   exists item, In item items /\ isCode item = false
                                /\ content item = text /\ isBlank text = false) new.
Proof.
  induction items as [|item rest IH]; intros st.
  { exists []. split; [apply Sends_refl|]. split; constructor. }
  simpl. destruct (translateItem_Sends item st) as (new1 & Hsends1 & Hshape & Hnew1).
  destruct (translateItem background clock item st) as [translated st1].
  destruct (IH st1) as (new2 & Hsends2 & Hshapes & Hnew2).
  destruct (translateItems background clock rest st1) as [translatedRest st2].
  exists (new1 ++ new2). split; [exact (Sends_trans _ _ _ _ _ Hsends1 Hsends2)|].
  split; [constructor; assumption|].
  apply Forall_app. split.
  - destruct Hnew1 as [-> | (-> & Hcode & Hblank)]; constructor; [|constructor].
    exists item. simpl. auto.
  - eapply Forall_impl; [|exact Hnew2].
    intros text (i & Hin & H). exists i. simpl. auto.
Qed.

End ContentScriptFacts.

(** What [translateStructuredContent] stores. *)
Lemma translateStructuredContent_spec
    (background : list jsstring -> jsstring -> ContentScript.Reply)
    (clock : nat -> Z) (st : ContentScript.State) (pc : PageContext.t)
    (items : list StructuredContentElement.t) :
  ContentScript.pageContext st = Some pc ->
  PageContext.structuredContent pc = Some items ->
  exists pc' translatedItems,
    ContentScript.pageContext
      (ContentScript.translateStructuredContent background clock st) = Some pc'
    /\ PageContext.translatedStructuredContent pc' = Some translatedItems
    /\ Forall2 sameShape items translatedItems
    /\ withoutTranslations pc'
       = withoutTranslations
           (PageContext.with_translatedStructuredContent translatedItems pc).
Proof.
  intros Hpc Hitems. unfold ContentScript.translateStructuredContent.
  rewrite Hpc. simpl. rewrite Hitems.
  destruct (translateItems_Sends background clock items st)
    as (new & [_ Hctx] & Hshape & _).
  destruct (ContentScript.translateItems background clock items st) as [out st'].
  simpl in *. rewrite Hpc in Hctx.
  destruct (ContentScript.pageContext st') as [pc1|]; [|discriminate].
  cbn [fmap option_fmap option_map] in Hctx. apply (inj Some) in Hctx.
  eexists _, out. split; [reflexivity|]. split; [reflexivity|].
  split; [exact Hshape|].
  unfold withoutTranslations, PageContext.with_translations in *.
  unfold PageContext.with_translatedStructuredContent. simpl.
  injection Hctx; intros; congruence.
Qed.

(** X17: [translateStructuredContent] stores one translated item per
    item, each with the type, the tag and the attributes of its item;
    apart from the record of translations it changes nothing else of
    the page context. *)
Theorem X17_translation_keeps_the_shape_of_every_item
    (background : list jsstring -> jsstring -> ContentScript.Reply)
    (clock : nat -> Z) (st : ContentScript.State) (pc : PageContext.t)
    (items : list StructuredContentElement.t) :
  ContentScript.pageContext st = Some pc ->
  PageContext.structuredContent pc = Some items ->
  exists pc' translatedItems,
    ContentScript.pageContext
      (ContentScript.translateStructuredContent background clock st) = Some pc'
    /\ PageContext.translatedStructuredContent pc' = Some translatedItems
    /\ Forall2 sameShape items translatedItems
    /\ withoutTranslations pc'
       = withoutTranslations
           (PageContext.with_translatedStructuredContent translatedItems pc).
Proof. exact (translateStructuredContent_spec background clock st pc items). Qed.

Lemma X17_translation_keeps_the_shape_witness :
  exists pc' translatedItems,
    ContentScript.pageContext
      (ContentScript.translateStructuredContent translating noon sampleScript)
    = Some pc'
    /\ PageContext.translatedStructuredContent pc' = Some translatedItems
    /\ Forall2 sameShape [textItem; codeItem] translatedItems
    /\ withoutTranslations pc'
       = withoutTranslations
           (PageContext.with_translatedStructuredContent translatedItems sampleContext).
Proof.
  apply (X17_translation_keeps_the_shape_of_every_item translating noon sampleScript
           sampleContext [textItem; codeItem]); reflexivity.
Defined.

(** X18: every text that [translateStructuredContent] sends to the
    background is the content, not empty and not only whitespace, of an
    item whose type is not code. *)
Theorem X18_only_contents_of_other_items_are_sent
    (background : list jsstring -> jsstring -> ContentScript.Reply)
    (clock : nat -> Z) (st : ContentScript.State) (pc : PageContext.t)
    (items : list StructuredContentElement.t) :
  ContentScript.pageContext st = Some pc ->
  PageContext.structuredContent pc = Some items ->
  exists new,
    ContentScript.sent (ContentScript.translateStructuredContent background clock st)
    = ContentScript.sent st ++ new
    /\ Forall (fun text =>
                 exists item,
                   In item items
                   /\ StructuredContentElement.type item <> str "code"
                   /\ StructuredContentElement.content item = text
                   /\ isBlank text = false) new.
Proof.
  intros Hpc Hitems. unfold ContentScript.translateStructuredContent.
  rewrite Hpc. simpl. rewrite Hitems.
  destruct (translateItems_Sends background clock items st)
    as (new & [Hsent _] & _ & Hnew).
  destruct (ContentScript.translateItems background clock items st) as [out st'].
  exists new. split; [exact Hsent|].
  eapply Forall_impl; [|exact Hnew].
  intros text (item & Hin & Hcode & Hcontent & Hblank). exists item.
  repeat split; try assumption.
  unfold ContentScript.isCode in Hcode. apply bool_decide_eq_false in Hcode. exact Hcode.
Qed.

Lemma X18_only_contents_of_other_items_witness :
  exists new,
    ContentScript.sent
      (ContentScript.translateStructuredContent translating noon sampleScript)
    = ContentScript.sent sampleScript ++ new
    /\ Forall (fun text =>
                 exists item,
                   In item [textItem; codeItem]
                   /\ StructuredContentElement.type item <> str "code"
                   /\ StructuredContentElement.content item = text
                   /\ isBlank text = false) new.
Proof.
  apply (X18_only_contents_of_other_items_are_sent translating noon sampleScript
           sampleContext [textItem; codeItem]); reflexivity.
Defined.



(** ** Lines that begin with a keyword *)

Section SearchFacts.

Lemma prevAfter_cons (prev : option N) (c : N) (before : jsstring) :
  prevAfter prev (c :: before) = prevAfter (Some c) before.
Proof.
  unfold prevAfter. destruct before as [|d rest]; [reflexivity|].
  rewrite last_cons. destruct (list.last (d :: rest)) eqn:H; [reflexivity|].
  apply last_None in H. discriminate.
Qed.

(** A match that starts anywhere is found by the search. *)
Lemma search_app (r : regex) (before s : jsstring) :
  forall prev,
    is_Some (matchAt r (prevAfter prev before) s) ->
    search r prev (before ++ s) = true.
Proof.
  induction before as [|c before IH]; intros prev H.
  - change (prevAfter prev []) with prev in H. destruct H as [m Hm].
    destruct s; simpl; rewrite Hm; reflexivity.
  - simpl. destruct (matchAt r prev (c :: before ++ s)); [reflexivity|].
    apply IH. rewrite prevAfter_cons in H. exact H.
Qed.

Variable A : Type.

(** A literal matches where it stands. *)
Lemma exec_chars (cs rest : jsstring) :
  forall (prev : option N) (k : option N -> jsstring -> option A),
    exec (seq (map chr cs)) prev (cs ++ rest) k = k (prevAfter prev cs) rest.
Proof.
  induction cs as [|c cs IH]; intros prev k; [reflexivity|].
  cbn [map seq foldr app exec]. unfold chr at 1. cbn [exec].
  rewrite N.eqb_refl. fold (seq (map chr cs)). rewrite IH, prevAfter_cons. reflexivity.
Qed.

Lemma exec_lit (w : string) (rest : jsstring) (prev : option N)
    (k : option N -> jsstring -> option A) :
  exec (lit w) prev (str w ++ rest) k = k (prevAfter prev (str w)) rest.
Proof. apply exec_chars. Qed.

(** An alternative that matches makes the alternation match. *)
Lemma exec_alts (rs : list regex) (r : regex) (prev : option N) (s : jsstring)
    (k : option N -> jsstring -> option A) :
  In r rs -> is_Some (exec r prev s k) -> is_Some (exec (alts rs) prev s k).
Proof.
  induction rs as [|r0 rs IH]; intros Hin H; [destruct Hin|].
  cbn [alts foldr exec]. fold (alts rs).
  destruct (exec r0 prev s k) eqn:H0; [eauto|].
  destruct Hin as [-> | Hin]; [rewrite H0 in H; destruct H; discriminate | exact (IH Hin H)].
Qed.

Lemma exec_oneof (ws : list string) (w : string) (rest : jsstring) (prev : option N)
    (k : option N -> jsstring -> option A) :
  In w ws ->
  is_Some (k (prevAfter prev (str w)) rest) ->
  is_Some (exec (oneof ws) prev (str w ++ rest) k).
Proof.
  intros Hin H. apply (exec_alts _ (lit w)).
  - apply in_map. exact Hin.
  - rewrite exec_lit. exact H.
Qed.

End SearchFacts.

(** A line that begins with [w] is matched by [^(...|w|...)]. *)
Lemma test_line_start (ws : list string) (w : string) (before rest : jsstring) :
  In w ws ->
  atLineStart (list.last before) = true ->
  test (seq [LineStart; oneof ws]) (before ++ str w ++ rest) = true.
Proof.
  intros Hin Hstart. apply search_app. unfold matchAt.
  cbn [seq foldr exec]. unfold prevAfter at 1.
  replace (atLineStart _) with true by (destruct (list.last before); [symmetry|]; auto).
  apply exec_oneof; [exact Hin | eauto].
Qed.

Lemma test_line_start_alts (rs : list regex) (w : string) (before rest : jsstring) :
  In (lit w) rs ->
  atLineStart (list.last before) = true ->
  test (seq [LineStart; alts rs]) (before ++ str w ++ rest) = true.
Proof.
  intros Hin Hstart. apply search_app. unfold matchAt.
  cbn [seq foldr exec]. unfold prevAfter at 1.
  replace (atLineStart _) with true by (destruct (list.last before); [symmetry|]; auto).
  apply (exec_alts _ _ (lit w)); [exact Hin|]. rewrite exec_lit. eauto.
Qed.

Ltac by_pattern n Hstart :=
  solve [ eexists; split;
          [ in_nth n
          | first [apply test_line_start | apply test_line_start_alts];
            [in_list | exact Hstart] ] ].

(** X20: [isCodeBlock] holds for every text with a line that begins with
    one of the words in [lineStartKeywords], whatever else the text
    contains and whatever follows the word on that line. *)
Theorem X20_line_that_begins_with_a_keyword_is_code
    (keyword : string) (before rest : jsstring) :
  In keyword lineStartKeywords ->
  atLineStart (list.last before) = true ->
  Helpers.isCodeBlock (before ++ str keyword ++ rest) = true.
Proof.
  intros Hin Hstart. unfold Helpers.isCodeBlock.
  apply orb_true_iff. left. apply existsb_exists. unfold Helpers.codePatterns.
  unfold lineStartKeywords in Hin. simpl in Hin.
  repeat (destruct Hin as [<- | Hin];
          [ first [ by_pattern 1 Hstart | by_pattern 2 Hstart | by_pattern 3 Hstart
                  | by_pattern 4 Hstart | by_pattern 6 Hstart | by_pattern 7 Hstart ] |]).
  destruct Hin.
Qed.

Lemma X20_line_that_begins_with_a_keyword_witness :
  Helpers.isCodeBlock (greeting ++ str "from" ++ signature) = true.
Proof.
  apply (X20_line_that_begins_with_a_keyword_is_code "from" greeting signature).
  - vm_compute. tauto.
  - reflexivity.
Defined.

(** ** Trees: the side panel and the content script *)

Section NodeFacts.

Import ContentScript.

Lemma Node_induction (P : Node -> Prop) :
  (forall data, P (TextNode data)) ->
  (forall name attrs children,
     Forall P children -> P (Element name attrs children)) ->
  forall node, P node.
Proof.
  intros Htext Helement. fix IH 1. intros [name attrs children | data].
  - apply Helement. induction children as [|child rest IHrest]; constructor.
    + apply IH.
    + exact IHrest.
  - apply Htext.
Qed.

Lemma descendants_element (name : ContentScript.Name) (attrs : list (jsstring * jsstring))
    (children : list Node) :
  descendants (Element name attrs children)
  = concat (map (fun child =>
                   match child with
                   | Element _ _ _ => child :: descendants child
                   | TextNode _ => []
                   end) children).
Proof. reflexivity. Qed.

End NodeFacts.

Section SanitizeFacts.

Import ContentScript SidePanel.

Lemma withoutDangerousAttributes_descendants (node : Node) :
  descendants (withoutDangerousAttributes node) = descendants node.
Proof. destruct node; reflexivity. Qed.

Lemma withoutDangerousAttributes_sanitized (node : Node) :
  Forall sanitized (attributesOf (withoutDangerousAttributes node)).
Proof.
  destruct node as [name attrs children | data]; simpl; [|constructor].
  apply List.Forall_forall. intros [attribute value] Hin.
  apply filter_In in Hin as [_ Hsafe]. unfold dangerousAttribute in Hsafe. simpl in Hsafe.
  apply negb_true_iff, orb_false_iff in Hsafe as [Hsafe _].
  apply orb_false_iff in Hsafe as [Hon Hjs]. split; assumption.
Qed.

Lemma processNode_tag (node : Node) :
  tagNameOf (processNode node) = tagNameOf node.
Proof. destruct node; reflexivity. Qed.

Lemma withoutDangerousAttributes_tag (node : Node) :
  tagNameOf (withoutDangerousAttributes node) = tagNameOf node.
Proof. destruct node; reflexivity. Qed.

Lemma processNode_safe (node : Node) :
  Forall safeElement (descendants (processNode node)).
Proof.
  induction node as [data | name attrs children IH] using Node_induction;
    [constructor|].
  cbn [processNode]. rewrite descendants_element.
  induction children as [|child rest IHrest]; [constructor|].
  apply list.Forall_cons in IH as [IHchild IHothers]. specialize (IHrest IHothers).
  cbn [omap list_omap]. fold (@omap list _ Node Node).
  destruct child as [tag childAttrs grandchildren | data]; [|exact IHrest].
  fold (hasDangerousTag (Element tag childAttrs grandchildren)).
  destruct (hasDangerousTag (Element tag childAttrs grandchildren)) eqn:Hdanger;
    [exact IHrest|].
  cbn [map concat]. apply Forall_app. split; [|exact IHrest].
  remember (withoutDangerousAttributes (processNode (Element tag childAttrs grandchildren)))
    as kept eqn:Hkept.
  assert (Hshape : exists t a c, kept = Element t a c).
  { rewrite Hkept. simpl. eauto. }
  destruct Hshape as (t & a & c & Hshape). rewrite Hshape. rewrite <- Hshape.
  constructor.
  - split.
    + unfold hasDangerousTag.
      rewrite Hkept, withoutDangerousAttributes_tag, processNode_tag. exact Hdanger.
    + rewrite Hkept. apply withoutDangerousAttributes_sanitized.
  - rewrite Hkept, withoutDangerousAttributes_descendants. exact IHchild.
Qed.

End SanitizeFacts.

Section WalkFacts.

Import ContentScript.

Context {S : Type}.
Variable proj : S -> State.
Variable body : Node -> S -> Node * S.

Lemma forEachNode_id (nodes : list Node) :
  Forall (fun node => forall st, body node st = (node, st)) nodes ->
  forall st, forEachNode body nodes st = (nodes, st).
Proof.
  induction 1 as [|node rest Hnode _ IH]; intros st; simpl; [reflexivity|].
  rewrite Hnode, IH. reflexivity.
Qed.

Lemma forEachNode_each (Q : Node -> Node -> Prop) (F : Node -> jsstring -> Prop)
    (nodes : list Node) :
  Forall (fun node =>
            forall st,
              exists new,
                Q node (body node st).1
                /\ Sends (proj st) new (proj (body node st).2)
                /\ Forall (F node) new) nodes ->
  forall st,
    exists new,
      Forall2 Q nodes (forEachNode body nodes st).1
      /\ Sends (proj st) new (proj (forEachNode body nodes st).2)
      /\ Forall (fun text => exists node, In node nodes /\ F node text) new.
Proof.
  induction 1 as [|node rest Hnode _ IH]; intros st; simpl.
  { exists []. split; [constructor|]. split; [apply Sends_refl | constructor]. }
  destruct (Hnode st) as (new1 & HQ & Hsends1 & HF).
  destruct (body node st) as [node' st1]. simpl in *.
  destruct (IH st1) as (new2 & HQs & Hsends2 & HFs).
  destruct (forEachNode body rest st1) as [rest' st2]. simpl in *.
  exists (new1 ++ new2). split; [constructor; assumption|].
  split; [exact (Sends_trans _ _ _ _ _ Hsends1 Hsends2)|].
  apply Forall_app. split.
  - eapply List.Forall_impl; [|exact HF]. intros text H. exists node. auto.
  - eapply List.Forall_impl; [|exact HFs]. intros text (n & Hin & H). exists n. auto.
Qed.

End WalkFacts.

(** What the children keep when each child keeps it. *)
Lemma outline_children (stop : ContentScript.Node -> bool)
    (children children' : list ContentScript.Node) :
  Forall2 (fun child child' =>
             (if stop child' then child' else outline stop child')
             = (if stop child then child else outline stop child))
    children children' ->
  map (fun child => if stop child then child else outline stop child) children'
  = map (fun child => if stop child then child else outline stop child) children.
Proof. induction 1; simpl; congruence. Qed.

Lemma textsOutside_child (stop : ContentScript.Node -> bool) (name : ContentScript.Name)
    (attrs : list (jsstring * jsstring)) (children : list ContentScript.Node)
    (child : ContentScript.Node) (data : jsstring) :
  In child children -> stop child = false -> In data (textsOutside stop child) ->
  In data (textsOutside stop (ContentScript.Element name attrs children)).
Proof.
  intros Hchild Hstop Hdata. simpl. apply in_concat.
  exists (textsOutside stop child). split; [|exact Hdata].
  apply in_map_iff. exists child. rewrite Hstop. auto.
Qed.

Section TextNodesFacts.

Import ContentScript.

Variable background : list jsstring -> jsstring -> Reply.
Variable clock : nat -> Z.

Lemma translateTextNodes_tag (element : Node) (st : State) :
  tagNameOf (translateTextNodes background clock element st).1 = tagNameOf element.
Proof.
  destruct element as [name attrs children | data]; [|reflexivity].
  cbn [translateTextNodes]. destruct (forEachNode _ children st). reflexivity.
Qed.

Lemma translateTextNode_Sends (data : jsstring) (st : State) :
  exists new,
    Sends st new (translateTextNode background clock data st).2
    /\ Forall (fun text => text = trim data /\ isBlank text = false) new.
Proof.
  unfold translateTextNode.
  destruct (truthy data); [|exists []; split; [apply Sends_refl | constructor]].
  cbv zeta. destruct (0 <? length (trim data));
    [|exists []; split; [apply Sends_refl | constructor]].
  destruct (translateText_Sends background clock (trim data) st) as (new & Hsends & Hnew).
  exists new. split.
  - destruct (translateText background clock (trim data) st) as [[translated|] st'];
      [destruct (truthy translated)|]; exact Hsends.
  - destruct Hnew as [-> | [-> Hblank]]; repeat constructor. exact Hblank.
Qed.

Lemma translateTextNodes_spec (element : Node) :
  forall st,
    exists new,
      outline hasExcludedTag (translateTextNodes background clock element st).1
      = outline hasExcludedTag element
      /\ Sends st new (translateTextNodes background clock element st).2
      /\ Forall (fun text =>
                   exists data,
                     In data (textsOutside hasExcludedTag element)
                     /\ text = trim data /\ isBlank text = false) new.
Proof.
  induction element as [data | name attrs children IH] using Node_induction;
    intros st.
  { exists []. split; [reflexivity|]. split; [apply Sends_refl | constructor]. }
  cbn [translateTextNodes].
  match goal with |- context [forEachNode ?b children st] => set (body := b) end.
  destruct (forEachNode_each (fun st => st) body
              (fun child child' =>
                 (if hasExcludedTag child' then child' else outline hasExcludedTag child')
                 = (if hasExcludedTag child then child else outline hasExcludedTag child))
              (fun child text =>
                 hasExcludedTag child = false
                 /\ exists data, In data (textsOutside hasExcludedTag child)
                                 /\ text = trim data /\ isBlank text = false)
              children) with (st := st) as (new & HQ & Hsends & HF).
  { clear st. eapply List.Forall_impl; [|exact IH]. clear IH.
    intros [tag childAttrs grandchildren | data] IH st; subst body; cbv beta iota.
    - fold (hasExcludedTag (Element tag childAttrs grandchildren)).
      destruct (hasExcludedTag (Element tag childAttrs grandchildren)) eqn:Hstop.
      + exists []. simpl. rewrite Hstop.
        split; [reflexivity|]. split; [apply Sends_refl | constructor].
      + destruct (IH st) as (new & Hout & Hsends & Hnew). exists new.
        split; [|split; [exact Hsends|]].
        * unfold hasExcludedTag at 1. rewrite translateTextNodes_tag.
          fold (hasExcludedTag (Element tag childAttrs grandchildren)).
          rewrite Hstop. exact Hout.
        * eapply List.Forall_impl; [|exact Hnew]. intros text H. split; [reflexivity | exact H].
    - destruct (translateTextNode_Sends data st) as (new & Hsends & Hnew).
      exists new. destruct (translateTextNode background clock data st) as [data' st'].
      split; [reflexivity|]. split; [exact Hsends|].
      eapply List.Forall_impl; [|exact Hnew]. intros text [-> Hblank].
      split; [reflexivity|]. exists data. simpl. auto. }
  destruct (forEachNode body children st) as [children' st'].
  exists new. split; [|split; [exact Hsends|]].
  - simpl. f_equal. apply outline_children. exact HQ.
  - eapply List.Forall_impl; [|exact HF].
    intros text (child & Hin & Hstop & data & Hdata & Htext).
    exists data. split; [|exact Htext].
    eapply textsOutside_child; eassumption.
Qed.

End TextNodesFacts.

Section ElementFacts.

Import ContentScript.

Variable background : list jsstring -> jsstring -> Reply.
Variable clock : nat -> Z.

Lemma translateNodeValue_inCode (text : jsstring) (st : bool * State) :
  translateNodeValue background clock true text st = (text, st).
Proof.
  unfold translateNodeValue. destruct st as [added s].
  destruct (negb (truthy text) || isBlank text); reflexivity.
Qed.

Lemma translateNodeValue_Sends (inCode : bool) (text : jsstring) (st : bool * State) :
  exists new,
    Sends st.2 new (translateNodeValue background clock inCode text st).2.2
    /\ Forall (fun sentText => sentText = text /\ isBlank text = false) new.
Proof.
  unfold translateNodeValue. destruct st as [added s].
  destruct (negb (truthy text) || isBlank text) eqn:Hblank;
    [exists []; split; [apply Sends_refl | constructor]|].
  apply orb_false_iff in Hblank as [_ Hblank].
  destruct inCode; [exists []; split; [apply Sends_refl | constructor]|].
  exists [text]. split; [|repeat constructor; exact Hblank].
  destruct (background (sent s) text) as [|[] [translated|]];
    try (split; reflexivity).
  destruct (truthy translated); [|split; reflexivity].
  split; [reflexivity|]. simpl. destruct (pageContext s); reflexivity.
Qed.

(** Below a code block nothing is sent and nothing is changed. *)
Lemma translateTextsBelow_inCode (node : Node) :
  forall path st,
    isInsideCodeBlock path = true ->
    translateTextsBelow background clock path node st = (node, st).
Proof.
  induction node as [data | name attrs children IH] using Node_induction;
    intros path st Hpath.
  - cbn [translateTextsBelow]. cbn [isInsideCodeBlock existsb] in *.
    unfold isInsideCodeBlock in Hpath. rewrite Hpath, translateNodeValue_inCode.
    reflexivity.
  - cbn [translateTextsBelow]. rewrite forEachNode_id; [reflexivity|].
    eapply List.Forall_impl; [|exact IH]. intros child Hchild st'.
    apply Hchild. unfold isInsideCodeBlock in *. cbn [existsb].
    rewrite Hpath. apply orb_true_r.
Qed.

Lemma translateTextsBelow_codeBlock (node : Node) (path : list Node)
    (st : bool * State) :
  marksCodeBlock node = true ->
  translateTextsBelow background clock path node st = (node, st).
Proof.
  intros Hmarks. destruct node as [name attrs children | data].
  - cbn [translateTextsBelow]. rewrite forEachNode_id; [reflexivity|].
    apply List.Forall_forall. intros child _ st'.
    apply translateTextsBelow_inCode. unfold isInsideCodeBlock. cbn [existsb].
    rewrite Hmarks. reflexivity.
  - vm_compute in Hmarks. discriminate.
Qed.

Lemma translateTextsBelow_marks (node : Node) (path : list Node) (st : bool * State) :
  marksCodeBlock (translateTextsBelow background clock path node st).1
  = marksCodeBlock node.
Proof.
  destruct node as [name attrs children | data].
  - cbn [translateTextsBelow]. destruct (forEachNode _ children st). reflexivity.
  - cbn [translateTextsBelow]. destruct (translateNodeValue _ _ _ _ _). reflexivity.
Qed.

Lemma translateTextsBelow_spec (node : Node) :
  forall path st,
    exists new,
      outline marksCodeBlock (translateTextsBelow background clock path node st).1
      = outline marksCodeBlock node
      /\ Sends st.2 new (translateTextsBelow background clock path node st).2.2
      /\ Forall (fun text =>
                   In text (textsOutside marksCodeBlock node)
                   /\ isBlank text = false) new.
Proof.
  induction node as [data | name attrs children IH] using Node_induction;
    intros path st.
  { cbn [translateTextsBelow].
    destruct (translateNodeValue_Sends (isInsideCodeBlock (TextNode data :: path)) data st)
      as (new & Hsends & Hnew).
    destruct (translateNodeValue _ _ _ _ _) as [data' st'].
    exists new. split; [reflexivity|]. split; [exact Hsends|].
    eapply List.Forall_impl; [|exact Hnew]. intros text [-> Hblank].
    split; [left; reflexivity | exact Hblank]. }
  cbn [translateTextsBelow].
  set (here := Element name attrs children).
  destruct (forEachNode_each (fun st : bool * State => st.2)
              (translateTextsBelow background clock (here :: path))
              (fun child child' =>
                 (if marksCodeBlock child' then child' else outline marksCodeBlock child')
                 = (if marksCodeBlock child then child else outline marksCodeBlock child))
              (fun child text =>
                 marksCodeBlock child = false
                 /\ In text (textsOutside marksCodeBlock child)
                 /\ isBlank text = false)
              children) with (st := st) as (new & HQ & Hsends & HF).
  { clear st. eapply List.Forall_impl; [|exact IH]. clear IH.
    intros child IH st. rewrite translateTextsBelow_marks.
    destruct (marksCodeBlock child) eqn:Hmarks.
    - rewrite translateTextsBelow_codeBlock by exact Hmarks.
      exists []. split; [reflexivity|]. split; [apply Sends_refl | constructor].
    - destruct (IH (here :: path) st) as (new & Hout & Hsends & Hnew).
      exists new. split; [exact Hout|]. split; [exact Hsends|].
      eapply List.Forall_impl; [|exact Hnew]. intros text H. split; [reflexivity | exact H]. }
  destruct (forEachNode _ children st) as [children' st'].
  exists new. split; [|split; [exact Hsends|]].
  - simpl. f_equal. apply outline_children. exact HQ.
  - eapply List.Forall_impl; [|exact HF].
    intros text (child & Hin & Hstop & Hdata & Hblank).
    split; [|exact Hblank]. eapply textsOutside_child; eassumption.
Qed.

End ElementFacts.

(** What [translateElement] changes and sends. *)
Lemma translateElement_spec
    (background : list jsstring -> jsstring -> ContentScript.Reply)
    (clock : nat -> Z) (ancestors : list ContentScript.Node)
    (element : ContentScript.Node) (st : ContentScript.State) :
  let '(element', added, st') :=
    ContentScript.translateElement background clock ancestors element st in
  outline ContentScript.marksCodeBlock element'
  = outline ContentScript.marksCodeBlock element
  /\ (exists new,
        Sends st new st'
        /\ Forall (fun text =>
                     In text (textsOutside ContentScript.marksCodeBlock element)
                     /\ isBlank text = false) new)
  /\ (ContentScript.isInsideCodeBlock (element :: ancestors) = true ->
      element' = element /\ st' = st).
Proof.
  unfold ContentScript.translateElement.
  destruct (ContentScript.shouldTranslateElement ancestors element) eqn:Hshould; simpl negb;
    cbv iota.
  - destruct (translateTextsBelow_spec background clock element ancestors (false, st))
      as (new & Hout & Hsends & Hnew).
    destruct (ContentScript.translateTextsBelow _ _ _ _ _) as [element' [added st']].
    split; [exact Hout|]. split; [eauto|].
    intros Hinside. unfold ContentScript.shouldTranslateElement in Hshould.
    rewrite Hinside in Hshould.
    destruct (existsb _ _); [discriminate|]. destruct (bool_decide _); discriminate.
  - split; [reflexivity|]. split; [|auto].
    exists []. split; [apply Sends_refl | constructor].
Qed.

(** X23: [translateElement] changes nothing of the element but the values
    of text nodes that lie outside every code block below it (an
    element marked [data-code-block], one whose [tagName] is CODE or
    PRE, or one with the class [code], [highlight], [hljs] or
    [CodeMirror]); every text it sends is the value, not empty and not
    only whitespace, of such a text node; and for an element that is or
    lies in a code block it changes and sends nothing. *)
Theorem X23_translateElement_leaves_code_blocks_alone
    (background : list jsstring -> jsstring -> ContentScript.Reply)
    (clock : nat -> Z) (ancestors : list ContentScript.Node)
    (element : ContentScript.Node) (st : ContentScript.State) :
  let '(element', added, st') :=
    ContentScript.translateElement background clock ancestors element st in
  outline ContentScript.marksCodeBlock element'
  = outline ContentScript.marksCodeBlock element
  /\ (exists new,
        Sends st new st'
        /\ Forall (fun text =>
                     In text (textsOutside ContentScript.marksCodeBlock element)
                     /\ isBlank text = false) new)
  /\ (ContentScript.isInsideCodeBlock (element :: ancestors) = true ->
      element' = element /\ st' = st).
Proof. exact (translateElement_spec background clock ancestors element st). Qed.

(** X22: [translateTextNodes] changes nothing of the element but the
    content of text nodes that lie outside the elements below it whose
    [tagName] is SCRIPT, STYLE, NOSCRIPT, CODE or PRE, and every text it
    sends is the trimmed content, not empty, of such a text node. *)
Theorem X22_translateTextNodes_leaves_excluded_elements_alone
    (background : list jsstring -> jsstring -> ContentScript.Reply)
    (clock : nat -> Z) (element : ContentScript.Node) (st : ContentScript.State) :
  let '(element', st') :=
    ContentScript.translateTextNodes background clock element st in
  outline hasExcludedTag element' = outline hasExcludedTag element
  /\ exists new,
       Sends st new st'
       /\ Forall (fun text =>
                    exists data,
                      In data (textsOutside hasExcludedTag element)
                      /\ text = trim data /\ isBlank text = false) new.
Proof.
  destruct (translateTextNodes_spec background clock element st)
    as (new & Hout & Hsends & Hnew).
  destruct (ContentScript.translateTextNodes background clock element st)
    as [element' st'].
  split; [exact Hout | eauto].
Qed.

(** The tests on [tagName] at work on a drawing.  In an HTML document
    the [tagName] of an SVG element is its name as it is written, [svg]
    or [style], and none of the names in upper case: [translateElement]
    translates the texts of the drawing, and [translateTextNodes] enters
    its [style] element as it enters the others.  The HTML [style]
    element, with the [tagName] STYLE, is left alone by both. *)
Lemma tagName_tests_on_a_drawing :
  ContentScript.shouldTranslateElement [] drawing = true
  /\ (ContentScript.translateElement translating noon [] drawing sampleScript).1.1
     = translatedDrawing
  /\ (ContentScript.translateTextNodes translating noon drawing sampleScript).1
     = translatedDrawing
  /\ ContentScript.shouldTranslateElement [] styleSheet = false
  /\ (ContentScript.translateTextNodes translating noon
        (ContentScript.Element (ContentScript.htmlName "div") [] [styleSheet])
        sampleScript).1
     = ContentScript.Element (ContentScript.htmlName "div") [] [styleSheet].
Proof. vm_compute. repeat split; reflexivity. Qed.

(** ** The text of the page *)

Section CloneFacts.

Import ContentScript.

Lemma textOutside_element (stop : Node -> bool) (name : ContentScript.Name)
    (attrs : list (jsstring * jsstring)) (children : list Node) :
  textOutside stop (Element name attrs children)
  = concat (map (fun child => if stop child then [] else textOutside stop child)
              children).
Proof.
  unfold textOutside. simpl.
  induction children as [|child rest IH]; [reflexivity|].
  simpl. rewrite concat_app, IH. destruct (stop child); reflexivity.
Qed.

Lemma textContent_textOutside (node : Node) :
  textContent node = textOutside (fun _ => false) node.
Proof.
  induction node as [data | name attrs children IH] using Node_induction.
  - unfold textOutside. simpl. rewrite app_nil_r. reflexivity.
  - rewrite textOutside_element. simpl. f_equal.
    induction IH as [|child rest Hchild _ IHrest]; [reflexivity|].
    simpl. rewrite Hchild, IHrest. reflexivity.
Qed.

Lemma textOutside_ext (p q : Node -> bool) (node : Node) :
  (forall child, p child = q child) -> textOutside p node = textOutside q node.
Proof.
  intros Hpq. induction node as [data | name attrs children IH] using Node_induction;
    [reflexivity|].
  rewrite !textOutside_element. f_equal.
  induction IH as [|child rest Hchild _ IHrest]; [reflexivity|].
  simpl. rewrite Hpq, Hchild, IHrest. reflexivity.
Qed.

Lemma matches_removeAll (selector other : Selector) (node : Node) :
  matches other (removeAll selector node) = matches other node.
Proof. destruct node; reflexivity. Qed.

Lemma anyOf_removeAll (selectors : list Selector) (selector : Selector) (node : Node) :
  anyOf selectors (removeAll selector node) = anyOf selectors node.
Proof.
  unfold anyOf. induction selectors as [|s rest IH]; [reflexivity|].
  simpl. rewrite matches_removeAll, IH. reflexivity.
Qed.

(** Removing what matches a selector, then leaving out what matches the
    others, leaves out what matches any of them. *)
Lemma textOutside_removeAll (selectors : list Selector) (selector : Selector)
    (node : Node) :
  textOutside (anyOf selectors) (removeAll selector node)
  = textOutside (anyOf (selector :: selectors)) node.
Proof.
  induction node as [data | name attrs children IH] using Node_induction;
    [reflexivity|].
  cbn [removeAll]. rewrite !textOutside_element.
  induction IH as [|child rest Hchild _ IHrest]; [reflexivity|].
  cbn [omap list_omap map concat]. fold (@omap list _ Node Node).
  rewrite <- IHrest. unfold anyOf at 3. cbn [existsb]. fold (anyOf selectors child).
  destruct (matches selector child); [reflexivity|].
  cbn [map concat orb]. rewrite anyOf_removeAll, Hchild. reflexivity.
Qed.

Lemma anyOf_middle (before : list Selector) (selector : Selector)
    (after : list Selector) (node : Node) :
  anyOf (before ++ selector :: after) node = anyOf (selector :: before ++ after) node.
Proof.
  unfold anyOf. rewrite existsb_app. cbn [existsb]. rewrite existsb_app.
  destruct (matches selector node); [apply orb_true_r | reflexivity].
Qed.

Lemma textOutside_foldl (selectors : list Selector) :
  forall (others : list Selector) (node : Node),
    textOutside (anyOf others)
      (foldl (fun clone selector => removeAll selector clone) node selectors)
    = textOutside (anyOf (reverse selectors ++ others)) node.
Proof.
  induction selectors as [|selector rest IH]; intros others node; [reflexivity|].
  cbn [foldl]. rewrite IH, textOutside_removeAll. apply textOutside_ext.
  intros child. rewrite reverse_cons, <- app_assoc. cbn [app].
  symmetry. apply anyOf_middle.
Qed.

Lemma textContent_withoutScriptAttributes (node : Node) :
  textContent (withoutScriptAttributes node) = textContent node.
Proof. destruct node; reflexivity. Qed.

Lemma textContent_removeScriptAttributes (node : Node) :
  textContent (removeScriptAttributes node) = textContent node.
Proof.
  induction node as [data | name attrs children IH] using Node_induction;
    [reflexivity|].
  cbn [removeScriptAttributes textContent]. f_equal. rewrite map_map.
  induction IH as [|child rest Hchild _ IHrest]; [reflexivity|].
  cbn [map]. rewrite textContent_withoutScriptAttributes, Hchild, IHrest. reflexivity.
Qed.

Lemma anyOf_excluded (node : Node) :
  anyOf (reverse excludeSelectors ++ [TypeSelector "script"]) node = excluded node.
Proof.
  unfold excluded, anyOf. apply eq_true_iff_eq. rewrite !existsb_exists.
  split; intros (selector & Hin & Hmatch); exists selector; (split; [|exact Hmatch]);
    vm_compute in Hin; vm_compute; tauto.
Qed.

(** The text of the clone is the text of the element outside the
    excluded elements. *)
Lemma textContent_cleanedClone (element : Node) :
  textContent (cleanedClone element) = textOutside excluded element.
Proof.
  unfold cleanedClone. rewrite textContent_removeScriptAttributes.
  rewrite textContent_textOutside.
  rewrite (textOutside_ext _ (anyOf []) _ (fun _ => eq_refl)).
  rewrite textOutside_removeAll, textOutside_foldl.
  apply textOutside_ext. exact anyOf_excluded.
Qed.

(** *** The elements of the clone *)

Lemma withoutScriptAttributes_sanitized (node : Node) :
  Forall sanitized (attributesOf (withoutScriptAttributes node)).
Proof.
  destruct node as [name attrs children | data]; simpl; [|constructor].
  apply List.Forall_forall. intros [attribute value] Hin.
  apply filter_In in Hin as [_ Hsafe]. unfold scriptAttribute in Hsafe. simpl in Hsafe.
  apply negb_true_iff, orb_false_iff in Hsafe as [Hon Hjs]. split; assumption.
Qed.

Lemma withoutScriptAttributes_descendants (node : Node) :
  descendants (withoutScriptAttributes node) = descendants node.
Proof. destruct node; reflexivity. Qed.

Lemma withoutScriptAttributes_tag (node : Node) :
  localNameOf (withoutScriptAttributes node) = localNameOf node.
Proof. destruct node; reflexivity. Qed.

Lemma removeScriptAttributes_tag (node : Node) :
  localNameOf (removeScriptAttributes node) = localNameOf node.
Proof. destruct node; reflexivity. Qed.

(** The loop over the attributes leaves the tags of the descendants as
    they are, and no script attribute on any of them. *)
Lemma removeScriptAttributes_descendants (node : Node) :
  Forall (fun d => Forall sanitized (attributesOf d))
    (descendants (removeScriptAttributes node))
  /\ map localNameOf (descendants (removeScriptAttributes node))
     = map localNameOf (descendants node).
Proof.
  induction node as [data | name attrs children IH] using Node_induction;
    [split; [constructor | reflexivity]|].
  cbn [removeScriptAttributes]. rewrite !descendants_element.
  induction IH as [|child rest [Hsafe Htags] _ [IHsafe IHtags]];
    [split; [constructor | reflexivity]|].
  destruct child as [tag childAttrs grandchildren | data].
  2:{ cbn [map concat removeScriptAttributes withoutScriptAttributes app].
      split; assumption. }
  cbn [map concat]. rewrite !map_app, IHtags.
  remember (removeScriptAttributes (Element tag childAttrs grandchildren)) as child' eqn:Hc.
  assert (Hshape : exists t a c, withoutScriptAttributes child' = Element t a c).
  { rewrite Hc. simpl. eauto. }
  destruct Hshape as (t & a & c & Hshape). rewrite Hshape, <- Hshape. split.
  - apply Forall_app. split; [|exact IHsafe]. constructor.
    + apply withoutScriptAttributes_sanitized.
    + rewrite withoutScriptAttributes_descendants. exact Hsafe.
  - f_equal. cbn [map]. rewrite withoutScriptAttributes_descendants, Htags.
    rewrite withoutScriptAttributes_tag, Hc, removeScriptAttributes_tag. reflexivity.
Qed.

(** A descendant left by [removeAll] has the tag of a descendant of the
    root, and that is not the tag of the selector. *)
Lemma removeAll_tags (selector : Selector) (node : Node) (tag : string) :
  In tag (map localNameOf (descendants (removeAll selector node))) ->
  In tag (map localNameOf (descendants node)) /\ selector <> TypeSelector tag.
Proof.
  induction node as [data | name attrs children IH] using Node_induction;
    [intros []|].
  cbn [removeAll]. rewrite !descendants_element.
  induction IH as [|child rest Hchild _ IHrest]; [intros []|].
  cbn [omap list_omap]. fold (@omap list _ Node Node).
  cbn [map concat]. rewrite (map_app _ _ (concat _)), in_app_iff.
  destruct (matches selector child) eqn:Hmatch.
  { intros H. destruct (IHrest H) as [Hin Hsel]. split; [right; exact Hin | exact Hsel]. }
  cbn [map concat]. rewrite map_app, in_app_iff.
  intros [H | H]; [|destruct (IHrest H) as [Hin Hsel]; split; [right; exact Hin | exact Hsel]].
  destruct child as [childTag childAttrs grandchildren | data]; [|destruct H].
  remember (removeAll selector (Element childTag childAttrs grandchildren)) as kept eqn:Hk.
  assert (Hshape : exists a c, kept = Element childTag a c).
  { rewrite Hk. simpl. eauto. }
  destruct Hshape as (a & c & Hshape). rewrite Hshape in H at 1.
  cbn [map In localNameOf] in H. destruct H as [Htag | H].
  - rewrite Hshape in Htag. simpl in Htag.
    split; [left; left; exact Htag|]. intros ->. simpl in Hmatch.
    rewrite Htag, String.eqb_refl in Hmatch. discriminate.
  - destruct (Hchild H) as [Hin Hsel].
    split; [left; right; exact Hin | exact Hsel].
Qed.

Lemma foldl_removeAll_tags (selectors : list Selector) (tag : string) :
  forall node,
    In tag (map localNameOf (descendants
                         (foldl (fun clone selector => removeAll selector clone)
                            node selectors))) ->
    In tag (map localNameOf (descendants node)) /\ ~ In (TypeSelector tag) selectors.
Proof.
  induction selectors as [|selector rest IH]; intros node H; [split; [exact H | intros []]|].
  cbn [foldl] in H. apply IH in H as [H Hrest].
  apply removeAll_tags in H as [H Hsel].
  split; [exact H|]. intros [Heq | Hin]; [exact (Hsel Heq) | exact (Hrest Hin)].
Qed.

(** The elements of the clone: none has the tag of a type selector of
    [excludeSelectors], and none has a script attribute. *)
Lemma cleanedClone_descendants (element descendant : Node) :
  In descendant (descendants (cleanedClone element)) ->
  ~ In (TypeSelector (localNameOf descendant)) excludeSelectors
  /\ Forall sanitized (attributesOf descendant).
Proof.
  intros Hin. split.
  - assert (Htag : In (localNameOf descendant)
                     (map localNameOf (descendants (cleanedClone element))))
      by (apply in_map; exact Hin).
    unfold cleanedClone in Htag.
    rewrite (proj2 (removeScriptAttributes_descendants _)) in Htag.
    apply removeAll_tags in Htag as [Htag _].
    apply foldl_removeAll_tags in Htag as [_ Htag]. exact Htag.
  - pose proof (proj1 (removeScriptAttributes_descendants
                         (removeAll (TypeSelector "script")
                            (foldl (fun clone selector => removeAll selector clone)
                               element excludeSelectors)))) as H.
    rewrite List.Forall_forall in H. exact (H descendant Hin).
Qed.

End CloneFacts.

(** X24: the text that [extractTextContent] returns is the trimmed text
    of the element outside the descendants that an exclude selector
    matches.  The HTML content and the structured content that it
    stores are those of its clone, and the clone has no descendant with
    the tag of an exclude selector and no descendant with a script
    attribute. *)
Theorem X24_extracted_text_leaves_out_the_excluded_elements
    (serializeToString : ContentScript.Node -> option jsstring)
    (element : ContentScript.Node) (st : ContentScript.State) :
  let clone := ContentScript.cleanedClone element in
  (ContentScript.extractTextContent serializeToString element st).1
  = trim (textOutside excluded element)
  /\ (forall pc htmlContent,
        ContentScript.pageContext st = Some pc ->
        serializeToString clone = Some htmlContent ->
        ContentScript.pageContext
          (ContentScript.extractTextContent serializeToString element st).2
        = Some (PageContext.with_structuredContent
                  (ContentScript.extractStructuredContent clone)
                  (PageContext.with_htmlContent htmlContent pc)))
  /\ forall descendant,
       In descendant (ContentScript.descendants clone) ->
       ~ In (ContentScript.TypeSelector (ContentScript.localNameOf descendant))
           ContentScript.excludeSelectors
       /\ Forall sanitized (ContentScript.attributesOf descendant).
Proof.
  intros clone. split; [|split].
  - unfold ContentScript.extractTextContent. cbn [fst].
    rewrite textContent_cleanedClone. reflexivity.
  - intros pc htmlContent Hpc Hhtml. unfold ContentScript.extractTextContent.
    fold clone. rewrite Hhtml, Hpc. reflexivity.
  - apply cleanedClone_descendants.
Qed.

Section SanitizeText.

Import ContentScript SidePanel.

Lemma textContent_withoutDangerousAttributes (node : Node) :
  textContent (withoutDangerousAttributes node) = textContent node.
Proof. destruct node; reflexivity. Qed.

(** What [processNode] leaves of the text: all of it but the text inside
    the elements with a dangerous tag. *)
Lemma textContent_processNode (node : Node) :
  textContent (processNode node) = textOutside hasDangerousTag node.
Proof.
  induction node as [data | name attrs children IH] using Node_induction.
  - unfold textOutside. simpl. rewrite app_nil_r. reflexivity.
  - rewrite textOutside_element. cbn [processNode textContent].
    induction IH as [|child rest Hchild _ IHrest]; [reflexivity|].
    cbn [omap list_omap map concat]. fold (@omap list _ Node Node).
    rewrite <- IHrest.
    destruct child as [tag childAttrs grandchildren | data];
      [|change (hasDangerousTag (TextNode data)) with false; cbv iota;
        rewrite <- Hchild; reflexivity].
    fold (hasDangerousTag (Element tag childAttrs grandchildren)).
    destruct (hasDangerousTag (Element tag childAttrs grandchildren)); [reflexivity|].
    cbn [map concat]. rewrite textContent_withoutDangerousAttributes, Hchild. reflexivity.
Qed.

End SanitizeText.

(** X21: below the element that [sanitizeHtml] has gone through there is
    no element with a dangerous tag and no attribute whose name starts
    with [on] or whose value contains [javascript:]; and the text of
    the element is what it was outside the elements with a dangerous
    tag. *)
Theorem X21_sanitizeHtml_removes_what_is_dangerous_and_nothing_else
    (element : ContentScript.Node) :
  (forall descendant,
     In descendant (ContentScript.descendants (SidePanel.sanitizeHtml element)) ->
     hasDangerousTag descendant = false
     /\ Forall sanitized (ContentScript.attributesOf descendant))
  /\ ContentScript.textContent (SidePanel.sanitizeHtml element)
     = textOutside hasDangerousTag element.
Proof.
  split.
  - intros descendant Hin. pose proof (processNode_safe element) as H.
    rewrite List.Forall_forall in H. exact (H descendant Hin).
  - apply textContent_processNode.
Qed.

(** ** The page handlers of the content script *)

(** X25: when the page context has content and structured content,
    [handleTranslatePage] answers with the success of the save message,
    whatever has become of the translation requests; it stores one
    translated item per structured-content item, of the same type, tag
    and attributes, and sets [lastUpdated] to the reading of the clock
    after the translation requests; apart from the record of
    translations nothing else of the page context changes, so the HTML
    content and the text content are not translated; and the context it
    sends to be saved is the one it holds. *)
Theorem X25_page_with_structured_content_is_translated_by_items
    (background : list jsstring -> jsstring -> ContentScript.Reply)
    (clock : nat -> Z)
    (serializeToString : ContentScript.Node -> option jsstring)
    (parseFromString : jsstring -> ContentScript.Node)
    (document : ContentScript.Document) (delivered : bool)
    (st : ContentScript.State) (pc : PageContext.t)
    (item : StructuredContentElement.t) (items : list StructuredContentElement.t) :
  ContentScript.pageContext st = Some pc ->
  isBlank (PageContext.content pc) = false ->
  PageContext.structuredContent pc = Some (item :: items) ->
  exists st' pc' translatedItems,
    ContentScript.handleTranslatePage background clock serializeToString
      parseFromString document delivered st
    = (Some delivered, st', Some pc')
    /\ ContentScript.pageContext st' = Some pc'
    /\ Forall2 sameShape (item :: items) translatedItems
    /\ PageContext.lastUpdated pc' = clock (length (ContentScript.sent st'))
    /\ withoutTranslations pc'
       = withoutTranslations
           (PageContext.with_lastUpdated (clock (length (ContentScript.sent st')))
              (PageContext.with_translatedStructuredContent translatedItems pc)).
Proof.
  intros Hpc Hblank Hitems. unfold ContentScript.handleTranslatePage.
  rewrite Hpc, Hblank.
  destruct (PageContext.content pc) as [|c content] eqn:Hcontent; [discriminate|].
  cbn [truthy negb orb]. cbv iota.
  unfold ContentScript.translatePage. rewrite Hpc, Hitems.
  destruct (translateStructuredContent_spec background clock st pc (item :: items)
              Hpc Hitems) as (pc1 & translatedItems & Hpc1 & _ & Hshape & Hsame).
  unfold ContentScript.savePageContext. rewrite Hpc1.
  eexists _, _, translatedItems. split; [reflexivity|]. split; [reflexivity|].
  split; [exact Hshape|]. split; [reflexivity|].
  cbn [ContentScript.sent].
  unfold withoutTranslations, PageContext.with_translations,
    PageContext.with_translatedStructuredContent, PageContext.with_lastUpdated in *.
  simpl in *. injection Hsame; intros; congruence.
Qed.

Lemma X25_page_with_structured_content_witness :
  exists st' pc' translatedItems,
    ContentScript.handleTranslatePage translating noon noSerializer noParser
      emptyDocument true sampleScript
    = (Some true, st', Some pc')
    /\ ContentScript.pageContext st' = Some pc'
    /\ Forall2 sameShape [textItem; codeItem] translatedItems
    /\ PageContext.lastUpdated pc' = noon (length (ContentScript.sent st'))
    /\ withoutTranslations pc'
       = withoutTranslations
           (PageContext.with_lastUpdated (noon (length (ContentScript.sent st')))
              (PageContext.with_translatedStructuredContent translatedItems
                 sampleContext)).
Proof.
  apply (X25_page_with_structured_content_is_translated_by_items translating noon
           noSerializer noParser emptyDocument true sampleScript sampleContext
           textItem [codeItem]); reflexivity.
Defined.

(** X27: the page context that the content script sends to be saved is
    its own with [lastUpdated] refreshed; once the background has saved
    it, [initializePageContext] on a page of the same URL takes it up
    as it was saved. *)
Theorem X27_saved_page_context_is_taken_up_again
    (document : ContentScript.Document) (now later : Z)
    (st reloaded : ContentScript.State) (pc : PageContext.t) (b : Background.t) :
  ContentScript.pageContext st = Some pc ->
  PageContext.url pc = ContentScript.href document ->
  exists st1 saved,
    ContentScript.savePageContext now st = (st1, Some saved)
    /\ saved = PageContext.with_lastUpdated now pc
    /\ ContentScript.pageContext
         (ContentScript.initializePageContext document
            (Some (true,
                   Background.handleGetPageContext (ContentScript.href document)
                     (Background.handleSavePageContext saved b)))
            later reloaded)
       = Some saved.
Proof.
  intros Hpc Hurl. unfold ContentScript.savePageContext. rewrite Hpc.
  eexists _, _. split; [reflexivity|]. split; [reflexivity|].
  unfold Background.handleGetPageContext, Background.handleSavePageContext.
  cbn [Background.storage]. rewrite <- Hurl.
  change (PageContext.url pc) with (PageContext.url (PageContext.with_lastUpdated now pc)).
  rewrite getPageContext_after_save. reflexivity.
Qed.

Lemma X27_saved_page_context_witness :
  exists st1 saved,
    ContentScript.savePageContext 9 (ContentScript.mkState (Some staleContext) [])
    = (st1, Some saved)
    /\ saved = PageContext.with_lastUpdated 9 staleContext
    /\ ContentScript.pageContext
         (ContentScript.initializePageContext emptyDocument
            (Some (true,
                   Background.handleGetPageContext (ContentScript.href emptyDocument)
                     (Background.handleSavePageContext saved freshBackground)))
            10 (ContentScript.mkState None []))
       = Some saved.
Proof.
  apply (X27_saved_page_context_is_taken_up_again emptyDocument 9 10
           (ContentScript.mkState (Some staleContext) [])
           (ContentScript.mkState None []) staleContext freshBackground); reflexivity.
Defined.

(** ** The default settings as a shared object *)

(** X26: after [saveApiKey], [getSettings] returns the new API key with
    the tone and the cache expiration it returned before.  When no
    settings were stored, the key has been written into
    [DEFAULT_SETTINGS] as well: whatever [clearStorage] then clears,
    [getSettings] still returns the key. *)
Theorem X26_saved_api_key_survives_clearStorage
    (apiKey : jsstring) (env : Storage.Env) :
  let env' := Storage.saveApiKey apiKey env in
  Storage.getSettingsIn env'
  = TranslationSettings.mk apiKey
      (TranslationSettings.tone (Storage.getSettingsIn env))
      (TranslationSettings.cacheExpiration (Storage.getSettingsIn env))
  /\ (Storage.sync (Storage.areas env) = None ->
      forall storageType,
        TranslationSettings.apiKey
          (Storage.getSettingsIn
             (Storage.mkEnv (Storage.defaults env')
                (Storage.clearStorage storageType (Storage.areas env'))))
        = apiKey).
Proof.
  split; [reflexivity|].
  intros Hnone storageType. unfold Storage.saveApiKey, Storage.getSettingsIn.
  rewrite Hnone. destruct storageType; reflexivity.
Qed.

(** ** A response without output, from the client to the content script *)



(** ** The whole page *)

Section PageFacts.

Import ContentScript.

Variable background : list jsstring -> jsstring -> Reply.
Variable clock : nat -> Z.

Lemma marksCodeBlock_head (a b : Node) :
  headOf a = headOf b -> marksCodeBlock a = marksCodeBlock b.
Proof.
  destruct a as [ta aa ca | da], b as [tb ab cb | db]; simpl; intros H;
    try discriminate; [|reflexivity].
  injection H as -> ->. reflexivity.
Qed.

Lemma isInsideCodeBlock_cons (node : Node) (chain : list Node) :
  isInsideCodeBlock (node :: chain)
  = (marksCodeBlock node || isInsideCodeBlock chain).
Proof.
  unfold isInsideCodeBlock. cbn [existsb]. destruct node; reflexivity.
Qed.

Lemma translateTextsBelow_head (path : list Node) (node : Node) (st : bool * State) :
  headOf (translateTextsBelow background clock path node st).1 = headOf node.
Proof.
  destruct node as [name attrs children | data]; cbn [translateTextsBelow].
  - destruct (forEachNode _ children st). reflexivity.
  - destruct (translateNodeValue _ _ _ _ _). reflexivity.
Qed.

Lemma translateElement_head (ancestors : list Node) (element : Node) (st : State) :
  headOf (translateElement background clock ancestors element st).1.1 = headOf element.
Proof.
  unfold translateElement. destruct (negb _); [reflexivity|].
  pose proof (translateTextsBelow_head ancestors element (false, st)) as H.
  destruct (translateTextsBelow _ _ _ _ _) as [element' [added st']]. exact H.
Qed.

(** What [translateElement] does to the element at a path, seen from
    the node the path starts at. *)
Lemma translateElementAt_spec (path : list nat) :
  forall chain node st,
    let result := translateElementAt background clock chain node path st in
    outline marksCodeBlock result.1 = outline marksCodeBlock node
    /\ headOf result.1 = headOf node
    /\ (exists new, Sends st new result.2)
    /\ (isInsideCodeBlock chain = true -> result = (node, st)).
Proof.
  induction path as [|i rest IH]; intros chain node st result; subst result.
  { destruct node; cbn [translateElementAt]; repeat split; try reflexivity;
      exists []; apply Sends_refl. }
  destruct node as [name attrs children | data];
    [|cbn [translateElementAt]; repeat split; try reflexivity;
      exists []; apply Sends_refl].
  cbn [translateElementAt].
  destruct (children !! i) as [child|] eqn:Hchild;
    [|repeat split; try reflexivity; exists []; apply Sends_refl].
  (* the child after the call, with what the call keeps *)
  assert (Hcall : exists child' st',
             match rest with
             | [] =>
                 let '(element', _, st') :=
                   translateElement background clock chain child st in
                 (element', st')
             | _ :: _ => translateElementAt background clock (child :: chain) child rest st
             end = (child', st')
             /\ outline marksCodeBlock child' = outline marksCodeBlock child
             /\ headOf child' = headOf child
             /\ (exists new, Sends st new st')
             /\ (isInsideCodeBlock (child :: chain) = true -> child' = child /\ st' = st)).
  { destruct rest as [|j rest'].
    - pose proof (translateElement_spec background clock chain child st) as Hspec.
      pose proof (translateElement_head chain child st) as Hhead.
      destruct (translateElement background clock chain child st)
        as [[element' added] st'].
      destruct Hspec as (Hout & (new & Hsends & _) & Hcode).
      exists element', st'. split; [reflexivity|]. split; [exact Hout|].
      split; [exact Hhead|]. split; [eauto | exact Hcode].
    - destruct (IH (child :: chain) child st) as (Hout & Hhead & Hsends & Hcode).
      destruct (translateElementAt background clock (child :: chain) child (j :: rest') st)
        as [child' st'] eqn:Hresult.
      exists child', st'. split; [reflexivity|]. split; [exact Hout|].
      split; [exact Hhead|]. split; [exact Hsends|].
      intros Hinside. specialize (Hcode Hinside). split; congruence. }
  destruct Hcall as (child' & st' & -> & Hout & Hhead & Hsends & Hcode).
  cbn [fst snd]. split; [|split; [reflexivity|split; [exact Hsends|]]].
  - cbn [outline]. f_equal. rewrite list_fmap_insert. apply list_insert_id.
    rewrite list_lookup_fmap, Hchild. cbn [fmap option_fmap option_map]. f_equal.
    rewrite (marksCodeBlock_head child' child Hhead).
    destruct (marksCodeBlock child) eqn:Hmarks; [|symmetry; exact Hout].
    symmetry. apply Hcode. rewrite isInsideCodeBlock_cons, Hmarks. reflexivity.
  - intros Hinside. destruct Hcode as [-> ->].
    { rewrite isInsideCodeBlock_cons, Hinside. apply orb_true_r. }
    rewrite list_insert_id by exact Hchild. reflexivity.
Qed.

End PageFacts.

(** X29: when [toggleTranslation] turns the translation on, the loop over
    the elements of the page changes nothing of the page but the values
    of text nodes outside every code block, and nothing of the page
    context but its record of translations. *)
Theorem X29_toggleTranslation_leaves_code_blocks_alone
    (background : list jsstring -> jsstring -> ContentScript.Reply)
    (clock : nat -> Z) (body : ContentScript.Node) (st : ContentScript.State) :
  exists body' st',
    ContentScript.toggleTranslation background clock false body st
    = (true, Some (body', st'))
    /\ outline ContentScript.marksCodeBlock body'
       = outline ContentScript.marksCodeBlock body
    /\ exists new, Sends st new st'.
Proof.
  unfold ContentScript.toggleTranslation. cbn [negb].
  generalize (ContentScript.elementPaths body). intros paths.
  assert (H : forall page : ContentScript.Node * ContentScript.State,
             let page' :=
               fold_left (fun page path =>
                            ContentScript.translateElementAt background clock []
                              page.1 path page.2) paths page in
             outline ContentScript.marksCodeBlock page'.1
             = outline ContentScript.marksCodeBlock page.1
             /\ exists new, Sends page.2 new page'.2).
  { induction paths as [|path rest IH]; intros page.
    - split; [reflexivity|]. exists []. apply Sends_refl.
    - cbn [fold_left]. cbv zeta.
      destruct (translateElementAt_spec background clock path [] page.1 page.2)
        as (Hout & _ & (new1 & Hsends1) & _).
      destruct (IH (ContentScript.translateElementAt background clock [] page.1 path page.2))
        as (Hout' & new2 & Hsends2).
      split; [rewrite Hout'; exact Hout|].
      exists (new1 ++ new2). exact (Sends_trans _ _ _ _ _ Hsends1 Hsends2). }
  specialize (H (body, st)). cbv zeta in H. cbn [fst snd] in H.
  destruct (fold_left _ paths (body, st)) as [body' st'].
  exists body', st'. split; [reflexivity | exact H].
Qed.
